(** * CourseCompass: the extraction, merge, normalisation and de-duplication
      pipeline, embedded from the Python and SQL sources.

    - [Text]: Python [str] values and the character classes of [re]/[str.strip].
    - [Regex]: a backtracking matcher for the pattern fragment the sources use.
    - [ProcessPdfs]: [extract_course_info_from_bytes] (process_pdfs.py).
    - [ScrapeProfessorRatings]: [scrape_professor_rating] and the merge with
      input.csv (scrape_professor_ratings.py).
    - [CleanAndStore]: the numeric clean-up (clean_and_store_data.py).
    - [Standardization]: [standardization_sql] (app_data_pipeline.py).

    Floating-point columns are idealised as exact rationals ([Q], compared
    with [==]); a null / NaN cell is [None]. *)

From Stdlib Require Import List Ascii String Bool Arith ZArith QArith Qround Lia Lqa Permutation.
From Stdlib Require Import DecimalString DecimalZ DecimalPos.
Import ListNotations.

Close Scope Q_scope.
Open Scope nat_scope.

(* ================================================================== *)
(** ** Text: Python strings over the code points 0..255 *)
(* ================================================================== *)
Module Text.

(** A Python [str], as the list of its code points (restricted to U+0000 ..
    U+00FF, the range of [ascii]). *)
Definition str := list ascii.

Definition lit (s : string) : str := list_ascii_of_string s.

Definition code (c : ascii) : nat := nat_of_ascii c.

Definition between (lo hi : nat) (c : ascii) : bool :=
  (lo <=? code c) && (code c <=? hi).

(** [str.isspace] / [\s] on the range: TAB..CR, FS..US, SPACE, NEL, NBSP. *)
Definition isspace (c : ascii) : bool :=
  between 9 13 c || between 28 32 c || (code c =? 133) || (code c =? 160).

(** [\d]: the decimal digits (category Nd), which below U+0100 are 0..9. *)
Definition isdigit (c : ascii) : bool := between 48 57 c.

(** [\w]: alphanumerics and the underscore; below U+0100 the alphanumerics
    are the ASCII ones, the Latin-1 letters, and the numeric characters
    superscript 1-3 and the vulgar fractions. *)
Definition isword (c : ascii) : bool :=
  isdigit c || between 65 90 c || (code c =? 95) || between 97 122 c
  || (code c =? 170) || between 178 179 c || (code c =? 181)
  || between 185 186 c || between 188 190 c
  || between 192 214 c || between 216 246 c || between 248 255 c.

(** [.] without DOTALL: anything but a newline. *)
Definition isdot (c : ascii) : bool := negb (code c =? 10).

Definition is_char (x : ascii) (c : ascii) : bool := Ascii.eqb x c.

Definition str_eqb (a b : str) : bool :=
  if list_eq_dec ascii_dec a b then true else false.

Fixpoint dropwhile (p : ascii -> bool) (s : str) : str :=
  match s with
  | [] => []
  | c :: t => if p c then dropwhile p t else s
  end.

Definition lstrip (s : str) : str := dropwhile isspace s.
Definition rstrip (s : str) : str := rev (dropwhile isspace (rev s)).

(** [s.strip()] *)
Definition strip (s : str) : str := rstrip (lstrip s).

Fixpoint starts_with (p s : str) : bool :=
  match p, s with
  | [], _ => true
  | a :: p', b :: s' => Ascii.eqb a b && starts_with p' s'
  | _ :: _, [] => false
  end.

(** [sub in s] *)
Fixpoint contains (sub s : str) : bool :=
  starts_with sub s ||
  match s with
  | [] => false
  | _ :: t => contains sub t
  end.

(** Value of a non-empty string of decimal digits; [None] otherwise. *)
Definition digit_val (c : ascii) : Z := Z.of_nat (code c - 48).

Definition digits_value (s : str) : option Z :=
  match s with
  | [] => None
  | _ => if forallb isdigit s
         then Some (fold_left (fun acc c => 10 * acc + digit_val c)%Z s 0%Z)
         else None
  end.

(** [sys.int_info.default_max_str_digits]: the longest digit string
    [int] converts before it raises ValueError. *)
Definition max_str_digits : nat := 4300.

(** [int(s)] on the strings the sources pass to it (unsigned digit runs);
    [None] stands for ValueError, which a run of more than
    [max_str_digits] digits raises, leading zeros counted. *)
Definition python_int (s : str) : option Z :=
  if List.length s <=? max_str_digits then digits_value s else None.

Fixpoint split_dot (s : str) : str * option str :=
  match s with
  | [] => ([], None)
  | c :: t =>
      if is_char "."%char c then ([], Some t)
      else let '(a, b) := split_dot t in (c :: a, b)
  end.

Definition pow10 (n : nat) : Z := Z.pow 10 (Z.of_nat n).

Definition unsigned_decimal (s : str) : option Q :=
  match split_dot s with
  | (ip, None) => option_map inject_Z (digits_value ip)
  | (ip, Some fp) =>
      match ip, fp with
      | [], [] => None
      | _, _ =>
          if forallb isdigit ip && forallb isdigit fp then
            let i := match digits_value ip with Some z => z | None => 0%Z end in
            let f := match digits_value fp with Some z => z | None => 0%Z end in
            Some (inject_Z (i * pow10 (List.length fp) + f) / inject_Z (pow10 (List.length fp)))%Q
          else None
      end
  end.

(** Decimal literals as [float(s)] and [pd.to_numeric] read them: optional
    surrounding whitespace, an optional sign, digits with an optional
    fractional part.  [None] stands for ValueError / a coerced NaN.  Other
    forms those functions accept (exponents, inf, nan) are outside this
    fragment. *)
Definition parse_decimal (s : str) : option Q :=
  match strip s with
  | c :: t =>
      if is_char "-"%char c then option_map Qopp (unsigned_decimal t)
      else if is_char "+"%char c then unsigned_decimal t
      else unsigned_decimal (c :: t)
  | [] => None
  end.

End Text.

(* ================================================================== *)
(** ** Regex: the fragment of Python's [re] used by the sources *)
(* ================================================================== *)
Module Regex.
Import Text.

Definition charset := ascii -> bool.

(** Patterns.  Quantifiers apply to single-character classes only, which
    is all the sources need; capture groups are numbered in the order of
    their opening parentheses and are never nested under an alternative. *)
Inductive re : Type :=
| Lit (l : str)                                   (* literal text *)
| Cls (c : charset)                               (* one character of a class *)
| Rep (c : charset) (lo : nat) (hi : option nat) (greedy : bool)
                                                  (* c{lo,hi}, greedy or lazy *)
| Cat (a b : re)
| Alt (a b : re)
| Grp (a : re).                                   (* ( ... ) *)

(** Length of the longest prefix of [s] inside the class. *)
Fixpoint span (c : charset) (s : str) : nat :=
  match s with
  | x :: t => if c x then S (span c t) else 0
  | [] => 0
  end.

(** The repetition counts a quantifier tries, in the order the
    backtracking matcher tries them. *)
Definition counts (c : charset) (lo : nat) (hi : option nat) (greedy : bool)
    (s : str) : list nat :=
  let m := match hi with Some h => Nat.min h (span c s) | None => span c s end in
  let ns := seq lo (S m - lo) in
  if greedy then rev ns else ns.

(** A partial match: the text consumed, the groups captured so far, and
    the rest of the subject. *)
Definition partial : Type := str * list str * str.

(** All the ways [r] matches a prefix of [s], in backtracking priority
    order: the head of the list is the match Python reports. *)
Fixpoint run (r : re) (s : str) : list partial :=
  match r with
  | Lit l => if starts_with l s then [(l, [], skipn (List.length l) s)] else []
  | Cls c =>
      match s with
      | x :: t => if c x then [([x], [], t)] else []
      | [] => []
      end
  | Rep c lo hi g =>
      map (fun n => (firstn n s, [], skipn n s)) (counts c lo hi g s)
  | Cat a b =>
      flat_map (fun pa : partial =>
                  let '(ta, ga, ra) := pa in
                  map (fun pb : partial =>
                         let '(tb, gb, rb) := pb in (ta ++ tb, ga ++ gb, rb))
                      (run b ra))
               (run a s)
  | Alt a b => run a s ++ run b s
  | Grp a => map (fun p : partial => let '(t, g, r') := p in (t, t :: g, r')) (run a s)
  end.

(** A match object, reduced to its groups: [groups m] lists group 1, 2, ... *)
Record match_obj : Type := { whole : str; groups : list str }.

Definition first_match (r : re) (s : str) : option match_obj :=
  match run r s with
  | (t, g, _) :: _ => Some {| whole := t; groups := g |}
  | [] => None
  end.

(** [re.match(r, s)], which is also [re.search('^' + r, s)]: the pattern
    is tried at the start of the subject only. *)
Definition re_match (r : re) (s : str) : option match_obj := first_match r s.

(** [re.search(r, s)]: the leftmost start position with a match. *)
Fixpoint re_search (r : re) (s : str) : option match_obj :=
  match first_match r s with
  | Some m => Some m
  | None =>
      match s with
      | [] => None
      | _ :: t => re_search r t
      end
  end.

(** [m.group(k)] for [k >= 1]; [None] stands for IndexError. *)
Definition group (m : match_obj) (k : nat) : option str :=
  nth_error (groups m) (k - 1).

(** Declarative reading of a pattern: [derives r t g] when [r] matches
    exactly the text [t] capturing the groups [g]. *)
Inductive derives : re -> str -> list str -> Prop :=
| D_Lit l : derives (Lit l) l []
| D_Cls (c : charset) x : c x = true -> derives (Cls c) [x] []
| D_Rep (c : charset) lo hi g t :
    forallb c t = true -> lo <= List.length t ->
    (forall h, hi = Some h -> List.length t <= h) ->
    derives (Rep c lo hi g) t []
| D_Cat a b ta ga tb gb :
    derives a ta ga -> derives b tb gb -> derives (Cat a b) (ta ++ tb) (ga ++ gb)
| D_AltL a b t g : derives a t g -> derives (Alt a b) t g
| D_AltR a b t g : derives b t g -> derives (Alt a b) t g
| D_Grp a t g : derives a t g -> derives (Grp a) t (t :: g).

End Regex.

(* ================================================================== *)
(** ** Exceptions: a result type for code that may raise *)
(* ================================================================== *)
Module Exn.

Inductive exn : Type := IndexError | ValueError | PdfError | OSError | DatabaseError.

Inductive result (A : Type) : Type :=
| Ok (a : A)
| Raise (e : exn).
Arguments Ok {A} a.
Arguments Raise {A} e.

Definition bind {A B : Type} (m : result A) (k : A -> result B) : result B :=
  match m with
  | Ok a => k a
  | Raise e => Raise e
  end.

(** An [option] whose [None] is the exception [e]. *)
Definition or_raise {A : Type} (e : exn) (o : option A) : result A :=
  match o with
  | Some a => Ok a
  | None => Raise e
  end.

(** [try: m  except Exception: handler] *)
Definition try_except {A : Type} (m : result A) (handler : A) : A :=
  match m with
  | Ok a => a
  | Raise _ => handler
  end.

End Exn.

Declare Scope exn_scope.
Notation "x <- m ;; k" := (Exn.bind m (fun x => k))
  (at level 61, m at next level, right associativity) : exn_scope.

(* ================================================================== *)
(** ** process_pdfs.py *)
(* ================================================================== *)
Module ProcessPdfs.
Import Text Regex Exn.
Local Open Scope exn_scope.

Record CourseFragment : Type := {
  filename : str;
  professor : str;
  semester : str;
  course_code : str;
  section : str;
  course_name : str;
  overall_rating : option Q;
  rmp_id : option Z
}.

Definition Unknown : str := lit "Unknown".

(** [r'\$\$(.*?)\$\$'] *)
Definition prof_re : re :=
  Cat (Lit (lit "$$")) (Cat (Grp (Rep isdot 0 None false)) (Lit (lit "$$"))).

(** [r'^(SP|FL)(\d{4})'], the [^] carried by [re_match]. *)
Definition sem_re : re :=
  Cat (Grp (Alt (Lit (lit "SP")) (Lit (lit "FL"))))
      (Grp (Rep isdigit 4 (Some 4) true)).

(** [[._\s]] *)
Definition issep (c : ascii) : bool :=
  is_char "."%char c || is_char "_"%char c || isspace c.

(** [r'(L24|E81)[._\s]+(\w+)[._\s]+(\d+)'] *)
Definition crs_re : re :=
  Cat (Grp (Alt (Lit (lit "L24")) (Lit (lit "E81"))))
      (Cat (Rep issep 1 None true)
           (Cat (Grp (Rep isword 1 None true))
                (Cat (Rep issep 1 None true)
                     (Grp (Rep isdigit 1 None true))))).

(** A letter under [re.IGNORECASE]. *)
Definition either (u l : ascii) (c : ascii) : bool := is_char u c || is_char l c.

(** [[-_]] *)
Definition isdash (c : ascii) : bool := is_char "-"%char c || is_char "_"%char c.

(** [r'RMP[-_]?(\d+)'] compiled with [re.IGNORECASE] *)
Definition rmp_re : re :=
  Cat (Cls (either "R" "r"))
      (Cat (Cls (either "M" "m"))
           (Cat (Cls (either "P" "p"))
                (Cat (Rep isdash 0 (Some 1) true)
                     (Grp (Rep isdigit 1 None true))))).

(** [r'Reports for .*?- (.*?)\('] *)
Definition name_re : re :=
  Cat (Lit (lit "Reports for "))
      (Cat (Rep isdot 0 None false)
           (Cat (Lit (lit "- "))
                (Cat (Grp (Rep isdot 0 None false)) (Lit (lit "("))))).

(** [r'Overall Rating:\s*(\d+\.\d+)'] *)
Definition rate_re : re :=
  Cat (Lit (lit "Overall Rating:"))
      (Cat (Rep isspace 0 None true)
           (Grp (Cat (Rep isdigit 1 None true)
                     (Cat (Lit (lit ".")) (Rep isdigit 1 None true))))).

(** What pdfplumber does with a byte string: [pdfplumber.open] raises, or
    yields pages whose [extract_text()] returns text, returns [None], or
    raises. *)
Inductive page : Type := PageText (t : str) | PageNone | PageRaises.
Inductive pdf : Type := OpenRaises | Pages (ps : list page).

(** The body of the [for page in pdf.pages] loop, from the text so far. *)
Fixpoint read_pages (ps : list page) (text : str) : result str :=
  match ps with
  | [] => Ok text
  | PageRaises :: _ => Raise PdfError
  | PageNone :: rest => read_pages rest text
  | PageText [] :: rest => read_pages rest text
  | PageText page_text :: rest => read_pages rest (text ++ page_text ++ lit " ")
  end.

Definition m_group (m : match_obj) (k : nat) : result str :=
  or_raise IndexError (group m k).

Section Extract.

(** pdfplumber is an external collaborator. *)
Variable pdfplumber_open : list Byte.byte -> pdf.

Definition pdf_text (file_bytes : list Byte.byte) : str :=
  try_except
    (match pdfplumber_open file_bytes with
     | OpenRaises => Raise PdfError
     | Pages ps => read_pages ps []
     end)
    [].

Definition extract_course_info_from_bytes (file_bytes : list Byte.byte)
    (filename : str) : result CourseFragment :=
  let filename := strip filename in
  professor <- match re_search prof_re filename with
               | Some prof_m => m_group prof_m 1
               | None => Ok Unknown
               end ;;
  semester <- match re_match sem_re filename with
              | Some sem_m =>
                  g1 <- m_group sem_m 1 ;;
                  g2 <- m_group sem_m 2 ;;
                  Ok (g1 ++ lit " " ++ g2)
              | None => Ok Unknown
              end ;;
  crs <- match re_search crs_re filename with
         | Some crs_m =>
             g2 <- m_group crs_m 2 ;;
             g3 <- m_group crs_m 3 ;;
             Ok (g2, g3)
         | None => Ok (Unknown, Unknown)
         end ;;
  let '(course_code, section) := crs in
  rmp_id <- match re_search rmp_re filename with
            | Some rmp_m =>
                g1 <- m_group rmp_m 1 ;;
                n <- or_raise ValueError (python_int g1) ;;
                Ok (Some n)
            | None => Ok None
            end ;;
  let text := pdf_text file_bytes in
  course_name <- match re_search name_re text with
                 | Some name_m =>
                     g1 <- m_group name_m 1 ;;
                     Ok (strip g1)
                 | None => Ok Unknown
                 end ;;
  overall_rating <- match re_search rate_re text with
                    | Some rate_m =>
                        g1 <- m_group rate_m 1 ;;
                        x <- or_raise ValueError (parse_decimal g1) ;;
                        Ok (Some x)
                    | None => Ok None
                    end ;;
  Ok {| filename := filename;
        professor := professor;
        semester := semester;
        course_code := course_code;
        section := section;
        course_name := course_name;
        overall_rating := overall_rating;
        rmp_id := rmp_id |}.

End Extract.

End ProcessPdfs.

(* ================================================================== *)
(** ** scrape_professor_ratings.py *)
(* ================================================================== *)
Module ScrapeProfessorRatings.
Import Text Regex.

(** *** The rating page *)

(** A parsed page, as the elements bs4 walks in document order. *)
Record element : Type := {
  tag_name : str;
  classes : list str;
  text : str
}.

(** What [requests.get] does: raises, or answers with a status code and a
    body that BeautifulSoup parses (or fails to parse). *)
Inductive response : Type :=
| RequestRaises
| Response (status_code : nat) (soup : option (list element)).

Record rating_info : Type := {
  rmp_id : str;
  scraped_overall_rating : option str;
  would_take_again : option str;
  difficulty : option str;
  tags : list str
}.

(** [re.compile(prefix + '.*')] searched in a class name. *)
Definition class_re (prefix : string) : re :=
  Cat (Lit (lit prefix)) (Rep isdot 0 None true).

Definition has_class (r : re) (e : element) : bool :=
  existsb (fun c => match re_search r c with Some _ => true | None => false end)
          (classes e).

(** [soup.find_all(name, class_=r)] *)
Definition find_all (soup : list element) (name : string) (r : re) : list element :=
  filter (fun e => str_eqb (tag_name e) (lit name) && has_class r e) soup.

(** [soup.find(name, class_=r)] *)
Definition find (soup : list element) (name : string) (r : re) : option element :=
  hd_error (find_all soup name r).

(** [s.replace('%', '')] *)
Definition remove_percent (s : str) : str :=
  filter (fun c => negb (is_char "%"%char c)) s.

(** [c.lower()] on the range. *)
Definition lower_char (c : ascii) : ascii :=
  if between 65 90 c || between 192 214 c || between 216 222 c
  then ascii_of_nat (code c + 32) else c.

Definition lower (s : str) : str := map lower_char s.

(** [set(xs)], kept as the list of its elements without repetitions; the
    order of that list stands for nothing, the order in which the set is
    walked being a matter of the process ([ScrapeTable.tags_order]). *)
Definition to_set (xs : list str) : list str := nodup (list_eq_dec ascii_dec) xs.

Section Scrape.

Variable requests_get : str -> response.

Definition url (rmp_id : str) : str :=
  lit "https://www.ratemyprofessors.com/professor/" ++ rmp_id.

Definition scrape_professor_rating (rmp_id : str) : option rating_info :=
  match rmp_id with
  | [] => None
  | _ =>
    match requests_get (url rmp_id) with
    | RequestRaises => None
    | Response status_code body =>
        if negb (status_code =? 200) then None
        else
          match body with
          | None => None
          | Some soup =>
              let rating_element := find soup "div" (class_re "RatingValue__Numerator-") in
              let scraped :=
                match rating_element with
                | Some e => Some (strip (text e))
                | None => None
                end in
              let feedback_numbers :=
                find_all soup "div" (class_re "FeedbackItem__FeedbackNumber-") in
              let '(wta, diff) :=
                if 2 <=? List.length feedback_numbers then
                  match feedback_numbers with
                  | f0 :: f1 :: _ =>
                      let wt_again := strip (text f0) in
                      let difficulty := strip (text f1) in
                      let wt_again :=
                        if contains (lit "%") wt_again
                        then remove_percent wt_again else wt_again in
                      (Some wt_again, Some difficulty)
                  | _ => (None, None)
                  end
                else (None, None) in
              let tag_elements := find_all soup "span" (class_re "Tag-") in
              let tags :=
                match tag_elements with
                | [] => []
                | _ => to_set (map (fun tag => strip (lower (text tag))) tag_elements)
                end in
              Some {| rmp_id := rmp_id;
                      scraped_overall_rating := scraped;
                      would_take_again := wta;
                      difficulty := diff;
                      tags := tags |}
          end
    end
  end.

End Scrape.

(** *** The merge with input.csv *)

(** A row of input.csv, reduced to the columns the merge selects. *)
Record csv_row : Type := {
  csv_course_code : str;
  csv_rmp_id : option Z
}.

(** [a.combine_first(b)], cell by cell: [a] where it is not null. *)
Definition combine_first {A : Type} (a b : option A) : option A :=
  match a with
  | Some x => Some x
  | None => b
  end.

Definition set_course_code (f : ProcessPdfs.CourseFragment) (cc : str)
    : ProcessPdfs.CourseFragment :=
  {| ProcessPdfs.filename := ProcessPdfs.filename f;
     ProcessPdfs.professor := ProcessPdfs.professor f;
     ProcessPdfs.semester := ProcessPdfs.semester f;
     ProcessPdfs.course_code := cc;
     ProcessPdfs.section := ProcessPdfs.section f;
     ProcessPdfs.course_name := ProcessPdfs.course_name f;
     ProcessPdfs.overall_rating := ProcessPdfs.overall_rating f;
     ProcessPdfs.rmp_id := ProcessPdfs.rmp_id f |}.

Definition set_rmp_id (f : ProcessPdfs.CourseFragment) (id : option Z)
    : ProcessPdfs.CourseFragment :=
  {| ProcessPdfs.filename := ProcessPdfs.filename f;
     ProcessPdfs.professor := ProcessPdfs.professor f;
     ProcessPdfs.semester := ProcessPdfs.semester f;
     ProcessPdfs.course_code := ProcessPdfs.course_code f;
     ProcessPdfs.section := ProcessPdfs.section f;
     ProcessPdfs.course_name := ProcessPdfs.course_name f;
     ProcessPdfs.overall_rating := ProcessPdfs.overall_rating f;
     ProcessPdfs.rmp_id := id |}.

(** The rows of input.csv whose stripped course code equals [cc]. *)
Definition csv_matches (csv_df : list csv_row) (cc : str) : list csv_row :=
  filter (fun c => str_eqb (strip (csv_course_code c)) cc) csv_df.

(** [pd.merge(df, csv_df[['course_code', 'rmp_id']], on='course_code',
    how='left', suffixes=("", "_csv"))] for one left row: the row paired
    with the [rmp_id_csv] of each matching right row, or with a null when
    none matches. *)
Definition merge_row (csv_df : list csv_row) (row : ProcessPdfs.CourseFragment)
    : list (ProcessPdfs.CourseFragment * option Z) :=
  match csv_matches csv_df (ProcessPdfs.course_code row) with
  | [] => [(row, None)]
  | ms => map (fun c => (row, csv_rmp_id c)) ms
  end.

(** Lines 125-137 of [scrape_professor_ratings_table]: the data frame after
    the merge with input.csv. *)
Definition merge_input_csv (df : list ProcessPdfs.CourseFragment)
    (csv_df : list csv_row) : list ProcessPdfs.CourseFragment :=
  match csv_df with
  | [] => df
  | _ =>
      let df := map (fun f => set_course_code f (strip (ProcessPdfs.course_code f))) df in
      let merged := flat_map (merge_row csv_df) df in
      map (fun p : ProcessPdfs.CourseFragment * option Z =>
             let '(row, rmp_id_csv) := p in
             set_rmp_id row (combine_first rmp_id_csv (ProcessPdfs.rmp_id row)))
          merged
  end.

End ScrapeProfessorRatings.

(* ================================================================== *)
(** ** clean_and_store_data.py *)
(* ================================================================== *)
Module CleanAndStore.
Import Text.

(** A cell of the all-string table RMP_ENRICHED_DATA. *)
Definition cell := option str.

(** [df.replace([np.nan, 'NAN', 'nan', 'NaN', '', None], None)] on a cell. *)
Definition replace_null_like (c : cell) : cell :=
  match c with
  | Some s =>
      if existsb (str_eqb s) [lit "NAN"; lit "nan"; lit "NaN"; []] then None
      else Some s
  | None => None
  end.

(** [pd.notna(x)] on a float: false on NaN. *)
Definition notna (x : option Q) : bool :=
  match x with
  | Some _ => true
  | None => false
  end.

(** [x > b] on floats: false on NaN. *)
Definition gt (x : option Q) (b : Q) : bool :=
  match x with
  | Some v => negb (Qle_bool v b)
  | None => false
  end.

(** [lambda x: x / 100 if pd.notna(x) and x > 1 else x] *)
Definition percent_lambda (x : option Q) : option Q :=
  if notna x && gt x 1 then option_map (fun v => v / 100)%Q x else x.

Section Clean.

(** [pd.to_numeric(_, errors="coerce")] on one cell: the parsed number, or
    [None] (NaN) for a null or unparseable cell. *)
Variable to_numeric : cell -> option Q.

(** Lines 50-51: what the "WOULD TAKE AGAIN" column holds after cleaning,
    cell by cell. *)
Definition would_take_again_clean (c : cell) : option Q :=
  percent_lambda (to_numeric (replace_null_like c)).

Definition would_take_again_column (col : list cell) : list (option Q) :=
  map would_take_again_clean col.

End Clean.

(** [pd.to_numeric] on decimal literals. *)
Definition to_numeric_decimal (c : cell) : option Q :=
  match c with
  | Some s => parse_decimal s
  | None => None
  end.

End CleanAndStore.

(* ================================================================== *)
(** ** app_data_pipeline.py: standardization_sql *)
(* ================================================================== *)
Module Standardization.
Import Text.

(** A row of MY_WASHU_COURSES_WITH_RATINGS; [None] is SQL NULL. *)
Record source_row : Type := {
  FILENAME : option str;
  PROFESSOR : option str;
  SEMESTER : option str;
  COURSE_CODE : option str;
  SECTION : option str;
  COURSE_NAME : option str;
  OVERALL_RATING : option Q;
  RMP_ID : option Z;
  SCRAPED_OVERALL_RATING : option Q;
  WOULD_TAKE_AGAIN : option Q;
  DIFFICULTY : option Q;
  TAGS : option str
}.

(** A row of the CTE [normalized_data]. *)
Record normalized_row : Type := {
  n_ORIGINAL_PROFESSOR_NAME : option str;
  n_PROFESSOR_NAME : option str;
  n_COURSE_CODE : option str;
  n_COURSE_NAME : option str;
  n_SEMESTER : option str;
  n_SECTION : option str;
  n_RMP_ID : option Z;
  n_OVERALL_RATING_NUM : option Q;
  n_SCRAPED_OVERALL_RATING_NUM : option Q;
  n_WOULD_TAKE_AGAIN_NUM : option Q;
  n_DIFFICULTY_NUM : option Q;
  n_TAGS : option str;
  n_ROW_RANK : nat
}.

(** A row of WASHU_COURSES_STANDARDIZED. *)
Record standardized_row : Type := {
  s_PROFESSOR_NAME : option str;
  s_FULL_PROFESSOR_NAME : option str;
  s_COURSE_CODE : option str;
  s_COURSE_NAME : option str;
  s_SEMESTER : option str;
  s_SECTION : option str;
  s_RMP_ID : option Z;
  s_OVERALL_RATING : option Q;
  s_SCRAPED_OVERALL_RATING : option Q;
  s_WOULD_TAKE_AGAIN : option Q;
  s_DIFFICULTY : option Q;
  s_TAGS : option str;
  s_NORMALIZED_RMP_RATING : option Q
}.

Definition is_blank (c : ascii) : bool := is_char " "%char c.

(** [TRIM(x)]: leading and trailing blanks removed; NULL stays NULL. *)
Definition TRIM (x : option str) : option str :=
  option_map (fun s => rev (dropwhile is_blank (rev (dropwhile is_blank s)))) x.

Fixpoint takewhile (p : ascii -> bool) (s : str) : str :=
  match s with
  | [] => []
  | c :: t => if p c then c :: takewhile p t else []
  end.

(** [SPLIT_PART(x, ' ', -1)]: the last of the parts [x] splits into at
    blanks, which is what follows its last blank. *)
Definition SPLIT_PART_last (x : option str) : option str :=
  option_map (fun s => rev (takewhile (fun c => negb (is_blank c)) (rev s))) x.

(** [CASE WHEN x IS NOT NULL THEN 0 ELSE 1 END] *)
Definition null_last {A : Type} (x : option A) : nat :=
  match x with
  | Some _ => 0
  | None => 1
  end.

(** [a > b] in a [WHEN]: true only when both sides are non-null. *)
Definition sql_gt (a : option Q) (b : Q) : bool :=
  match a with
  | Some v => negb (Qle_bool v b)
  | None => false
  end.

Definition sql_div (a : option Q) (b : Q) : option Q :=
  option_map (fun v => v / b)%Q a.

(** [(r - 1) * (6/4) + 1] *)
Definition rescale (r : Q) : Q := ((r - 1) * (6 / 4) + 1)%Q.

(** [CASE WHEN x IS NOT NULL THEN (x - 1) * (6/4) + 1 ELSE NULL END] *)
Definition NORMALIZED_RMP_RATING (x : option Q) : option Q :=
  match x with
  | Some r => Some (rescale r)
  | None => None
  end.

Definition key : Type := option str * option str * option str * option str.

Definition key_eq_dec (a b : key) : {a = b} + {a <> b}.
Proof.
  repeat decide equality; apply ascii_dec.
Defined.

Definition key_eqb (a b : key) : bool := if key_eq_dec a b then true else false.

(** The [PARTITION BY] list. *)
Definition partition_key (r : source_row) : key :=
  (SPLIT_PART_last (TRIM (PROFESSOR r)),
   TRIM (COURSE_CODE r),
   TRIM (SEMESTER r),
   TRIM (SECTION r)).

(** Ascending lexicographic order on the three [ORDER BY] terms. *)
Definition order_lt (a b : nat * nat * nat) : bool :=
  let '(a1, a2, a3) := a in
  let '(b1, b2, b3) := b in
  (a1 <? b1) || ((a1 =? b1) && ((a2 <? b2) || ((a2 =? b2) && (a3 <? b3)))).

Definition order_le (a b : nat * nat * nat) : bool := negb (order_lt b a).

Section Sql.

(** [TO_NUMBER] is the warehouse's conversion to NUMBER. *)
Variable TO_NUMBER : option Q -> option Q.

(** The [ORDER BY] list. *)
Definition order_key (r : source_row) : nat * nat * nat :=
  (null_last (TO_NUMBER (OVERALL_RATING r)),
   null_last (TO_NUMBER (SCRAPED_OVERALL_RATING r)),
   null_last (TRIM (COURSE_NAME r))).

Definition same_partition (x r : source_row) : bool :=
  key_eqb (partition_key x) (partition_key r).

(** [ROW_NUMBER() OVER (PARTITION BY ... ORDER BY ...)] of the row [r] that
    stands between [before] and [after] in the table: one more than the
    rows of its partition that sort ahead of it, rows with equal
    [ORDER BY] terms being numbered in table order. *)
Definition ROW_NUMBER (before : list source_row) (r : source_row)
    (after : list source_row) : nat :=
  S (List.length (filter (fun x => same_partition x r
                                   && order_le (order_key x) (order_key r)) before)
     + List.length (filter (fun x => same_partition x r
                                     && order_lt (order_key x) (order_key r)) after)).

Fixpoint number_rows (before rows : list source_row) : list (source_row * nat) :=
  match rows with
  | [] => []
  | r :: after => (r, ROW_NUMBER before r after) :: number_rows (before ++ [r]) after
  end.

(** [CASE WHEN TO_NUMBER(W) > 1 THEN TO_NUMBER(W)/100 ELSE TO_NUMBER(W) END] *)
Definition WOULD_TAKE_AGAIN_NUM (w : option Q) : option Q :=
  if sql_gt (TO_NUMBER w) 1 then sql_div (TO_NUMBER w) 100 else TO_NUMBER w.

Definition normalize (p : source_row * nat) : normalized_row :=
  let '(r, rank) := p in
  {| n_ORIGINAL_PROFESSOR_NAME := TRIM (PROFESSOR r);
     n_PROFESSOR_NAME := SPLIT_PART_last (TRIM (PROFESSOR r));
     n_COURSE_CODE := TRIM (COURSE_CODE r);
     n_COURSE_NAME := TRIM (COURSE_NAME r);
     n_SEMESTER := TRIM (SEMESTER r);
     n_SECTION := TRIM (SECTION r);
     n_RMP_ID := RMP_ID r;
     n_OVERALL_RATING_NUM := TO_NUMBER (OVERALL_RATING r);
     n_SCRAPED_OVERALL_RATING_NUM := TO_NUMBER (SCRAPED_OVERALL_RATING r);
     n_WOULD_TAKE_AGAIN_NUM := WOULD_TAKE_AGAIN_NUM (WOULD_TAKE_AGAIN r);
     n_DIFFICULTY_NUM := TO_NUMBER (DIFFICULTY r);
     n_TAGS := TRIM (TAGS r);
     n_ROW_RANK := rank |}.

(** The CTE [normalized_data]. *)
Definition normalized_data (rows : list source_row) : list normalized_row :=
  map normalize (number_rows [] rows).

Definition select (n : normalized_row) : standardized_row :=
  {| s_PROFESSOR_NAME := n_PROFESSOR_NAME n;
     s_FULL_PROFESSOR_NAME := n_ORIGINAL_PROFESSOR_NAME n;
     s_COURSE_CODE := n_COURSE_CODE n;
     s_COURSE_NAME := n_COURSE_NAME n;
     s_SEMESTER := n_SEMESTER n;
     s_SECTION := n_SECTION n;
     s_RMP_ID := n_RMP_ID n;
     s_OVERALL_RATING := n_OVERALL_RATING_NUM n;
     s_SCRAPED_OVERALL_RATING := n_SCRAPED_OVERALL_RATING_NUM n;
     s_WOULD_TAKE_AGAIN := n_WOULD_TAKE_AGAIN_NUM n;
     s_DIFFICULTY := n_DIFFICULTY_NUM n;
     s_TAGS := n_TAGS n;
     s_NORMALIZED_RMP_RATING :=
       NORMALIZED_RMP_RATING (n_SCRAPED_OVERALL_RATING_NUM n) |}.

(** [SELECT ... FROM normalized_data WHERE ROW_RANK = 1] *)
Definition WASHU_COURSES_STANDARDIZED (rows : list source_row)
    : list standardized_row :=
  map select (filter (fun n => n_ROW_RANK n =? 1) (normalized_data rows)).

(** The duplicate resolver on its own: the rows of the table that the
    window numbers 1, i.e. the rows [WHERE ROW_RANK = 1] keeps. *)
Definition rank_one_rows (rows : list source_row) : list source_row :=
  map fst (filter (fun p : source_row * nat => snd p =? 1) (number_rows [] rows)).

End Sql.

(** The identity key as the output table carries it. *)
Definition standardized_key (s : standardized_row) : key :=
  (s_PROFESSOR_NAME s, s_COURSE_CODE s, s_SEMESTER s, s_SECTION s).

(** Rounding to the nearest integer, halves away from zero. *)
Definition round_half_away (q : Q) : Z :=
  if Qle_bool 0 q then Qfloor (q + (1 # 2))%Q else Qceiling (q - (1 # 2))%Q.

(** [TO_NUMBER] at its default precision and scale, NUMBER(38,0). *)
Definition TO_NUMBER_38_0 (x : option Q) : option Q :=
  option_map (fun q => inject_Z (round_half_away q)) x.

End Standardization.

(* ================================================================== *)
(** ** process_pdfs.py: the batch over the stage *)
(* ================================================================== *)
Module ProcessPdfsBatch.
Import Text Exn ProcessPdfs.

(** [os.path.basename(p)]: what follows the last slash. *)
Definition basename (p : str) : str :=
  rev (Standardization.takewhile (fun c => negb (is_char "/"%char c)) (rev p)).

(** [s.endswith(suffix)] *)
Definition endswith (s suffix : str) : bool := starts_with (rev suffix) (rev s).

(** [filename.lower().endswith('.pdf')] *)
Definition is_pdf (filename : str) : bool :=
  endswith (ScrapeProfessorRatings.lower filename) (lit ".pdf").

(** What handling one staged file comes to before the extractor runs:
    [tempfile.mkdtemp] raises, the [GET] raises, no local file appears,
    opening or reading it raises, or its bytes are read. *)
Inductive download : Type :=
| MkdtempRaises
| GetRaises
| NotFoundLocally
| ReadRaises
| Content (file_bytes : list Byte.byte).

Section Batch.

Variable pdfplumber_open : list Byte.byte -> pdf.
Variable get : str -> download.

(** The body of [for row in files], from the results so far.  A raise
    of [mkdtemp] is outside the loop's own handlers and ends the loop;
    a raise of the extractor is caught and the file skipped. *)
Fixpoint process_files (files : list str) (results : list CourseFragment)
    : result (list CourseFragment) :=
  match files with
  | [] => Ok results
  | file_path :: rest =>
      let filename := basename file_path in
      if negb (is_pdf filename) then process_files rest results
      else
        match get filename with
        | MkdtempRaises => Raise OSError
        | Content file_bytes =>
            match extract_course_info_from_bytes pdfplumber_open file_bytes filename with
            | Ok info => process_files rest (results ++ [info])
            | Raise _ => process_files rest results
            end
        | _ => process_files rest results
        end
  end.

End Batch.

(** A row of the data frame built from the fragments; a string column
    can hold a missing value there. *)
Record frame_row : Type := {
  r_filename : option str;
  r_professor : option str;
  r_semester : option str;
  r_course_code : option str;
  r_section : option str;
  r_course_name : option str;
  r_overall_rating : option Q;
  r_rmp_id : option Z
}.

(** [pd.DataFrame(results)], row by row. *)
Definition frame_row_of (f : CourseFragment) : frame_row :=
  {| r_filename := Some (filename f);
     r_professor := Some (professor f);
     r_semester := Some (semester f);
     r_course_code := Some (course_code f);
     r_section := Some (section f);
     r_course_name := Some (course_name f);
     r_overall_rating := overall_rating f;
     r_rmp_id := rmp_id f |}.

(** [col.fillna('Unknown')] on a cell. *)
Definition fillna_Unknown (c : option str) : option str :=
  match c with
  | Some s => Some s
  | None => Some Unknown
  end.

(** [clean_and_store_data(df)] of process_pdfs.py, row by row;
    [pd.to_numeric] leaves the float column [overall_rating] as it is. *)
Definition clean_and_store_data (df : list frame_row) : list frame_row :=
  map (fun r =>
         {| r_filename := r_filename r;
            r_professor := fillna_Unknown (r_professor r);
            r_semester := fillna_Unknown (r_semester r);
            r_course_code := fillna_Unknown (r_course_code r);
            r_section := fillna_Unknown (r_section r);
            r_course_name := fillna_Unknown (r_course_name r);
            r_overall_rating := r_overall_rating r;
            r_rmp_id := r_rmp_id r |}) df.

(** The keys of the dictionary [extract_course_info_from_bytes] returns,
    in order: the columns of [pd.DataFrame(results)]. *)
Definition fragment_columns : list str :=
  [lit "filename"; lit "professor"; lit "semester"; lit "course_code";
   lit "section"; lit "course_name"; lit "overall_rating"; lit "rmp_id"].

Definition mapping : list (str * str) :=
  [(lit "filename", lit "FILENAME");
   (lit "professor", lit "PROFESSOR");
   (lit "semester", lit "SEMESTER");
   (lit "course_code", lit "COURSE_CODE");
   (lit "section", lit "SECTION");
   (lit "course_name", lit "COURSE_NAME");
   (lit "overall_rating", lit "Overall Rating");
   (lit "rmp_id", lit "RMP_ID")].

Fixpoint lookup {V : Type} (k : str) (d : list (str * V)) : option V :=
  match d with
  | [] => None
  | (k', v) :: rest => if str_eqb k' k then Some v else lookup k rest
  end.

(** [df.rename(columns=mapping)] on the column labels. *)
Definition fix_columns_for_snowflake (columns : list str) : list str :=
  map (fun c => match lookup c mapping with Some c' => c' | None => c end) columns.

(** The columns of [CREATE OR REPLACE TABLE AIRFLOW.APP_PROCESSED_PDFS]. *)
Definition APP_PROCESSED_PDFS_columns : list str :=
  [lit "FILENAME"; lit "PROFESSOR"; lit "SEMESTER"; lit "COURSE_CODE";
   lit "SECTION"; lit "COURSE_NAME"; lit "Overall Rating"; lit "RMP_ID"].

(** What the calls on the warehouse and the disk around the loop come
    to; [false] and [None] stand for a call that raises. *)
Record session : Type := {
  connect : bool;
  ensure_processed_pdfs_table_exists : bool;
  LIST : option (list str);
  store_results_in_snowflake : list frame_row -> bool;
  to_csv : list frame_row -> bool;
  close : bool
}.

Definition guard (e : exn) (ok : bool) : result unit :=
  if ok then Ok tt else Raise e.

Section Run.
Local Open Scope exn_scope.

Variable pdfplumber_open : list Byte.byte -> pdf.
Variable get : str -> download.

(** The [try] block of [process_pdfs_from_snowflake]; the rename of
    [fix_columns_for_snowflake] changes the labels only. *)
Definition process_pdfs_try (w : session) : result (list frame_row) :=
  created <- guard DatabaseError (ensure_processed_pdfs_table_exists w) ;;
  files <- or_raise DatabaseError (LIST w) ;;
  match files with
  | [] => Ok []
  | _ =>
      results <- process_files pdfplumber_open get files [] ;;
      match results with
      | [] => Ok []
      | _ =>
          let cleaned_df := clean_and_store_data (map frame_row_of results) in
          stored <- guard DatabaseError (store_results_in_snowflake w cleaned_df) ;;
          written <- guard OSError (to_csv w cleaned_df) ;;
          Ok cleaned_df
      end
  end.

(** [process_pdfs_from_snowflake]: the connection is made outside the
    [try]; [except Exception] returns the empty frame ([[]]); the
    [finally] closes cursor and connection. *)
Definition process_pdfs_from_snowflake (w : session) : result (list frame_row) :=
  if connect w then
    let df := try_except (process_pdfs_try w) [] in
    if close w then Ok df else Raise DatabaseError
  else Raise DatabaseError.

End Run.

End ProcessPdfsBatch.

(* ================================================================== *)
(** ** scrape_professor_ratings.py: the table of ratings *)
(* ================================================================== *)
Module ScrapeTable.
Import Text ProcessPdfs ScrapeProfessorRatings.

(** [str(n)] for a whole number: its decimal numeral. *)
Definition numeral (n : Z) : str :=
  list_ascii_of_string (NilZero.string_of_int (Z.to_int n)).

(** [float(n)] for a whole number [n], given as the whole number the
    double is: [n] itself below 2^53, and otherwise [n] rounded to 53
    significant bits, to nearest and ties to even; [None] stands for the
    OverflowError of a value that rounds to 2^1024 or beyond. *)
Definition float_of_int (n : Z) : option Z :=
  let a := Z.abs n in
  if (a <? 2 ^ 53)%Z then Some n
  else
    let e := (Z.log2 a - 52)%Z in
    let q := Z.shiftr a e in
    let r := Z.land a (Z.ones e) in
    let half := Z.shiftl 1 (e - 1) in
    let q' := if (r <? half)%Z then q
              else if (half <? r)%Z then (q + 1)%Z
              else if Z.even q then q else (q + 1)%Z in
    let v := Z.shiftl q' e in
    if (2 ^ 1024 <=? v)%Z then None else Some (Z.sgn n * v)%Z.

(** The ids of the frame are whole numbers.
    [try: str(int(float(rmp_id))).strip()  except Exception: str(rmp_id)] *)
Definition rmp_id_clean (rmp_id : Z) : str :=
  match float_of_int rmp_id with
  | Some v => strip (numeral v)
  | None => numeral rmp_id
  end.

Fixpoint unique_from (seen l : list Z) : list Z :=
  match l with
  | [] => []
  | x :: t =>
      if existsb (Z.eqb x) seen then unique_from seen t
      else x :: unique_from (x :: seen) t
  end.

Fixpoint dropna {A : Type} (l : list (option A)) : list A :=
  match l with
  | [] => []
  | Some x :: t => x :: dropna t
  | None :: t => dropna t
  end.

(** [df['rmp_id'].dropna().unique()]: the ids in order of first
    appearance. *)
Definition unique_ids (df : list CourseFragment) : list Z :=
  unique_from [] (dropna (map ProcessPdfs.rmp_id df)).

(** A row of the frame once the four scraped columns are added. *)
Record enriched_row : Type := {
  fragment : CourseFragment;
  row_scraped_overall_rating : option str;
  row_would_take_again : option str;
  row_difficulty : option str;
  row_tags : option str
}.

(** [','.join(xs)] *)
Fixpoint join_comma (xs : list str) : str :=
  match xs with
  | [] => []
  | [x] => x
  | x :: rest => x ++ lit "," ++ join_comma rest
  end.

(** The order in which [','.join] walks the tags: they are a set when
    there are any, and the empty list otherwise. *)
Definition tags_order (set_iter : list str -> list str) (tags : list str) : list str :=
  match tags with
  | [] => []
  | _ => set_iter tags
  end.

Section Table.

Variable requests_get : str -> response.

(** The order in which Python iterates over a set of strings, given by
    its elements; it varies with the hash seed of the process. *)
Variable set_iter : list str -> list str.

(** The [requests.get] calls one call of [scrape_professor_rating] makes. *)
Definition scrape_requests (rmp_id : str) : list str :=
  match rmp_id with
  | [] => []
  | _ => [url rmp_id]
  end.

(** The scraping loop over [unique_ids]: the dictionary [ratings_by_id]
    (latest entry first) and the urls requested, in order. *)
Fixpoint scrape_all (ids : list Z) (ratings_by_id : list (str * rating_info))
    (requested : list str) : list (str * rating_info) * list str :=
  match ids with
  | [] => (ratings_by_id, requested)
  | rmp_id :: rest =>
      let rmp_id_clean := rmp_id_clean rmp_id in
      let requested := requested ++ scrape_requests rmp_id_clean in
      match scrape_professor_rating requests_get rmp_id_clean with
      | Some rating_info =>
          scrape_all rest ((rmp_id_clean, rating_info) :: ratings_by_id) requested
      | None => scrape_all rest ratings_by_id requested
      end
  end.

(** The body of [for idx, row in df.iterrows()]. *)
Definition enrich (ratings_by_id : list (str * rating_info)) (row : CourseFragment)
    : enriched_row :=
  let blank := {| fragment := row;
                  row_scraped_overall_rating := None;
                  row_would_take_again := None;
                  row_difficulty := None;
                  row_tags := None |} in
  match ProcessPdfs.rmp_id row with
  | Some id =>
      match ProcessPdfsBatch.lookup (rmp_id_clean id) ratings_by_id with
      | Some info =>
          {| fragment := row;
             row_scraped_overall_rating := scraped_overall_rating info;
             row_would_take_again := would_take_again info;
             row_difficulty := difficulty info;
             row_tags := Some (join_comma (tags_order set_iter (tags info))) |}
      | None => blank
      end
  | None => blank
  end.

(** [scrape_professor_ratings_table] from the loaded frame to the frame
    before the final cell clean-up; [None] when the function returns
    before writing anything.  The second component lists the urls
    requested. *)
Definition scrape_professor_ratings_table (df : list CourseFragment)
    (csv_df : list csv_row) : option (list enriched_row) * list str :=
  match df with
  | [] => (None, [])
  | _ =>
      let df := merge_input_csv df csv_df in
      match dropna (map ProcessPdfs.rmp_id df) with
      | [] => (None, [])
      | _ =>
          let '(ratings_by_id, requested) := scrape_all (unique_ids df) [] [] in
          (Some (map (enrich ratings_by_id) df), requested)
      end
  end.

End Table.

(** A cell handed to [clean_cell]: null (None / NaN), a string, or any
    other object, given by the text [str(x)] of it. *)
Inductive cell_value : Type :=
| IsNull
| IsStr (s : str)
| IsOther (str_x : str).

Definition clean_cell (x : cell_value) : option str :=
  match x with
  | IsNull => None
  | IsStr s =>
      if str_eqb (lower (strip s)) (lit "nan") then None else Some (strip s)
  | IsOther str_x => Some str_x
  end.

(** [s.replace(' ', '_')] *)
Definition blanks_to_underscores (s : str) : str :=
  map (fun c => if is_char " "%char c then "_"%char else c) s.

(** [c.upper()] on ASCII text, where the result is again ASCII. *)
Definition upper_char (c : ascii) : ascii :=
  if between 97 122 c then ascii_of_nat (code c - 32) else c.

Definition upper (s : str) : str := map upper_char s.

Definition is_ascii (s : str) : Prop := forallb (fun c => code c <? 128) s = true.

(** [col.strip().upper().replace(' ', '_')]: a column of the output DDL. *)
Definition ddl_column (col : str) : str := blanks_to_underscores (upper (strip col)).

End ScrapeTable.

(* ================================================================== *)
(** ** clean_and_store_data.py: the frame *)
(* ================================================================== *)
Module CleanFrame.
Import Text CleanAndStore.

(** A cell of the frame: null, a string, or a float. *)
Inductive value : Type :=
| Null
| Str (s : str)
| Num (q : Q).

(** A frame, column by column. *)
Definition frame : Type := list (str * list value).

(** [df.replace([np.nan, 'NAN', 'nan', 'NaN', '', None], None)] on a cell. *)
Definition replace_nulls (v : value) : value :=
  match v with
  | Str s => match replace_null_like (Some s) with Some s' => Str s' | None => Null end
  | other => other
  end.

Section Clean.

(** [pd.to_numeric(_, errors="coerce")] on one string. *)
Variable to_numeric : cell -> option Q.

Definition to_numeric_value (v : value) : option Q :=
  match v with
  | Null => None
  | Str s => to_numeric (Some s)
  | Num q => Some q
  end.

Definition of_float (x : option Q) : value :=
  match x with
  | Some q => Num q
  | None => Null
  end.

(** [if name in df.columns: df[name] = f(df[name])] *)
Definition convert_if_present (name : str) (f : value -> value) (df : frame) : frame :=
  map (fun col : str * list value =>
         if str_eqb (fst col) name then (fst col, map f (snd col)) else col) df.

(** Lines 36-51 of [clean_and_store_data]: the frame that is written. *)
Definition clean_frame (df : frame) : frame :=
  let df := map (fun col : str * list value => (fst col, map replace_nulls (snd col))) df in
  let df := map (fun col : str * list value => (ScrapeTable.upper (fst col), snd col)) df in
  let numeric := fun v => of_float (to_numeric_value v) in
  let df := convert_if_present (lit "OVERALL_RATING") numeric df in
  let df := convert_if_present (lit "RMP_RATING") numeric df in
  let df := convert_if_present (lit "DIFFICULTY") numeric df in
  convert_if_present (lit "WOULD TAKE AGAIN")
    (fun v => of_float (percent_lambda (to_numeric_value v))) df.

End Clean.

End CleanFrame.

(* ================================================================== *)
(** * Properties *)
(* ================================================================== *)

(** Equality of nullable numbers, up to the representation of fractions. *)
Definition opt_Qeq (a b : option Q) : Prop :=
  match a, b with
  | Some x, Some y => (x == y)%Q
  | None, None => True
  | _, _ => False
  end.

(** Null, or a number of the closed interval [0,1]. *)
Definition unit_or_null (a : option Q) : Prop :=
  match a with
  | Some v => (0 <= v /\ v <= 1)%Q
  | None => True
  end.

Ltac qbool :=
  repeat match goal with
  | H : Qle_bool _ _ = true |- _ => apply Qle_bool_iff in H
  | H : Qle_bool _ _ = false |- _ =>
      apply not_true_iff_false in H; rewrite Qle_bool_iff in H
  | |- Qle_bool _ _ = true => apply Qle_bool_iff
  | |- Qle_bool _ _ = false => apply not_true_iff_false; rewrite Qle_bool_iff
  end.

(* ------------------------------------------------------------------ *)
(** ** Rating normalizer *)
(* ------------------------------------------------------------------ *)
Module NormalizerProofs.
Import Text CleanAndStore Standardization.

Lemma percent_lambda_cases (x : option Q) :
  match x with
  | None => percent_lambda x = None
  | Some v =>
      (1 < v /\ percent_lambda x = Some (v / 100))%Q \/
      (v <= 1 /\ percent_lambda x = Some v)%Q
  end.
Proof.
  destruct x as [v|]; [|reflexivity].
  unfold percent_lambda; simpl.
  destruct (Qle_bool v 1) eqn:E; simpl; qbool.
  - right; split; [assumption | reflexivity].
  - left; split; [apply Qnot_le_lt; assumption | reflexivity].
Qed.

Lemma WOULD_TAKE_AGAIN_NUM_cases (TO_NUMBER : option Q -> option Q) (w : option Q) :
  match TO_NUMBER w with
  | None => WOULD_TAKE_AGAIN_NUM TO_NUMBER w = None
  | Some v =>
      (1 < v /\ WOULD_TAKE_AGAIN_NUM TO_NUMBER w = Some (v / 100))%Q \/
      (v <= 1 /\ WOULD_TAKE_AGAIN_NUM TO_NUMBER w = Some v)%Q
  end.
Proof.
  unfold WOULD_TAKE_AGAIN_NUM.
  destruct (TO_NUMBER w) as [v|]; [|reflexivity].
  simpl. destruct (Qle_bool v 1) eqn:E; simpl; qbool.
  - right; split; [assumption | reflexivity].
  - left; split; [apply Qnot_le_lt; assumption | reflexivity].
Qed.

Lemma unit_iff_percent (v : Q) :
  ((1 < v -> (0 <= v / 100 /\ v / 100 <= 1 <-> 0 <= v /\ v <= 100)) /\
   (v <= 1 -> (0 <= v /\ v <= 1 <-> 0 <= v /\ v <= 100)))%Q.
Proof.
  split; intro H.
  - assert (E : (v / 100 == v * (1 # 100))%Q) by (unfold Qdiv; reflexivity).
    rewrite E. split; intros [A B]; split; lra.
  - split; intros [A B]; split; lra.
Qed.

(** C2, counterexample: the raw string "250" is cleaned to 2.5, and the
    SQL rule maps a stored 250 to 2.5 as well; neither is null nor inside
    [0,1]. *)
Lemma would_take_again_not_always_unit :
  ~ unit_or_null (would_take_again_clean to_numeric_decimal (Some (lit "250"))) /\
  ~ unit_or_null (WOULD_TAKE_AGAIN_NUM TO_NUMBER_38_0 (Some 250%Q)).
Proof.
  split; vm_compute; intros [_ H]; apply H; reflexivity.
Qed.

(** C2, amended: for every raw would_take_again cell the cleaned value is
    null exactly when the cell does not parse, and otherwise it is a
    number that lies in [0,1] exactly when the parsed value lies in
    [0,100]; the same holds of the SQL rule on the value TO_NUMBER
    returns. *)
Theorem would_take_again_unit_iff_percent_range :
  (forall (to_numeric : cell -> option Q) (c : cell),
     match to_numeric (replace_null_like c) with
     | None => would_take_again_clean to_numeric c = None
     | Some v =>
         exists w, would_take_again_clean to_numeric c = Some w /\
                   ((0 <= w /\ w <= 1) <-> (0 <= v /\ v <= 100))%Q
     end) /\
  (forall (TO_NUMBER : option Q -> option Q) (x : option Q),
     match TO_NUMBER x with
     | None => WOULD_TAKE_AGAIN_NUM TO_NUMBER x = None
     | Some v =>
         exists w, WOULD_TAKE_AGAIN_NUM TO_NUMBER x = Some w /\
                   ((0 <= w /\ w <= 1) <-> (0 <= v /\ v <= 100))%Q
     end).
Proof.
  split.
  - intros to_numeric c. unfold would_take_again_clean.
    pose proof (percent_lambda_cases (to_numeric (replace_null_like c))) as H.
    destruct (to_numeric (replace_null_like c)) as [v|]; [|exact H].
    destruct (unit_iff_percent v) as [U1 U2].
    destruct H as [[L E]|[L E]]; rewrite E; eexists; (split; [reflexivity|]); auto.
  - intros TO_NUMBER x.
    pose proof (WOULD_TAKE_AGAIN_NUM_cases TO_NUMBER x) as H.
    destruct (TO_NUMBER x) as [v|]; [|exact H].
    destruct (unit_iff_percent v) as [U1 U2].
    destruct H as [[L E]|[L E]]; rewrite E; eexists; (split; [reflexivity|]); auto.
Qed.

Lemma percent_lambda_stable (x : option Q) :
  match x with
  | Some v => (v <= 100)%Q -> percent_lambda (percent_lambda x) = percent_lambda x
  | None => percent_lambda (percent_lambda x) = percent_lambda x
  end.
Proof.
  destruct x as [v|]; [|reflexivity].
  intro H. unfold percent_lambda at 2 3. simpl.
  destruct (Qle_bool v 1) eqn:E; simpl.
  - unfold percent_lambda; simpl. rewrite E. reflexivity.
  - unfold percent_lambda; simpl.
    assert (L : Qle_bool (v / 100) 1 = true).
    { qbool. assert (Ev : (v / 100 == v * (1 # 100))%Q) by (unfold Qdiv; reflexivity).
      rewrite Ev. lra. }
    rewrite L. reflexivity.
Qed.

(** C3: the would_take_again rule parses the cell and divides by 100
    exactly when the parsed value exceeds 1, leaving values at most 1
    unchanged and null or unparseable cells null; "82" and "0.82" both give
    0.82 and "100" gives 1; a value is divided at most once, and applying
    the rule again to the result of a value up to 100 changes nothing. *)
Theorem would_take_again_rule :
  (forall (to_numeric : cell -> option Q) (c : cell),
     (to_numeric (replace_null_like c) = None ->
      would_take_again_clean to_numeric c = None) /\
     (forall v, to_numeric (replace_null_like c) = Some v ->
        ((1 < v)%Q -> would_take_again_clean to_numeric c = Some (v / 100)%Q) /\
        ((v <= 1)%Q -> would_take_again_clean to_numeric c = Some v) /\
        ((v <= 100)%Q ->
         percent_lambda (would_take_again_clean to_numeric c)
         = would_take_again_clean to_numeric c))) /\
  opt_Qeq (would_take_again_clean to_numeric_decimal (Some (lit "82"))) (Some 0.82%Q) /\
  opt_Qeq (would_take_again_clean to_numeric_decimal (Some (lit "0.82"))) (Some 0.82%Q) /\
  opt_Qeq (would_take_again_clean to_numeric_decimal (Some (lit "100"))) (Some 1%Q) /\
  would_take_again_clean to_numeric_decimal None = None /\
  would_take_again_clean to_numeric_decimal (Some (lit "n/a")) = None /\
  would_take_again_clean to_numeric_decimal (Some (lit "nan")) = None.
Proof.
  split; [|repeat split; vm_compute; reflexivity].
  intros to_numeric c. unfold would_take_again_clean.
  pose proof (percent_lambda_cases (to_numeric (replace_null_like c))) as H.
  pose proof (percent_lambda_stable (to_numeric (replace_null_like c))) as S.
  split.
  - intro E. rewrite E. reflexivity.
  - intros v E. rewrite E in *. repeat split.
    + intro L. destruct H as [[_ R]|[L' _]]; [exact R | lra].
    + intro L. destruct H as [[L' _]|[_ R]]; [lra | exact R].
    + exact S.
Qed.

(** The rule on "82": the parsed value 82 exceeds 1 and is divided once. *)
Lemma would_take_again_rule_witness :
  (1 < 82)%Q /\
  would_take_again_clean to_numeric_decimal (Some (lit "82")) = Some (82 / 100)%Q.
Proof.
  split; [reflexivity|].
  destruct would_take_again_rule as [R _].
  destruct (R to_numeric_decimal (Some (lit "82"))) as [_ R'].
  destruct (R' 82%Q) as [G _]; [vm_compute; reflexivity|].
  apply G. reflexivity.
Defined.

End NormalizerProofs.

(* ------------------------------------------------------------------ *)
(** ** Scale transformer *)
(* ------------------------------------------------------------------ *)
Module ScaleProofs.
Import Text Standardization.


Lemma standardized_rating_column (TO_NUMBER : option Q -> option Q)
    (rows : list source_row) (s : standardized_row) :
  In s (WASHU_COURSES_STANDARDIZED TO_NUMBER rows) ->
  s_NORMALIZED_RMP_RATING s = NORMALIZED_RMP_RATING (s_SCRAPED_OVERALL_RATING s).
Proof.
  unfold WASHU_COURSES_STANDARDIZED. intro H.
  apply in_map_iff in H. destruct H as [n [<- _]]. reflexivity.
Qed.

End ScaleProofs.

(* ------------------------------------------------------------------ *)
(** ** Rating page extractor and cross-source merge *)
(* ------------------------------------------------------------------ *)
Module ScrapeProofs.
Import Text Regex ScrapeProfessorRatings.

Definition feedback_numbers (soup : list element) : list element :=
  find_all soup "div" (class_re "FeedbackItem__FeedbackNumber-").

(** The would-take-again text as line 55-58 leave it. *)
Definition wt_again_text (e : element) : str :=
  let t := strip (text e) in
  if contains (lit "%") t then remove_percent t else t.

Lemma scrape_inv (requests_get : str -> response) (id : str) (info : rating_info) :
  scrape_professor_rating requests_get id = Some info ->
  exists soup,
    requests_get (url id) = Response 200 (Some soup) /\
    (would_take_again info, difficulty info) =
    match feedback_numbers soup with
    | f0 :: f1 :: _ => (Some (wt_again_text f0), Some (strip (text f1)))
    | _ => (None, None)
    end.
Proof.
  unfold scrape_professor_rating. destruct id as [|c id]; [discriminate|].
  destruct (requests_get (url (c :: id))) as [|code body]; [discriminate|].
  destruct (Nat.eqb_spec code 200) as [->|]; simpl; [|discriminate].
  destruct body as [soup|]; [|discriminate].
  intro H. exists soup. split; [reflexivity|].
  fold (feedback_numbers soup) in H. unfold wt_again_text.
  destruct (feedback_numbers soup) as [|f0 [|f1 rest]]; simpl in H;
    inversion H; reflexivity.
Qed.

(** C10: in every rating fragment the extractor returns, would_take_again
    and difficulty are both null or both non-null; they are filled, from
    the first and the second feedback-number node, exactly when the page
    has at least two such nodes, so a page with one node leaves both
    null. *)
Theorem feedback_fields_jointly_set (requests_get : str -> response) (id : str)
    (info : rating_info) :
  scrape_professor_rating requests_get id = Some info ->
  (would_take_again info = None <-> difficulty info = None) /\
  exists soup,
    requests_get (url id) = Response 200 (Some soup) /\
    (2 <= List.length (feedback_numbers soup) ->
     would_take_again info
       = option_map wt_again_text (nth_error (feedback_numbers soup) 0) /\
     difficulty info
       = option_map (fun e => strip (text e)) (nth_error (feedback_numbers soup) 1) /\
     would_take_again info <> None /\ difficulty info <> None) /\
    (List.length (feedback_numbers soup) < 2 ->
     would_take_again info = None /\ difficulty info = None).
Proof.
  intro H. apply scrape_inv in H. destruct H as [soup [R E]].
  assert (J : would_take_again info = None <-> difficulty info = None).
  { destruct (feedback_numbers soup) as [|f0 [|f1 rest]];
      injection E as E1 E2; split; intro; congruence. }
  split; [exact J|].
  exists soup. split; [exact R|].
  destruct (feedback_numbers soup) as [|f0 [|f1 rest]];
    injection E as E1 E2; simpl; split; intro L;
    try lia; rewrite E1, E2; repeat split; discriminate.
Qed.

Definition sample_node (cls txt : string) : element :=
  {| tag_name := lit "div"; classes := [lit cls]; text := lit txt |}.

Definition sample_page (_ : str) : response :=
  Response 200 (Some [sample_node "RatingValue__Numerator-x1" "3.9";
                      sample_node "FeedbackItem__FeedbackNumber-a" " 75% ";
                      sample_node "FeedbackItem__FeedbackNumber-a" "2.1"]).

Definition sample_info : rating_info :=
  {| rmp_id := lit "7777";
     scraped_overall_rating := Some (lit "3.9");
     would_take_again := Some (lit "75");
     difficulty := Some (lit "2.1");
     tags := [] |}.

(** A page with two feedback nodes, "75%" and "2.1". *)
Lemma feedback_fields_jointly_set_witness :
  scrape_professor_rating sample_page (lit "7777") = Some sample_info /\
  (would_take_again sample_info = None <-> difficulty sample_info = None).
Proof.
  assert (H : scrape_professor_rating sample_page (lit "7777") = Some sample_info)
    by (vm_compute; reflexivity).
  split; [exact H|].
  exact (proj1 (feedback_fields_jointly_set sample_page (lit "7777") sample_info H)).
Defined.

Import ProcessPdfs.

Lemma str_eqb_eq (a b : str) : str_eqb a b = true <-> a = b.
Proof.
  unfold str_eqb. destruct (list_eq_dec ascii_dec a b); split; congruence.
Qed.

Definition sample_fragment : CourseFragment :=
  {| filename := lit "SP2025.$$Jane Doe$$.L24.CS101.5.RMP111.pdf";
     professor := lit "Jane Doe";
     semester := lit "SP 2025";
     course_code := lit "CS101";
     section := lit "5";
     course_name := Unknown;
     overall_rating := None;
     ProcessPdfs.rmp_id := Some 111%Z |}.

Definition sample_csv : list csv_row :=
  [{| csv_course_code := lit " CS101"; csv_rmp_id := Some 222%Z |}].

(** C1, counterexample: a fragment that extracted the id 111 and whose
    course code matches an input.csv row carrying 222 comes out of the
    merge with 222. *)
Lemma csv_id_overrides_extracted_id :
  ProcessPdfs.rmp_id sample_fragment = Some 111%Z /\
  merge_input_csv [sample_fragment] sample_csv
  = [set_rmp_id sample_fragment (Some 222%Z)] /\
  Some 222%Z <> ProcessPdfs.rmp_id sample_fragment.
Proof.
  split; [reflexivity|]. split; [vm_compute; reflexivity | simpl; discriminate].
Qed.

Lemma merge_row_inv (csv_df : list csv_row) (row : CourseFragment)
    (p : CourseFragment * option Z) :
  In p (merge_row csv_df row) ->
  fst p = row /\
  ((snd p = None /\
    forall c, In c csv_df -> strip (csv_course_code c) <> course_code row) \/
   (exists c, In c csv_df /\ strip (csv_course_code c) = course_code row /\
              snd p = csv_rmp_id c)).
Proof.
  unfold merge_row, csv_matches.
  destruct (filter _ csv_df) as [|c0 ms] eqn:F.
  - intros [<-|[]]. split; [reflexivity|]. left. split; [reflexivity|].
    intros c Hc E.
    assert (I : In c (filter (fun c => str_eqb (strip (csv_course_code c))
                                               (course_code row)) csv_df)).
    { apply filter_In. split; [exact Hc | apply str_eqb_eq; exact E]. }
    rewrite F in I. exact I.
  - rewrite <- F. intro H. apply in_map_iff in H. destruct H as [c [<- Hc]].
    apply filter_In in Hc. destruct Hc as [Hc E]. apply str_eqb_eq in E.
    split; [reflexivity|]. right. exists c. auto.
Qed.

Lemma merge_row_nonempty (csv_df : list csv_row) (row : CourseFragment) :
  merge_row csv_df row <> [].
Proof.
  unfold merge_row. destruct (csv_matches csv_df (course_code row)); discriminate.
Qed.

(** C1, amended: in the merge the input.csv id takes precedence.  Every
    merged record comes from a fragment, with its course code stripped,
    and carries the id of an input.csv row whose stripped course code is
    exactly (case-sensitively) the fragment's stripped code whenever that
    id is non-null, whether or not the fragment extracted an id of its
    own; the fragment's own id is kept when the matching row's id is null
    or when no row matches, and an empty input.csv leaves the fragments as
    they are.  Every fragment yields at least one merged record. *)
Theorem merge_prefers_csv_id (df : list CourseFragment) (csv_df : list csv_row) :
  (csv_df = [] -> merge_input_csv df csv_df = df) /\
  (csv_df <> [] ->
   (forall m, In m (merge_input_csv df csv_df) ->
      exists f, In f df /\
        set_rmp_id m (ProcessPdfs.rmp_id f)
          = set_course_code f (strip (course_code f)) /\
        ((ProcessPdfs.rmp_id m = ProcessPdfs.rmp_id f /\
          forall c, In c csv_df ->
                    strip (csv_course_code c) <> strip (course_code f)) \/
         (exists c, In c csv_df /\
            strip (csv_course_code c) = strip (course_code f) /\
            ProcessPdfs.rmp_id m
              = match csv_rmp_id c with
                | Some id => Some id
                | None => ProcessPdfs.rmp_id f
                end))) /\
   (forall f, In f df ->
      exists m, In m (merge_input_csv df csv_df) /\
        set_rmp_id m (ProcessPdfs.rmp_id f)
          = set_course_code f (strip (course_code f)))).
Proof.
  split; [intros ->; reflexivity|].
  intro NE. unfold merge_input_csv.
  destruct csv_df as [|c0 cs]; [contradiction|].
  set (csv := c0 :: cs). split.
  - intros m Hm. apply in_map_iff in Hm. destruct Hm as [[row id] [<- Hp]].
    apply in_flat_map in Hp. destruct Hp as [row' [Hrow Hp]].
    apply in_map_iff in Hrow. destruct Hrow as [f [<- Hf]].
    apply merge_row_inv in Hp. simpl in Hp. destruct Hp as [-> Hid].
    exists f. split; [exact Hf|]. split; [reflexivity|].
    destruct Hid as [[-> N]|[c [Hc [E ->]]]].
    + left. split; [reflexivity | exact N].
    + right. exists c. split; [exact Hc|]. split; [exact E|].
      simpl. destruct (csv_rmp_id c); reflexivity.
  - intros f Hf.
    set (row := set_course_code f (strip (course_code f))).
    destruct (merge_row csv row) as [|[r id] ps] eqn:M;
      [exfalso; exact (merge_row_nonempty csv row M)|].
    assert (I : In (r, id) (merge_row csv row)) by (rewrite M; left; reflexivity).
    apply merge_row_inv in I. simpl in I. destruct I as [-> _].
    exists (set_rmp_id row (combine_first id (ProcessPdfs.rmp_id row))).
    split; [|reflexivity].
    apply in_map_iff. exists (row, id). split; [reflexivity|].
    apply in_flat_map. exists row. split.
    + apply in_map_iff. exists f. split; [reflexivity | exact Hf].
    + rewrite M. left. reflexivity.
Qed.

(** The sample merge: the one merged record carries the csv id 222. *)
Lemma merge_prefers_csv_id_witness :
  sample_csv <> [] /\
  exists f, In f [sample_fragment] /\
    set_rmp_id (set_rmp_id sample_fragment (Some 222%Z)) (ProcessPdfs.rmp_id f)
      = set_course_code f (strip (course_code f)).
Proof.
  assert (NE : sample_csv <> []) by discriminate.
  split; [exact NE|].
  destruct (proj2 (merge_prefers_csv_id [sample_fragment] sample_csv) NE) as [A _].
  destruct (A (set_rmp_id sample_fragment (Some 222%Z))) as [f [Hf [E _]]].
  - vm_compute. left. reflexivity.
  - exists f. split; [exact Hf | exact E].
Defined.

End ScrapeProofs.

(* ------------------------------------------------------------------ *)
(** ** Duplicate resolver *)
(* ------------------------------------------------------------------ *)
Module ResolverProofs.
Import Text Standardization.

Ltac order_cases :=
  repeat match goal with
  | p : (nat * nat * nat)%type |- _ => destruct p as [[? ?] ?]
  end;
  unfold order_le, order_lt in *;
  repeat match goal with
  | H : context [?a <? ?b] |- _ => destruct (Nat.ltb_spec a b)
  | |- context [?a <? ?b] => destruct (Nat.ltb_spec a b)
  | H : context [?a =? ?b] |- _ => destruct (Nat.eqb_spec a b)
  | |- context [?a =? ?b] => destruct (Nat.eqb_spec a b)
  end;
  simpl in *; try congruence; try lia.

Lemma order_le_refl (a : nat * nat * nat) : order_le a a = true.
Proof. order_cases. Qed.

Lemma order_le_trans (a b c : nat * nat * nat) :
  order_le a b = true -> order_le b c = true -> order_le a c = true.
Proof. intros H1 H2. order_cases. Qed.

Lemma order_le_total (a b : nat * nat * nat) :
  order_le a b = false -> order_le b a = true.
Proof. intros H. order_cases. Qed.

Lemma order_lt_asym (a b : nat * nat * nat) :
  order_lt a b = true -> order_lt b a = false.
Proof. intros H. order_cases. Qed.

Lemma order_lt_not_le (a b : nat * nat * nat) :
  order_lt a b = negb (order_le b a).
Proof. unfold order_le. rewrite negb_involutive. reflexivity. Qed.

Lemma filter_length_zero {A : Type} (p : A -> bool) (l : list A) :
  List.length (filter p l) = 0 <-> forall x, In x l -> p x = false.
Proof.
  induction l as [|a l IH]; simpl.
  - split; [intros _ x [] | reflexivity].
  - destruct (p a) eqn:E; simpl.
    + split; [discriminate|]. intro H. specialize (H a (or_introl eq_refl)). congruence.
    + rewrite IH. split.
      * intros H x [<-|Hx]; auto.
      * intros H x Hx. apply H. right. exact Hx.
Qed.

Lemma first_such {A : Type} (p : A -> bool) (l : list A) (x : A) :
  In x l -> p x = true ->
  exists l1 y l2, l = l1 ++ y :: l2 /\ p y = true /\ forall z, In z l1 -> p z = false.
Proof.
  induction l as [|a l IH]; [intros []|].
  intros Hx Px. destruct (p a) eqn:E.
  - exists [], a, l. split; [reflexivity|]. split; [exact E | intros z []].
  - destruct Hx as [->|Hx]; [congruence|].
    destruct (IH Hx Px) as [l1 [y [l2 [-> [Py N]]]]].
    exists (a :: l1), y, l2. split; [reflexivity|]. split; [exact Py|].
    intros z [<-|Hz]; auto.
Qed.

Section Resolver.

Variable TO_NUMBER : option Q -> option Q.

Local Arguments order_lt : simpl never.
Local Arguments order_le : simpl never.

Lemma same_partition_eq (x r : source_row) :
  same_partition x r = true <-> partition_key x = partition_key r.
Proof.
  unfold same_partition, key_eqb.
  destruct (key_eq_dec (partition_key x) (partition_key r)); split; congruence.
Qed.

(** A row is numbered 1 when no row of its partition before it sorts at
    or ahead of it and none after it sorts strictly ahead. *)
Definition leads (pre : list source_row) (r : source_row)
    (post : list source_row) : Prop :=
  (forall x, In x pre -> partition_key x = partition_key r ->
             order_lt (order_key TO_NUMBER r) (order_key TO_NUMBER x) = true) /\
  (forall x, In x post -> partition_key x = partition_key r ->
             order_le (order_key TO_NUMBER r) (order_key TO_NUMBER x) = true).

Lemma ROW_NUMBER_one (pre : list source_row) (r : source_row)
    (post : list source_row) :
  ROW_NUMBER TO_NUMBER pre r post = 1 <-> leads pre r post.
Proof.
  unfold ROW_NUMBER, leads.
  split.
  - intro H.
    assert (H1 : List.length (filter (fun x => same_partition x r
                    && order_le (order_key TO_NUMBER x) (order_key TO_NUMBER r)) pre) = 0) by lia.
    assert (H2 : List.length (filter (fun x => same_partition x r
                    && order_lt (order_key TO_NUMBER x) (order_key TO_NUMBER r)) post) = 0) by lia.
    rewrite filter_length_zero in H1, H2. split; intros x Hx K.
    + specialize (H1 x Hx). apply same_partition_eq in K. rewrite K in H1.
      simpl in H1. rewrite order_lt_not_le, H1. reflexivity.
    + specialize (H2 x Hx). apply same_partition_eq in K. rewrite K in H2.
      simpl in H2. unfold order_le. rewrite H2. reflexivity.
  - intros [H1 H2].
    assert (E1 : List.length (filter (fun x => same_partition x r
                    && order_le (order_key TO_NUMBER x) (order_key TO_NUMBER r)) pre) = 0).
    { apply filter_length_zero. intros x Hx.
      destruct (same_partition x r) eqn:S; [simpl | reflexivity].
      apply same_partition_eq in S. specialize (H1 x Hx S).
      rewrite order_lt_not_le in H1. apply negb_true_iff in H1. exact H1. }
    assert (E2 : List.length (filter (fun x => same_partition x r
                    && order_lt (order_key TO_NUMBER x) (order_key TO_NUMBER r)) post) = 0).
    { apply filter_length_zero. intros x Hx.
      destruct (same_partition x r) eqn:S; [simpl | reflexivity].
      apply same_partition_eq in S. specialize (H2 x Hx S).
      unfold order_le in H2. apply negb_true_iff in H2. exact H2. }
    rewrite E1, E2. reflexivity.
Qed.

Lemma number_rows_fst (pre rows : list source_row) :
  map fst (number_rows TO_NUMBER pre rows) = rows.
Proof.
  revert pre. induction rows as [|r post IH]; intro pre; simpl.
  - reflexivity.
  - rewrite IH. reflexivity.
Qed.

Lemma number_rows_In (pre rows : list source_row) (r : source_row) (k : nat) :
  In (r, k) (number_rows TO_NUMBER pre rows) <->
  exists l1 l2, rows = l1 ++ r :: l2 /\ k = ROW_NUMBER TO_NUMBER (pre ++ l1) r l2.
Proof.
  revert pre. induction rows as [|a post IH]; intro pre; simpl.
  - split; [intros [] | intros [l1 [l2 [E _]]]; destruct l1; discriminate].
  - split.
    + intros [E|H].
      * injection E as <- <-. exists [], post. rewrite app_nil_r. auto.
      * apply IH in H. destruct H as [l1 [l2 [-> ->]]].
        exists (a :: l1), l2. rewrite <- app_assoc. auto.
    + intros [l1 [l2 [E ->]]]. destruct l1 as [|b l1]; simpl in E.
      * injection E as <- <-. left. rewrite app_nil_r. reflexivity.
      * injection E as <- ->. right. apply IH. exists l1, l2.
        rewrite <- app_assoc. auto.
Qed.

(** The rows numbered 1 among [rows], the table continuing [pre]. *)
Definition ones (pre rows : list source_row) : list source_row :=
  map fst (filter (fun p : source_row * nat => snd p =? 1) (number_rows TO_NUMBER pre rows)).

Lemma ones_In (pre rows : list source_row) (r : source_row) :
  In r (ones pre rows) <->
  exists l1 l2, rows = l1 ++ r :: l2 /\ leads (pre ++ l1) r l2.
Proof.
  unfold ones. rewrite in_map_iff. split.
  - intros [[r' k] [E H]]. simpl in E. subst r'.
    apply filter_In in H. destruct H as [H K]. simpl in K.
    apply Nat.eqb_eq in K. subst k.
    apply number_rows_In in H. destruct H as [l1 [l2 [-> K]]].
    exists l1, l2. split; [reflexivity|]. apply ROW_NUMBER_one. auto.
  - intros [l1 [l2 [-> L]]]. exists (r, 1). split; [reflexivity|].
    apply filter_In. split; [|reflexivity].
    apply number_rows_In. exists l1, l2. split; [reflexivity|].
    symmetry. apply ROW_NUMBER_one. exact L.
Qed.

Lemma ones_cons (pre : list source_row) (r : source_row) (post : list source_row) :
  ones pre (r :: post) =
  if ROW_NUMBER TO_NUMBER pre r post =? 1
  then r :: ones (pre ++ [r]) post
  else ones (pre ++ [r]) post.
Proof.
  unfold ones. cbn [number_rows filter snd].
  destruct (ROW_NUMBER TO_NUMBER pre r post =? 1); reflexivity.
Qed.

Lemma ones_sub (pre rows : list source_row) (r : source_row) :
  In r (ones pre rows) -> In r rows.
Proof.
  intro H. apply ones_In in H. destruct H as [l1 [l2 [-> _]]].
  apply in_or_app. right. left. reflexivity.
Qed.

Lemma ones_keys_NoDup (pre rows : list source_row) :
  NoDup (map partition_key (ones pre rows)).
Proof.
  revert pre. induction rows as [|r post IH]; intro pre.
  - constructor.
  - rewrite ones_cons. destruct (Nat.eqb_spec (ROW_NUMBER TO_NUMBER pre r post) 1) as [E|_];
      [|apply IH].
    simpl. constructor; [|apply IH].
    intro H. apply in_map_iff in H. destruct H as [r' [K H]].
    apply ones_In in H. destruct H as [l1 [l2 [-> [B _]]]].
    apply ROW_NUMBER_one in E. destruct E as [_ A].
    assert (L1 : order_lt (order_key TO_NUMBER r') (order_key TO_NUMBER r) = true).
    { apply B; [|symmetry; exact K].
      apply in_or_app. left. apply in_or_app. right. left. reflexivity. }
    assert (L2 : order_le (order_key TO_NUMBER r) (order_key TO_NUMBER r') = true).
    { apply A; [|exact K]. apply in_or_app. right. left. reflexivity. }
    unfold order_le in L2. rewrite L1 in L2. discriminate.
Qed.

Lemma ones_all (pre rows : list source_row) :
  NoDup (map partition_key (pre ++ rows)) -> ones pre rows = rows.
Proof.
  revert pre. induction rows as [|r post IH]; intros pre N.
  - reflexivity.
  - rewrite ones_cons.
    assert (L : leads pre r post).
    { rewrite map_app in N. simpl in N.
      pose proof (NoDup_remove_2 _ _ _ N) as Nr.
      split; intros x Hx K; exfalso; apply Nr; rewrite <- K;
        apply in_or_app; [left | right]; apply in_map; exact Hx. }
    apply ROW_NUMBER_one in L. rewrite L. simpl. f_equal.
    apply IH. rewrite <- app_assoc. exact N.
Qed.

Lemma least_in_partition (k : key) (l : list source_row) :
  (forall x, In x l -> partition_key x <> k) \/
  (exists m, In m l /\ partition_key m = k /\
     forall x, In x l -> partition_key x = k ->
               order_le (order_key TO_NUMBER m) (order_key TO_NUMBER x) = true).
Proof.
  induction l as [|a l IH]; [left; intros x []|].
  destruct (key_eq_dec (partition_key a) k) as [Ka|Ka].
  - right. destruct IH as [N|[m [Hm [Km Lm]]]].
    + exists a. split; [left; reflexivity|]. split; [exact Ka|].
      intros x [<-|Hx] Kx; [apply order_le_refl | destruct (N x Hx Kx)].
    + destruct (order_le (order_key TO_NUMBER a) (order_key TO_NUMBER m)) eqn:C.
      * exists a. split; [left; reflexivity|]. split; [exact Ka|].
        intros x [<-|Hx] Kx; [apply order_le_refl|].
        eapply order_le_trans; [exact C | apply Lm; assumption].
      * exists m. split; [right; exact Hm|]. split; [exact Km|].
        intros x [<-|Hx] Kx; [apply order_le_total; exact C | apply Lm; assumption].
  - destruct IH as [N|[m [Hm [Km Lm]]]].
    + left. intros x [<-|Hx]; auto.
    + right. exists m. split; [right; exact Hm|]. split; [exact Km|].
      intros x [<-|Hx] Kx; [contradiction | apply Lm; assumption].
Qed.

Lemma ones_cover (rows : list source_row) (r : source_row) :
  In r rows ->
  exists r', In r' (ones [] rows) /\ partition_key r' = partition_key r.
Proof.
  intro Hr.
  destruct (least_in_partition (partition_key r) rows) as [N|[m [Hm [Km Lm]]]];
    [destruct (N r Hr eq_refl)|].
  set (p := fun x => same_partition x r
                     && order_le (order_key TO_NUMBER x) (order_key TO_NUMBER m)).
  assert (Pm : p m = true).
  { unfold p. rewrite (proj2 (same_partition_eq m r) Km), order_le_refl. reflexivity. }
  destruct (first_such p rows m Hm Pm) as [l1 [y [l2 [E [Py Nl]]]]].
  unfold p in Py. apply andb_true_iff in Py. destruct Py as [Ky Ly].
  apply same_partition_eq in Ky.
  exists y. split; [|exact Ky].
  apply ones_In. exists l1, l2. split; [exact E|]. split.
  - intros x Hx Kx. simpl in Hx. specialize (Nl x Hx). unfold p in Nl.
    rewrite (proj2 (same_partition_eq x r)) in Nl by congruence.
    cbn [andb] in Nl. rewrite order_lt_not_le. apply negb_true_iff.
    destruct (order_le (order_key TO_NUMBER x) (order_key TO_NUMBER y)) eqn:C;
      [|reflexivity].
    rewrite (order_le_trans _ _ _ C Ly) in Nl. discriminate.
  - intros x Hx Kx. eapply order_le_trans; [exact Ly|].
    apply Lm; [|congruence].
    rewrite E. apply in_or_app. right. right. exact Hx.
Qed.

(** The canonical record a surviving row becomes. *)
Definition canonical (r : source_row) : standardized_row :=
  select (normalize TO_NUMBER (r, 1)).

Lemma canonical_key (r : source_row) :
  standardized_key (canonical r) = partition_key r.
Proof. reflexivity. Qed.

Lemma standardized_as_rank_one (rows : list source_row) :
  WASHU_COURSES_STANDARDIZED TO_NUMBER rows
  = map canonical (rank_one_rows TO_NUMBER rows).
Proof.
  unfold WASHU_COURSES_STANDARDIZED, normalized_data, rank_one_rows.
  induction (number_rows TO_NUMBER [] rows) as [|[r k] l IH]; [reflexivity|].
  cbn [map filter normalize n_ROW_RANK snd].
  destruct (Nat.eqb_spec k 1) as [->|_]; cbn [map fst]; rewrite IH; reflexivity.
Qed.

Lemma rank_one_idempotent (rows : list source_row) :
  rank_one_rows TO_NUMBER (rank_one_rows TO_NUMBER rows) = rank_one_rows TO_NUMBER rows.
Proof.
  apply (ones_all []). apply ones_keys_NoDup.
Qed.

Hypothesis TO_NUMBER_null : forall x, TO_NUMBER x = None <-> x = None.

Lemma rated_sorts_first (r1 r2 : source_row) :
  OVERALL_RATING r1 <> None -> OVERALL_RATING r2 = None ->
  order_lt (order_key TO_NUMBER r1) (order_key TO_NUMBER r2) = true.
Proof.
  intros H1 H2. unfold order_key.
  rewrite H2, (proj2 (TO_NUMBER_null None) eq_refl).
  destruct (TO_NUMBER (OVERALL_RATING r1)) eqn:E;
    [|exfalso; apply H1; apply TO_NUMBER_null; exact E].
  reflexivity.
Qed.

Lemma survivor_rated (rows : list source_row) (r r' : source_row) :
  In r' (rank_one_rows TO_NUMBER rows) -> In r rows ->
  partition_key r = partition_key r' ->
  OVERALL_RATING r <> None -> OVERALL_RATING r' <> None.
Proof.
  intros Hs Hr K R U.
  apply ones_In in Hs. destruct Hs as [l1 [l2 [E [B A]]]]. simpl in B.
  pose proof (rated_sorts_first r r' R U) as L.
  rewrite E in Hr. apply in_app_or in Hr. destruct Hr as [Hr|[->|Hr]].
  - specialize (B r Hr K). rewrite (order_lt_asym _ _ L) in B. discriminate.
  - contradiction.
  - specialize (A r Hr K). unfold order_le in A. rewrite L in A. discriminate.
Qed.

Lemma pair_survivor (r1 r2 : source_row) :
  partition_key r1 = partition_key r2 ->
  OVERALL_RATING r1 <> None -> OVERALL_RATING r2 = None ->
  rank_one_rows TO_NUMBER [r1; r2] = [r1] /\
  rank_one_rows TO_NUMBER [r2; r1] = [r1].
Proof.
  intros K R U. pose proof (rated_sorts_first r1 r2 R U) as L.
  pose proof (order_lt_asym _ _ L) as L'.
  assert (Y1 : leads [] r1 [r2]).
  { split; [intros x []|]. intros x [<-|[]] _. unfold order_le. rewrite L'. reflexivity. }
  assert (N1 : ~ leads [r1] r2 []).
  { intros [B _]. specialize (B r1 (or_introl eq_refl) K). congruence. }
  assert (N2 : ~ leads [] r2 [r1]).
  { intros [_ A]. specialize (A r1 (or_introl eq_refl) K).
    unfold order_le in A. rewrite L in A. discriminate. }
  assert (Y2 : leads [r2] r1 []).
  { split; [|intros x []]. intros x [<-|[]] _. exact L. }
  rewrite <- ROW_NUMBER_one in Y1, N1, N2, Y2.
  unfold rank_one_rows. fold (ones [] [r1; r2]). fold (ones [] [r2; r1]).
  rewrite !ones_cons. cbn [app].
  rewrite Y1, Y2.
  destruct (Nat.eqb_spec (ROW_NUMBER TO_NUMBER [r1] r2 []) 1); [contradiction|].
  destruct (Nat.eqb_spec (ROW_NUMBER TO_NUMBER [] r2 [r1]) 1); [contradiction|].
  split; reflexivity.
Qed.

End Resolver.

Lemma TO_NUMBER_38_0_null (x : option Q) : TO_NUMBER_38_0 x = None <-> x = None.
Proof. destruct x; simpl; split; congruence. Qed.


(** C4, amended: the duplicate resolver returns exactly one canonical
    record per identity group, the identity key being (what follows the
    last blank of the blank-trimmed professor, blank-trimmed course code,
    blank-trimmed semester, blank-trimmed section), the blank being the
    space character alone, so that "Jane A Doe" and "Doe" fall together;
    a group that holds a record with an in-document rating is represented
    by a rated record, and of two records sharing a key, one rated and
    one not, the rated one is selected in either input order. *)
Theorem one_canonical_record_per_group
    (TO_NUMBER : option Q -> option Q)
    (TO_NUMBER_null : forall x, TO_NUMBER x = None <-> x = None)
    (rows : list source_row) :
  let out := WASHU_COURSES_STANDARDIZED TO_NUMBER rows in
  NoDup (map standardized_key out) /\
  (forall r, In r rows ->
     exists s, In s out /\ standardized_key s = partition_key r) /\
  (forall s, In s out ->
     exists r, In r rows /\ s = canonical TO_NUMBER r /\
       standardized_key s
       = (SPLIT_PART_last (TRIM (PROFESSOR r)), TRIM (COURSE_CODE r),
          TRIM (SEMESTER r), TRIM (SECTION r))) /\
  SPLIT_PART_last (TRIM (Some (lit " Jane A Doe ")))
    = SPLIT_PART_last (TRIM (Some (lit "Doe"))) /\
  (forall r s, In r rows -> OVERALL_RATING r <> None ->
     In s out -> standardized_key s = partition_key r ->
     s_OVERALL_RATING s <> None) /\
  (forall r1 r2, In r1 rows -> In r2 rows ->
     partition_key r1 = partition_key r2 ->
     OVERALL_RATING r1 <> None -> OVERALL_RATING r2 = None ->
     (forall x, In x rows -> partition_key x = partition_key r1 ->
                x = r1 \/ x = r2) ->
     forall s, In s out -> standardized_key s = partition_key r1 ->
               s = canonical TO_NUMBER r1) /\
  (forall r1 r2, partition_key r1 = partition_key r2 ->
     OVERALL_RATING r1 <> None -> OVERALL_RATING r2 = None ->
     WASHU_COURSES_STANDARDIZED TO_NUMBER [r1; r2] = [canonical TO_NUMBER r1] /\
     WASHU_COURSES_STANDARDIZED TO_NUMBER [r2; r1] = [canonical TO_NUMBER r1]).
Proof.
  intro out. subst out. rewrite standardized_as_rank_one.
  assert (Rated : forall r s, In r rows -> OVERALL_RATING r <> None ->
            In s (map (canonical TO_NUMBER) (rank_one_rows TO_NUMBER rows)) ->
            standardized_key s = partition_key r ->
            exists r', In r' (rank_one_rows TO_NUMBER rows) /\
                       s = canonical TO_NUMBER r' /\ OVERALL_RATING r' <> None).
  { intros r s Hr R Hs K. apply in_map_iff in Hs. destruct Hs as [r' [<- Hr']].
    exists r'. split; [exact Hr'|]. split; [reflexivity|].
    apply (survivor_rated TO_NUMBER TO_NUMBER_null rows r r' Hr' Hr); [|exact R].
    rewrite <- K. reflexivity. }
  split; [|split; [|split; [|split; [|split; [|split]]]]].
  - rewrite map_map.
    rewrite (map_ext _ partition_key) by (intro r; reflexivity).
    apply ones_keys_NoDup.
  - intros r Hr. destruct (ones_cover TO_NUMBER rows r Hr) as [r' [Hr' K]].
    exists (canonical TO_NUMBER r'). split; [|exact K].
    apply in_map. exact Hr'.
  - intros s Hs. apply in_map_iff in Hs. destruct Hs as [r [<- Hr]].
    exists r. split; [|split; reflexivity].
    apply (ones_sub TO_NUMBER [] rows). exact Hr.
  - vm_compute. reflexivity.
  - intros r s Hr R Hs K.
    destruct (Rated r s Hr R Hs K) as [r' [_ [-> R']]].
    simpl. intro E. apply R'. apply TO_NUMBER_null. exact E.
  - intros r1 r2 H1 H2 K R U Only s Hs Ks.
    destruct (Rated r1 s H1 R Hs Ks) as [r' [Hr' [-> R']]].
    f_equal.
    destruct (Only r' (ones_sub TO_NUMBER [] rows r' Hr') Ks) as [E|E];
      [exact E | subst r'; contradiction].
  - intros r1 r2 K R U. rewrite !standardized_as_rank_one.
    destruct (pair_survivor TO_NUMBER TO_NUMBER_null r1 r2 K R U) as [-> ->].
    split; reflexivity.
Qed.

Definition sample_row (prof : string) (rating : option Q) : source_row :=
  {| FILENAME := Some (lit "SP2025.L24.CS101.1.pdf");
     PROFESSOR := Some (lit prof);
     SEMESTER := Some (lit "SP 2025");
     COURSE_CODE := Some (lit "CS101");
     SECTION := Some (lit "1");
     COURSE_NAME := Some (lit "Intro");
     OVERALL_RATING := rating;
     RMP_ID := None;
     SCRAPED_OVERALL_RATING := None;
     WOULD_TAKE_AGAIN := None;
     DIFFICULTY := None;
     TAGS := None |}.

(** Two records with the key (Doe, CS101, SP 2025, 1), the unrated one
    first: one record comes out, and it is the rated one. *)
Lemma one_canonical_record_per_group_witness :
  (forall x, TO_NUMBER_38_0 x = None <-> x = None) /\
  NoDup (map standardized_key
           (WASHU_COURSES_STANDARDIZED TO_NUMBER_38_0
              [sample_row "Doe" None; sample_row "Jane A Doe" (Some 4.5%Q)])) /\
  map s_FULL_PROFESSOR_NAME
    (WASHU_COURSES_STANDARDIZED TO_NUMBER_38_0
       [sample_row "Doe" None; sample_row "Jane A Doe" (Some 4.5%Q)])
  = [Some (lit "Jane A Doe")].
Proof.
  split; [exact TO_NUMBER_38_0_null|].
  split; [|vm_compute; reflexivity].
  exact (proj1 (one_canonical_record_per_group TO_NUMBER_38_0 TO_NUMBER_38_0_null
                  [sample_row "Doe" None; sample_row "Jane A Doe" (Some 4.5%Q)])).
Defined.

(** The identity key in the claim's words, whitespace being any
    whitespace character: the professor's last whitespace-separated
    token, and the other three columns trimmed of whitespace. *)
Definition last_whitespace_token (x : option str) : option str :=
  option_map (fun s => rev (takewhile (fun c => negb (isspace c)) (rev s))) x.

Definition claimed_key (r : source_row) : key :=
  (last_whitespace_token (option_map strip (PROFESSOR r)),
   option_map strip (COURSE_CODE r),
   option_map strip (SEMESTER r),
   option_map strip (SECTION r)).

(** "Jane", a tab, "Doe". *)
Definition tabbed_name : str := lit "Jane" ++ [ascii_of_nat 9] ++ lit "Doe".

Definition tabbed_row : source_row :=
  {| FILENAME := Some (lit "SP2025.L24.CS101.1.pdf");
     PROFESSOR := Some tabbed_name;
     SEMESTER := Some (lit "SP 2025");
     COURSE_CODE := Some (lit "CS101");
     SECTION := Some (lit "1");
     COURSE_NAME := Some (lit "Intro");
     OVERALL_RATING := Some 4.5%Q;
     RMP_ID := None;
     SCRAPED_OVERALL_RATING := None;
     WOULD_TAKE_AGAIN := None;
     DIFFICULTY := None;
     TAGS := None |}.

(** C4, counterexample: a professor written with a tab between the names
    has the last whitespace-separated token Doe, so the record shares its
    claimed identity key with the record of "Doe"; yet the resolver keeps
    both, under two different keys, because the SQL trims and splits at
    the space character only. *)
Lemma tab_in_name_splits_the_group :
  claimed_key tabbed_row = claimed_key (sample_row "Doe" None) /\
  claimed_key tabbed_row
  = (Some (lit "Doe"), Some (lit "CS101"), Some (lit "SP 2025"), Some (lit "1")) /\
  List.length (WASHU_COURSES_STANDARDIZED TO_NUMBER_38_0
                 [tabbed_row; sample_row "Doe" None]) = 2 /\
  map s_PROFESSOR_NAME
    (WASHU_COURSES_STANDARDIZED TO_NUMBER_38_0 [tabbed_row; sample_row "Doe" None])
  = [Some tabbed_name; Some (lit "Doe")].
Proof. repeat split; vm_compute; reflexivity. Qed.

(** C7: the duplicate resolver is idempotent.  A table that already holds
    one record per identity group is returned unchanged, row for row; in
    particular the resolver applied to its own output returns that output,
    and standardizing the resolved table gives the same output table as
    standardizing the original. *)
Theorem resolver_idempotent (TO_NUMBER : option Q -> option Q)
    (rows : list source_row) :
  (NoDup (map partition_key rows) -> rank_one_rows TO_NUMBER rows = rows) /\
  NoDup (map partition_key (rank_one_rows TO_NUMBER rows)) /\
  rank_one_rows TO_NUMBER (rank_one_rows TO_NUMBER rows)
    = rank_one_rows TO_NUMBER rows /\
  WASHU_COURSES_STANDARDIZED TO_NUMBER (rank_one_rows TO_NUMBER rows)
    = WASHU_COURSES_STANDARDIZED TO_NUMBER rows.
Proof.
  split; [|split; [|split]].
  - intro N. apply (ones_all TO_NUMBER []). exact N.
  - apply ones_keys_NoDup.
  - apply rank_one_idempotent.
  - rewrite !standardized_as_rank_one, rank_one_idempotent. reflexivity.
Qed.

Definition other_section (r : source_row) : source_row :=
  {| FILENAME := FILENAME r;
     PROFESSOR := PROFESSOR r;
     SEMESTER := SEMESTER r;
     COURSE_CODE := COURSE_CODE r;
     SECTION := Some (lit "2");
     COURSE_NAME := COURSE_NAME r;
     OVERALL_RATING := OVERALL_RATING r;
     RMP_ID := RMP_ID r;
     SCRAPED_OVERALL_RATING := SCRAPED_OVERALL_RATING r;
     WOULD_TAKE_AGAIN := WOULD_TAKE_AGAIN r;
     DIFFICULTY := DIFFICULTY r;
     TAGS := TAGS r |}.

Definition resolved_rows : list source_row :=
  [sample_row "Jane A Doe" (Some 4.5%Q); other_section (sample_row "Doe" None)].

Lemma resolved_rows_keys : NoDup (map partition_key resolved_rows).
Proof.
  vm_compute. constructor.
  - intros [H|[]]. discriminate H.
  - constructor; [intros [] | constructor].
Qed.

(** A table with one record in each of two groups stays as it is. *)
Lemma resolver_idempotent_witness :
  NoDup (map partition_key resolved_rows) /\
  rank_one_rows TO_NUMBER_38_0 resolved_rows = resolved_rows.
Proof.
  split; [exact resolved_rows_keys|].
  exact (proj1 (resolver_idempotent TO_NUMBER_38_0 resolved_rows) resolved_rows_keys).
Defined.

End ResolverProofs.

(* ------------------------------------------------------------------ *)
(** ** Scale transformer on the table *)
(* ------------------------------------------------------------------ *)
Module ScaleTableProofs.
Import Text Standardization ResolverProofs ScaleProofs.










End ScaleTableProofs.

(* ------------------------------------------------------------------ *)
(** ** The pattern matcher *)
(* ------------------------------------------------------------------ *)
Module RegexFacts.
Import Text Regex.

Lemma starts_with_app (l s : str) :
  starts_with l s = true <-> exists rest, s = l ++ rest.
Proof.
  revert s. induction l as [|a l IH]; intro s; simpl.
  - split; [intros _; exists s; reflexivity | reflexivity].
  - destruct s as [|b s].
    + split; [discriminate | intros [rest E]; discriminate].
    + rewrite andb_true_iff, IH. split.
      * intros [E [rest ->]]. apply Ascii.eqb_eq in E. subst b.
        exists rest. reflexivity.
      * intros [rest E]. injection E as -> ->. split.
        -- apply Ascii.eqb_refl.
        -- exists rest. reflexivity.
Qed.

Lemma skipn_app_exact (l rest : str) : skipn (List.length l) (l ++ rest) = rest.
Proof. induction l as [|a l IH]; simpl; [reflexivity | exact IH]. Qed.

Lemma firstn_app_exact (l rest : str) : firstn (List.length l) (l ++ rest) = l.
Proof. induction l as [|a l IH]; simpl; [reflexivity | rewrite IH; reflexivity]. Qed.

Lemma span_firstn (c : charset) (s : str) (n : nat) :
  n <= span c s ->
  forallb c (firstn n s) = true /\ List.length (firstn n s) = n.
Proof.
  revert n. induction s as [|x s IH]; intros n H; simpl in H.
  - assert (n = 0) by lia. subst n. split; reflexivity.
  - destruct n as [|n]; [split; reflexivity|].
    destruct (c x) eqn:E; [|lia].
    destruct (IH n) as [F L]; [lia|].
    simpl. rewrite E, F, L. split; reflexivity.
Qed.

Lemma span_app (c : charset) (t rest : str) :
  forallb c t = true -> List.length t <= span c (t ++ rest).
Proof.
  induction t as [|x t IH]; simpl; [lia|].
  intro H. apply andb_true_iff in H. destruct H as [E F].
  rewrite E. specialize (IH F). lia.
Qed.

Lemma counts_In (c : charset) (lo : nat) (hi : option nat) (g : bool) (s : str)
    (n : nat) :
  In n (counts c lo hi g s) <->
  lo <= n /\ n <= span c s /\ (forall h, hi = Some h -> n <= h).
Proof.
  unfold counts.
  set (m := match hi with Some h => Nat.min h (span c s) | None => span c s end).
  assert (E : In n (if g then rev (seq lo (S m - lo)) else seq lo (S m - lo))
               <-> lo <= n <= m).
  { destruct g; [rewrite <- in_rev|]; rewrite in_seq; lia. }
  rewrite E. subst m. destruct hi as [h|].
  - split.
    + intros [A B]. repeat split; try lia. intros h' H. injection H as <-. lia.
    + intros [A [B C]]. specialize (C h eq_refl). lia.
  - split.
    + intros [A B]. repeat split; try lia. intros h' H. discriminate.
    + intros [A [B _]]. lia.
Qed.

(** Every partial match the matcher lists splits the subject and is a
    derivation of the pattern. *)
Lemma run_sound (r : re) :
  forall (s t : str) (g : list str) (rest : str),
    In (t, g, rest) (run r s) -> s = t ++ rest /\ derives r t g.
Proof.
  induction r as [l | c | c lo hi gr | a IHa b IHb | a IHa b IHb | a IHa];
    intros s t g rest H; simpl in H.
  - destruct (starts_with l s) eqn:E; [|destruct H].
    destruct H as [H|[]]. injection H as <- <- <-.
    apply starts_with_app in E. destruct E as [rest ->].
    rewrite skipn_app_exact. split; [reflexivity | constructor].
  - destruct s as [|x s]; [destruct H|].
    destruct (c x) eqn:E; [|destruct H].
    destruct H as [H|[]]. injection H as <- <- <-.
    split; [reflexivity | constructor; exact E].
  - apply in_map_iff in H. destruct H as [n [E H]].
    injection E as <- <- <-.
    apply counts_In in H. destruct H as [A [B C]].
    destruct (span_firstn c s n B) as [F L].
    split; [symmetry; apply firstn_skipn|].
    constructor; [exact F | lia | intros h Hh; rewrite L; auto].
  - apply in_flat_map in H. destruct H as [[[ta ga] ra] [Ha H]].
    apply in_map_iff in H. destruct H as [[[tb gb] rb] [E Hb]].
    injection E as <- <- <-.
    destruct (IHa _ _ _ _ Ha) as [-> Da].
    destruct (IHb _ _ _ _ Hb) as [-> Db].
    split; [rewrite app_assoc; reflexivity | constructor; assumption].
  - apply in_app_or in H. destruct H as [H|H].
    + destruct (IHa _ _ _ _ H) as [-> D]. split; [reflexivity|].
      apply D_AltL. exact D.
    + destruct (IHb _ _ _ _ H) as [-> D]. split; [reflexivity|].
      apply D_AltR. exact D.
  - apply in_map_iff in H. destruct H as [[[t' g'] r'] [E H]].
    injection E as <- <- <-.
    destruct (IHa _ _ _ _ H) as [-> D]. split; [reflexivity|].
    constructor. exact D.
Qed.

(** Every derivation of the pattern on a prefix of the subject is among
    the partial matches listed. *)
Lemma run_complete (r : re) (t : str) (g : list str) :
  derives r t g -> forall rest, In (t, g, rest) (run r (t ++ rest)).
Proof.
  induction 1 as [l | c x E | c lo hi gr t F L U
                  | a b ta ga tb gb Da IHa Db IHb
                  | a b t g D IH | a b t g D IH | a t g D IH]; intro rest; simpl.
  - assert (S : starts_with l (l ++ rest) = true)
      by (apply starts_with_app; exists rest; reflexivity).
    rewrite S, skipn_app_exact. left. reflexivity.
  - rewrite E. left. reflexivity.
  - apply in_map_iff. exists (List.length t). split.
    + rewrite firstn_app_exact, skipn_app_exact. reflexivity.
    + apply counts_In. split; [exact L|]. split; [apply span_app; exact F | exact U].
  - apply in_flat_map. exists (ta, ga, tb ++ rest). split.
    + rewrite <- app_assoc. apply IHa.
    + apply in_map_iff. exists (tb, gb, rest). split; [reflexivity | apply IHb].
  - apply in_or_app. left. apply IH.
  - apply in_or_app. right. apply IH.
  - apply in_map_iff. exists (t, g, rest). split; [reflexivity | apply IH].
Qed.

Lemma first_match_Some (r : re) (s : str) (m : match_obj) :
  first_match r s = Some m ->
  exists rest, s = whole m ++ rest /\ derives r (whole m) (groups m).
Proof.
  unfold first_match. destruct (run r s) as [|[[t g] rest] l] eqn:E; [discriminate|].
  intro H. injection H as <-. simpl.
  destruct (run_sound r s t g rest) as [-> D]; [rewrite E; left; reflexivity|].
  exists rest. split; [reflexivity | exact D].
Qed.

Lemma first_match_None (r : re) (s : str) :
  first_match r s = None ->
  forall t g rest, s = t ++ rest -> ~ derives r t g.
Proof.
  unfold first_match. destruct (run r s) as [|[[t0 g0] r0] l] eqn:E; [|discriminate].
  intros _ t g rest -> D.
  pose proof (run_complete r t g D rest) as H. rewrite E in H. exact H.
Qed.

Lemma re_search_Some (r : re) (s : str) (m : match_obj) :
  re_search r s = Some m ->
  exists pre rest, s = pre ++ whole m ++ rest /\ derives r (whole m) (groups m).
Proof.
  induction s as [|x s IH]; simpl.
  - destruct (first_match r []) eqn:E; [|discriminate].
    intro H. injection H as ->.
    destruct (first_match_Some _ _ _ E) as [rest [S D]].
    exists [], rest. split; [exact S | exact D].
  - destruct (first_match r (x :: s)) eqn:E.
    + intro H. injection H as ->.
      destruct (first_match_Some _ _ _ E) as [rest [S D]].
      exists [], rest. split; [exact S | exact D].
    + intro H. destruct (IH H) as [pre [rest [-> D]]].
      exists (x :: pre), rest. split; [reflexivity | exact D].
Qed.

Lemma re_search_None (r : re) (s : str) :
  re_search r s = None ->
  forall pre t g rest, s = pre ++ t ++ rest -> ~ derives r t g.
Proof.
  induction s as [|x s IH]; simpl.
  - destruct (first_match r []) eqn:E; [discriminate|].
    intros _ pre t g rest S.
    destruct pre as [|y pre]; [|discriminate].
    exact (first_match_None _ _ E t g rest S).
  - destruct (first_match r (x :: s)) eqn:E; [discriminate|].
    intros H pre t g rest S.
    destruct pre as [|y pre].
    + exact (first_match_None _ _ E t g rest S).
    + injection S as _ S. exact (IH H pre t g rest S).
Qed.

End RegexFacts.

(* ------------------------------------------------------------------ *)
(** ** Filename / text field extractor *)
(* ------------------------------------------------------------------ *)
Module ExtractorProofs.
Import Text Regex Exn ProcessPdfs RegexFacts.
Local Open Scope exn_scope.

Ltac ascii_cases c :=
  destruct c as [[] [] [] [] [] [] [] []]; vm_compute; intros;
  try discriminate; try reflexivity.

Lemma digit_not_space (c : ascii) : isdigit c = true -> isspace c = false.
Proof. ascii_cases c. Qed.

Lemma digit_not_dot (c : ascii) : isdigit c = true -> is_char "."%char c = false.
Proof. ascii_cases c. Qed.

Lemma digit_not_minus (c : ascii) : isdigit c = true -> is_char "-"%char c = false.
Proof. ascii_cases c. Qed.

Lemma digit_not_plus (c : ascii) : isdigit c = true -> is_char "+"%char c = false.
Proof. ascii_cases c. Qed.

Ltac inv_derives :=
  repeat match goal with
  | H : derives (Cat _ _) _ _ |- _ => inversion H; subst; clear H
  | H : derives (Grp _) _ _ |- _ => inversion H; subst; clear H
  | H : derives (Alt _ _) _ _ |- _ => inversion H; subst; clear H
  | H : derives (Lit _) _ _ |- _ => inversion H; subst; clear H
  | H : derives (Rep _ _ _ _) _ _ |- _ => inversion H; subst; clear H
  | H : derives (Cls _) _ _ |- _ => inversion H; subst; clear H
  end.

(** *** What each pattern captures *)

Lemma prof_re_groups (t : str) (g : list str) :
  derives prof_re t g ->
  exists x, g = [x] /\ t = lit "$$" ++ x ++ lit "$$".
Proof.
  unfold prof_re. intro D. inv_derives. eexists. split; reflexivity.
Qed.

Definition is_season (code : str) : Prop := code = lit "SP" \/ code = lit "FL".

Definition is_year (year : str) : Prop :=
  List.length year = 4 /\ forallb isdigit year = true.

Lemma sem_re_groups (t : str) (g : list str) :
  derives sem_re t g <->
  exists code year, g = [code; year] /\ t = code ++ year /\
                    is_season code /\ is_year year.
Proof.
  unfold sem_re, is_season, is_year. split.
  - intro D. inv_derives.
    + exists (lit "SP"), tb. repeat split; auto.
      match goal with H : forall h, Some 4 = Some h -> _ |- _ =>
        specialize (H 4 eq_refl) end. lia.
    + exists (lit "FL"), tb. repeat split; auto.
      match goal with H : forall h, Some 4 = Some h -> _ |- _ =>
        specialize (H 4 eq_refl) end. lia.
  - intros [code [year [-> [-> [S [L F]]]]]].
    apply (D_Cat _ _ code [code] year [year]).
    + constructor. destruct S as [-> | ->]; [apply D_AltL | apply D_AltR]; constructor.
    + constructor. constructor; [exact F | lia |].
      intros h H. injection H as <-. lia.
Qed.

Definition is_anchor (a : str) : Prop := a = lit "L24" \/ a = lit "E81".

Definition nonempty_of (c : ascii -> bool) (s : str) : Prop :=
  s <> [] /\ forallb c s = true.

Lemma length_pos_nonempty (s : str) : 1 <= List.length s -> s <> [].
Proof. destruct s; simpl; [lia | discriminate]. Qed.

Lemma crs_re_groups (t : str) (g : list str) :
  derives crs_re t g ->
  exists a sep1 cc sep2 sec,
    g = [a; cc; sec] /\ t = a ++ sep1 ++ cc ++ sep2 ++ sec /\
    is_anchor a /\ nonempty_of issep sep1 /\ nonempty_of isword cc /\
    nonempty_of issep sep2 /\ nonempty_of isdigit sec.
Proof.
  unfold crs_re, is_anchor, nonempty_of. intro D. inv_derives.
  - exists (lit "L24"). do 4 eexists.
    repeat split; eauto using length_pos_nonempty.
  - exists (lit "E81"). do 4 eexists.
    repeat split; eauto using length_pos_nonempty.
Qed.

Lemma rmp_re_groups (t : str) (g : list str) :
  derives rmp_re t g -> exists d, g = [d] /\ nonempty_of isdigit d.
Proof.
  unfold rmp_re, nonempty_of. intro D. inv_derives.
  eexists. repeat split; eauto using length_pos_nonempty.
Qed.

Lemma name_re_groups (t : str) (g : list str) :
  derives name_re t g -> exists x, g = [x].
Proof.
  unfold name_re. intro D. inv_derives. eexists. reflexivity.
Qed.

Lemma rate_re_groups (t : str) (g : list str) :
  derives rate_re t g ->
  exists d1 d2, g = [d1 ++ lit "." ++ d2] /\
                nonempty_of isdigit d1 /\ nonempty_of isdigit d2.
Proof.
  unfold rate_re, nonempty_of. intro D. inv_derives.
  do 2 eexists. repeat split; eauto using length_pos_nonempty.
Qed.

(** *** The conversions succeed on what the patterns capture *)

Lemma hd_class (c : ascii -> bool) (s : str) (d : ascii) :
  nonempty_of c s -> c (hd d s) = true.
Proof.
  intros [N F]. destruct s as [|x s]; [contradiction|].
  simpl in *. apply andb_true_iff in F. tauto.
Qed.

Lemma rev_nonempty_of (c : ascii -> bool) (s : str) :
  nonempty_of c s -> nonempty_of c (rev s).
Proof.
  intros [N F]. split.
  - intro E. apply N. rewrite <- (rev_involutive s), E. reflexivity.
  - apply forallb_forall. intros x Hx. apply in_rev in Hx.
    rewrite forallb_forall in F. auto.
Qed.

Lemma strip_id (s : str) :
  s <> [] -> isspace (hd " "%char s) = false ->
  isspace (hd " "%char (rev s)) = false -> strip s = s.
Proof.
  intros N H1 H2. unfold strip, lstrip, rstrip.
  destruct s as [|x s]; [contradiction|]. simpl in H1.
  cbn [dropwhile]. rewrite H1.
  destruct (rev (x :: s)) as [|y r] eqn:E.
  - apply (f_equal (@List.length ascii)) in E. rewrite length_rev in E. discriminate.
  - simpl in H2. cbn [dropwhile]. rewrite H2, <- E. apply rev_involutive.
Qed.

Lemma split_dot_digits (d1 d2 : str) :
  forallb isdigit d1 = true ->
  split_dot (d1 ++ lit "." ++ d2) = (d1, Some d2).
Proof.
  induction d1 as [|x d1 IH]; intro F; [reflexivity|].
  simpl in F. apply andb_true_iff in F. destruct F as [Fx F].
  cbn [app split_dot]. rewrite (digit_not_dot x Fx), (IH F). reflexivity.
Qed.

Lemma parse_decimal_total (d1 d2 : str) :
  nonempty_of isdigit d1 -> nonempty_of isdigit d2 ->
  exists q, parse_decimal (d1 ++ lit "." ++ d2) = Some q.
Proof.
  intros H1 H2. unfold parse_decimal.
  assert (S : strip (d1 ++ lit "." ++ d2) = d1 ++ lit "." ++ d2).
  { apply strip_id.
    - destruct d1; [destruct H1; contradiction | discriminate].
    - apply digit_not_space. destruct d1 as [|x d1]; [destruct H1; contradiction|].
      exact (hd_class isdigit (x :: d1) " "%char H1).
    - apply digit_not_space. rewrite rev_app_distr, rev_app_distr.
      pose proof (rev_nonempty_of isdigit d2 H2) as R.
      destruct (rev d2) as [|y r]; [destruct R; contradiction|].
      exact (hd_class isdigit (y :: r) " "%char R). }
  rewrite S.
  destruct d1 as [|x d1]; [destruct H1; contradiction|].
  pose proof (hd_class isdigit (x :: d1) " "%char H1) as Dx. simpl in Dx.
  cbn [app]. rewrite (digit_not_minus x Dx), (digit_not_plus x Dx).
  unfold unsigned_decimal.
  change (x :: d1 ++ lit "." ++ d2) with ((x :: d1) ++ lit "." ++ d2).
  rewrite (split_dot_digits (x :: d1) d2 (proj2 H1)).
  rewrite (proj2 H1), (proj2 H2). cbn [andb]. eexists. reflexivity.
Qed.


Lemma python_int_Some (d : str) (n : Z) :
  python_int d = Some n ->
  digits_value d = Some n /\ List.length d <= max_str_digits.
Proof.
  unfold python_int.
  destruct (List.length d <=? max_str_digits) eqn:L; [|discriminate].
  apply Nat.leb_le in L. auto.
Qed.


Lemma digits_not_Unknown (d : str) : forallb isdigit d = true -> d <> Unknown.
Proof.
  intros F E. subst d. vm_compute in F. discriminate.
Qed.

(** *** The fields, one by one *)

Definition group_or_empty (m : match_obj) (k : nat) : str := nth (k - 1) (groups m) [].

Definition professor_of (s : str) : str :=
  match re_search prof_re s with
  | Some m => group_or_empty m 1
  | None => Unknown
  end.

Definition semester_of (s : str) : str :=
  match re_match sem_re s with
  | Some m => group_or_empty m 1 ++ lit " " ++ group_or_empty m 2
  | None => Unknown
  end.

Definition course_of (s : str) : str * str :=
  match re_search crs_re s with
  | Some m => (group_or_empty m 2, group_or_empty m 3)
  | None => (Unknown, Unknown)
  end.

(** The id, or the ValueError of [int] on the captured digits. *)
Definition rmp_id_of (s : str) : result (option Z) :=
  match re_search rmp_re s with
  | Some m =>
      match python_int (group_or_empty m 1) with
      | Some n => Ok (Some n)
      | None => Raise ValueError
      end
  | None => Ok None
  end.

Definition course_name_of (text : str) : str :=
  match re_search name_re text with
  | Some m => strip (group_or_empty m 1)
  | None => Unknown
  end.

Definition overall_rating_of (text : str) : option Q :=
  match re_search rate_re text with
  | Some m => parse_decimal (group_or_empty m 1)
  | None => None
  end.

Lemma professor_block (s : str) :
  match re_search prof_re s with
  | Some prof_m => m_group prof_m 1
  | None => Ok Unknown
  end = Ok (professor_of s).
Proof.
  unfold professor_of. destruct (re_search prof_re s) as [m|] eqn:E; [|reflexivity].
  destruct (re_search_Some _ _ _ E) as [pre [rest [_ D]]].
  destruct (prof_re_groups _ _ D) as [x [G _]].
  unfold m_group, group, group_or_empty. rewrite G. reflexivity.
Qed.

Lemma semester_block (s : str) :
  match re_match sem_re s with
  | Some sem_m =>
      g1 <- m_group sem_m 1 ;;
      g2 <- m_group sem_m 2 ;;
      Ok (g1 ++ lit " " ++ g2)
  | None => Ok Unknown
  end = Ok (semester_of s).
Proof.
  unfold semester_of. destruct (re_match sem_re s) as [m|] eqn:E; [|reflexivity].
  destruct (first_match_Some _ _ _ E) as [rest [_ D]].
  apply sem_re_groups in D. destruct D as [code [year [G _]]].
  unfold m_group, group, group_or_empty. rewrite G. reflexivity.
Qed.

Lemma course_block (s : str) :
  match re_search crs_re s with
  | Some crs_m =>
      g2 <- m_group crs_m 2 ;;
      g3 <- m_group crs_m 3 ;;
      Ok (g2, g3)
  | None => Ok (Unknown, Unknown)
  end = Ok (course_of s).
Proof.
  unfold course_of. destruct (re_search crs_re s) as [m|] eqn:E; [|reflexivity].
  destruct (re_search_Some _ _ _ E) as [pre [rest [_ D]]].
  destruct (crs_re_groups _ _ D) as [a [s1 [cc [s2 [sec [G _]]]]]].
  unfold m_group, group, group_or_empty. rewrite G. reflexivity.
Qed.

Lemma rmp_id_block (s : str) :
  match re_search rmp_re s with
  | Some rmp_m =>
      g1 <- m_group rmp_m 1 ;;
      n <- or_raise ValueError (python_int g1) ;;
      Ok (Some n)
  | None => Ok None
  end = rmp_id_of s.
Proof.
  unfold rmp_id_of. destruct (re_search rmp_re s) as [m|] eqn:E; [|reflexivity].
  destruct (re_search_Some _ _ _ E) as [pre [rest [_ D]]].
  destruct (rmp_re_groups _ _ D) as [d [G N]].
  unfold m_group, group, group_or_empty. rewrite G. cbn [Nat.sub nth_error nth or_raise bind].
  destruct (python_int d); reflexivity.
Qed.

Lemma course_name_block (text : str) :
  match re_search name_re text with
  | Some name_m =>
      g1 <- m_group name_m 1 ;;
      Ok (strip g1)
  | None => Ok Unknown
  end = Ok (course_name_of text).
Proof.
  unfold course_name_of. destruct (re_search name_re text) as [m|] eqn:E; [|reflexivity].
  destruct (re_search_Some _ _ _ E) as [pre [rest [_ D]]].
  destruct (name_re_groups _ _ D) as [x G].
  unfold m_group, group, group_or_empty. rewrite G. reflexivity.
Qed.

Lemma overall_rating_block (text : str) :
  match re_search rate_re text with
  | Some rate_m =>
      g1 <- m_group rate_m 1 ;;
      x <- or_raise ValueError (parse_decimal g1) ;;
      Ok (Some x)
  | None => Ok None
  end = Ok (overall_rating_of text).
Proof.
  unfold overall_rating_of. destruct (re_search rate_re text) as [m|] eqn:E; [|reflexivity].
  destruct (re_search_Some _ _ _ E) as [pre [rest [_ D]]].
  destruct (rate_re_groups _ _ D) as [d1 [d2 [G [N1 N2]]]].
  destruct (parse_decimal_total d1 d2 N1 N2) as [q P].
  unfold m_group, group, group_or_empty. rewrite G. cbn [Nat.sub nth_error nth or_raise bind].
  rewrite P. reflexivity.
Qed.

(** The fragment made of the fields above, around an id. *)
Definition fragment_of (pdfplumber_open : list Byte.byte -> pdf)
    (file_bytes : list Byte.byte) (fn : str) (id : option Z) : CourseFragment :=
  {| filename := strip fn;
     professor := professor_of (strip fn);
     semester := semester_of (strip fn);
     course_code := fst (course_of (strip fn));
     section := snd (course_of (strip fn));
     course_name := course_name_of (pdf_text pdfplumber_open file_bytes);
     overall_rating := overall_rating_of (pdf_text pdfplumber_open file_bytes);
     rmp_id := id |}.

(** The only step of the extractor that can raise is [int] on the id. *)
Lemma extract_cases (pdfplumber_open : list Byte.byte -> pdf)
    (file_bytes : list Byte.byte) (fn : str) :
  extract_course_info_from_bytes pdfplumber_open file_bytes fn
  = match rmp_id_of (strip fn) with
    | Ok id => Ok (fragment_of pdfplumber_open file_bytes fn id)
    | Raise e => Raise e
    end.
Proof.
  unfold extract_course_info_from_bytes, fragment_of. cbv zeta.
  rewrite professor_block. cbn [bind].
  rewrite semester_block. cbn [bind].
  rewrite course_block. cbn [bind].
  destruct (course_of (strip fn)) as [cc sec].
  rewrite rmp_id_block.
  destruct (rmp_id_of (strip fn)) as [id|e]; cbn [bind]; [|reflexivity].
  rewrite course_name_block. cbn [bind].
  rewrite overall_rating_block. cbn [bind].
  reflexivity.
Qed.

Lemma extract_Ok_inv (pdfplumber_open : list Byte.byte -> pdf)
    (file_bytes : list Byte.byte) (fn : str) (f : CourseFragment) :
  extract_course_info_from_bytes pdfplumber_open file_bytes fn = Ok f ->
  exists id, rmp_id_of (strip fn) = Ok id /\
             f = fragment_of pdfplumber_open file_bytes fn id.
Proof.
  rewrite extract_cases. destruct (rmp_id_of (strip fn)) as [id|e]; [|discriminate].
  intro H. injection H as <-. exists id. split; reflexivity.
Qed.


(** *** Semester *)

(** The string starts with a season code immediately followed by a
    four-digit year. *)
Definition season_year_prefix (s : str) : Prop :=
  exists code year rest, is_season code /\ is_year year /\ s = code ++ year ++ rest.

Lemma app_eq_length (a a' b b' : str) :
  List.length a = List.length a' -> a ++ b = a' ++ b' -> a = a' /\ b = b'.
Proof.
  revert a'. induction a as [|x a IH]; intros [|y a'] L E; simpl in *;
    try discriminate.
  - split; [reflexivity | exact E].
  - injection E as -> E. injection L as L.
    destruct (IH a' L E) as [-> ->]. split; reflexivity.
Qed.

Lemma season_length (code : str) : is_season code -> List.length code = 2.
Proof. intros [-> | ->]; reflexivity. Qed.

Lemma semester_of_spec (s : str) :
  (forall code year rest, is_season code -> is_year year ->
     s = code ++ year ++ rest -> semester_of s = code ++ lit " " ++ year) /\
  (~ season_year_prefix s -> semester_of s = Unknown).
Proof.
  unfold semester_of, re_match.
  destruct (first_match sem_re s) as [m|] eqn:E.
  - destruct (first_match_Some _ _ _ E) as [rest0 [S D]].
    apply sem_re_groups in D. destruct D as [code' [year' [G [W [C' Y']]]]].
    unfold group_or_empty. rewrite G. cbn [Nat.sub nth]. split.
    + intros code year rest C Y S'.
      rewrite W, <- app_assoc in S. rewrite S in S'.
      destruct (app_eq_length code' code (year' ++ rest0) (year ++ rest))
        as [EC S2]; [|exact S'|].
      { rewrite (season_length _ C), (season_length _ C'). reflexivity. }
      destruct (app_eq_length year' year rest0 rest) as [EY _]; [|exact S2|].
      { destruct Y as [LY _]. destruct Y' as [LY' _]. congruence. }
      rewrite EC, EY. reflexivity.
    + intro N. exfalso. apply N. exists code', year', rest0.
      rewrite W, <- app_assoc in S. auto.
  - split; [|reflexivity].
    intros code year rest C Y S. exfalso.
    apply (first_match_None _ _ E (code ++ year) [code; year] rest).
    + rewrite <- app_assoc. exact S.
    + apply sem_re_groups. exists code, year. auto.
Qed.

Lemma dropwhile_app_stop (p : ascii -> bool) (x y : str) (c : ascii) :
  p c = false -> dropwhile p (x ++ c :: y) = dropwhile p x ++ c :: y.
Proof.
  intro H. induction x as [|a x IH]; simpl.
  - rewrite H. reflexivity.
  - destruct (p a); [exact IH | reflexivity].
Qed.

Lemma strip_keeps_prefix (a rest : str) :
  a <> [] -> forallb (fun c => negb (isspace c)) a = true ->
  exists rest', strip (a ++ rest) = a ++ rest'.
Proof.
  intros N F. unfold strip, lstrip, rstrip.
  destruct a as [|x a]; [contradiction|].
  assert (Fx : isspace x = false).
  { simpl in F. apply andb_true_iff in F. destruct F as [F _].
    apply negb_true_iff in F. exact F. }
  cbn [app dropwhile]. rewrite Fx.
  change (x :: a ++ rest) with ((x :: a) ++ rest).
  rewrite rev_app_distr.
  destruct (rev (x :: a)) as [|y r] eqn:E.
  { apply (f_equal (@List.length ascii)) in E. rewrite length_rev in E. discriminate. }
  assert (Fy : isspace y = false).
  { rewrite forallb_forall in F. apply negb_true_iff. apply F.
    apply in_rev. rewrite E. left. reflexivity. }
  rewrite (dropwhile_app_stop isspace (rev rest) r y Fy).
  rewrite rev_app_distr, <- E, rev_involutive.
  eexists. reflexivity.
Qed.

Lemma digit_not_space_b (c : ascii) : isdigit c = true -> negb (isspace c) = true.
Proof. intro H. rewrite (digit_not_space c H). reflexivity. Qed.

Lemma season_year_survives_strip (code year rest : str) :
  is_season code -> is_year year ->
  exists rest', strip (code ++ year ++ rest) = code ++ year ++ rest'.
Proof.
  intros C [L F]. rewrite app_assoc.
  destruct (strip_keeps_prefix (code ++ year) rest) as [rest' E].
  - destruct C as [-> | ->]; discriminate.
  - rewrite forallb_app. apply andb_true_iff. split.
    + destruct C as [-> | ->]; reflexivity.
    + apply forallb_forall. intros c Hc. apply digit_not_space_b.
      rewrite forallb_forall in F. auto.
  - exists rest'. rewrite E, <- app_assoc. reflexivity.
Qed.

Definition no_pdf (_ : list Byte.byte) : pdf := OpenRaises.

(** The claim's words: two capital letters as the season code. *)
Definition two_letter_code (code : str) : Prop :=
  List.length code = 2 /\ forallb (between 65 90) code = true.

(** The filename starts with a two-letter code immediately followed by
    a four-digit year, as the claim puts it. *)
Definition code_year_prefix (s : str) : Prop :=
  exists code year rest, two_letter_code code /\ is_year year /\ s = code ++ year ++ rest.

(** C8, counterexample: the filename " SP2025.pdf" does not start with a
    two-letter code and a year (it starts with a blank), yet its semester
    is "SP 2025" rather than "Unknown"; "SU2025.pdf" does start with a
    two-letter code and a four-digit year, yet its semester is "Unknown"
    rather than "SU 2025"; and the filename made of "SP2025.RMP" and 4301
    digits starts with SP2025, yet no semester is set: the extractor
    raises and returns no fragment. *)
Lemma semester_rule_is_not_the_claimed_one :
  (~ code_year_prefix (lit " SP2025.pdf") /\
   exists f, extract_course_info_from_bytes no_pdf [] (lit " SP2025.pdf") = Ok f /\
             semester f = lit "SP 2025" /\ semester f <> Unknown) /\
  (code_year_prefix (lit "SU2025.pdf") /\
   exists f, extract_course_info_from_bytes no_pdf [] (lit "SU2025.pdf") = Ok f /\
             semester f = Unknown /\ semester f <> lit "SU 2025") /\
  (code_year_prefix (lit "SP2025.RMP" ++ repeat "1"%char 4301) /\
   extract_course_info_from_bytes no_pdf [] (lit "SP2025.RMP" ++ repeat "1"%char 4301)
   = Raise ValueError).
Proof.
  split; [|split]; split;
    [| | | | exists (lit "SP"), (lit "2025"), (lit ".RMP" ++ repeat "1"%char 4301);
             split; [split; reflexivity|]; split; [split; reflexivity | reflexivity]
         | vm_compute; reflexivity].
  - intros [code [year [rest [[L F] [_ E]]]]].
    destruct code as [|a [|b [|c code]]]; try discriminate L.
    injection E as <- _. vm_compute in F. discriminate F.
  - eexists. split; [vm_compute; reflexivity|].
    split; [reflexivity | discriminate].
  - exists (lit "SU"), (lit "2025"), (lit ".pdf").
    split; [split; reflexivity|]. split; [split; reflexivity | reflexivity].
  - eexists. split; [vm_compute; reflexivity|].
    split; [reflexivity | discriminate].
Qed.

(** C8, amended: in every fragment the extractor returns, the semester
    is read from the filename after its surrounding whitespace is
    stripped.  If the stripped filename starts with SP or FL immediately
    followed by four digits, the semester is that code and that year
    joined by one space, and otherwise it is "Unknown"; in particular
    every filename that itself starts that way gets the code and the
    year. *)
Theorem semester_from_stripped_filename
    (pdfplumber_open : list Byte.byte -> pdf) (file_bytes : list Byte.byte)
    (fn : str) (f : CourseFragment) :
  extract_course_info_from_bytes pdfplumber_open file_bytes fn = Ok f ->
  (forall code year rest, is_season code -> is_year year ->
     strip fn = code ++ year ++ rest -> semester f = code ++ lit " " ++ year) /\
  (~ season_year_prefix (strip fn) -> semester f = Unknown) /\
  (forall code year rest, is_season code -> is_year year ->
     fn = code ++ year ++ rest -> semester f = code ++ lit " " ++ year).
Proof.
  intro H. destruct (extract_Ok_inv _ _ _ _ H) as [id [_ ->]]. cbn [semester fragment_of].
  destruct (semester_of_spec (strip fn)) as [A B].
  split; [exact A|]. split; [exact B|].
  intros code year rest C Y ->.
  destruct (season_year_survives_strip code year rest C Y) as [rest' E].
  exact (A code year rest' C Y E).
Qed.

(** The blank-led filename: stripped, it starts with SP2025. *)
Lemma semester_from_stripped_filename_witness :
  is_season (lit "SP") /\ is_year (lit "2025") /\
  strip (lit " SP2025.pdf") = lit "SP" ++ lit "2025" ++ lit ".pdf" /\
  exists f, extract_course_info_from_bytes no_pdf [] (lit " SP2025.pdf") = Ok f /\
            semester f = lit "SP" ++ lit " " ++ lit "2025".
Proof.
  assert (C : is_season (lit "SP")) by (left; reflexivity).
  assert (Y : is_year (lit "2025")) by (split; reflexivity).
  assert (S : strip (lit " SP2025.pdf") = lit "SP" ++ lit "2025" ++ lit ".pdf")
    by (vm_compute; reflexivity).
  split; [exact C|]. split; [exact Y|]. split; [exact S|].
  destruct (extract_course_info_from_bytes no_pdf [] (lit " SP2025.pdf"))
    as [f|e] eqn:E; [|vm_compute in E; discriminate E].
  exists f. split; [reflexivity|].
  exact (proj1 (semester_from_stripped_filename no_pdf [] (lit " SP2025.pdf") f E)
           (lit "SP") (lit "2025") (lit ".pdf") C Y S).
Defined.

(** *** Course code and section *)

(** The anchor pattern matched somewhere in [s], capturing [cc] and [sec]. *)
Definition anchor_match (s cc sec : str) : Prop :=
  exists pre a sep1 sep2 rest,
    s = pre ++ (a ++ sep1 ++ cc ++ sep2 ++ sec) ++ rest /\
    is_anchor a /\ nonempty_of issep sep1 /\ nonempty_of isword cc /\
    nonempty_of issep sep2 /\ nonempty_of isdigit sec.

Lemma course_of_spec (s : str) :
  (exists cc sec, course_of s = (cc, sec) /\ anchor_match s cc sec) \/
  (course_of s = (Unknown, Unknown) /\ re_search crs_re s = None /\
   forall cc sec, ~ anchor_match s cc sec).
Proof.
  unfold course_of. destruct (re_search crs_re s) as [m|] eqn:E.
  - left. destruct (re_search_Some _ _ _ E) as [pre [rest [S D]]].
    destruct (crs_re_groups _ _ D) as [a [s1 [cc [s2 [sec [G [W P]]]]]]].
    exists cc, sec. unfold group_or_empty. rewrite G. split; [reflexivity|].
    exists pre, a, s1, s2, rest. rewrite <- W. tauto.
  - right. split; [reflexivity|]. split; [reflexivity|].
    intros cc sec [pre [a [s1 [s2 [rest [S [A [[N1 F1] [[Nc Fc] [[N2 F2] [Nd Fd]]]]]]]]]]].
    apply (re_search_None _ _ E pre _ [a; cc; sec] rest S).
    unfold crs_re.
    apply (D_Cat _ _ a [a] (s1 ++ cc ++ s2 ++ sec) [cc; sec]).
    { constructor. destruct A as [-> | ->]; [apply D_AltL | apply D_AltR]; constructor. }
    assert (Len : forall x : str, x <> [] -> 1 <= List.length x).
    { intros [|y x] H; [contradiction | simpl; lia]. }
    apply (D_Cat _ _ s1 [] (cc ++ s2 ++ sec) [cc; sec]).
    { constructor; [exact F1 | auto | discriminate]. }
    apply (D_Cat _ _ cc [cc] (s2 ++ sec) [sec]).
    { constructor. constructor; [exact Fc | auto | discriminate]. }
    apply (D_Cat _ _ s2 [] sec [sec]).
    { constructor; [exact F2 | auto | discriminate]. }
    constructor. constructor; [exact Fd | auto | discriminate].
Qed.

(** C9, counterexample: in "L24.Unknown.5" the anchor pattern matches and
    captures the word Unknown, so the fragment has the course_code
    "Unknown" beside the known section "5". *)
Lemma unknown_course_code_with_known_section :
  exists f, extract_course_info_from_bytes no_pdf [] (lit "L24.Unknown.5") = Ok f /\
            course_code f = Unknown /\ section f = lit "5" /\ section f <> Unknown.
Proof.
  eexists. split; [vm_compute; reflexivity|].
  split; [reflexivity|]. split; [reflexivity | discriminate].
Qed.

(** C9, amended: in every fragment the extractor returns, course_code
    and section are determined jointly.  Either the anchor pattern (L24
    or E81, separators, a word token, separators, an all-digit token)
    matched in the stripped filename and both fields are taken from that
    one match, or it matched nowhere and both are "Unknown".  Hence a
    section of "Unknown" always comes with a course_code of "Unknown",
    and a section other than "Unknown" is a non-empty run of digits.
    (The converse direction is left out: the matched word token may
    itself be the text Unknown.) *)
Theorem course_and_section_from_one_match
    (pdfplumber_open : list Byte.byte -> pdf) (file_bytes : list Byte.byte)
    (fn : str) (f : CourseFragment) :
  extract_course_info_from_bytes pdfplumber_open file_bytes fn = Ok f ->
  (anchor_match (strip fn) (course_code f) (section f) \/
   (course_code f = Unknown /\ section f = Unknown /\
    re_search crs_re (strip fn) = None /\
    forall cc sec, ~ anchor_match (strip fn) cc sec)) /\
  (section f = Unknown -> course_code f = Unknown) /\
  (section f <> Unknown -> nonempty_of isdigit (section f)).
Proof.
  intro H. destruct (extract_Ok_inv _ _ _ _ H) as [id [_ ->]].
  cbn [course_code section fragment_of].
  destruct (course_of_spec (strip fn)) as [[cc [sec [E M]]] | [E [N A]]];
    rewrite E; cbn [fst snd].
  - assert (D : nonempty_of isdigit sec).
    { destruct M as [pre [a [s1 [s2 [rest [_ [_ [_ [_ [_ D]]]]]]]]]]. exact D. }
    split; [left; exact M|]. split.
    + intro U. exfalso. exact (digits_not_Unknown sec (proj2 D) U).
    + intros _. exact D.
  - split; [right; auto|]. split; [reflexivity|].
    intro U. contradiction.
Qed.

(** On "SP2025.L24.CS101.5.pdf" the section is "5", not "Unknown". *)
Lemma course_and_section_from_one_match_witness :
  exists f,
    extract_course_info_from_bytes no_pdf [] (lit "SP2025.L24.CS101.5.pdf") = Ok f /\
    section f <> Unknown /\ nonempty_of isdigit (section f).
Proof.
  destruct (extract_course_info_from_bytes no_pdf [] (lit "SP2025.L24.CS101.5.pdf"))
    as [f|e] eqn:E; [|vm_compute in E; discriminate E].
  exists f. split; [reflexivity|].
  assert (N : section f <> Unknown).
  { vm_compute in E. injection E as <-. discriminate. }
  split; [exact N|].
  exact (proj2 (proj2 (course_and_section_from_one_match no_pdf []
                         (lit "SP2025.L24.CS101.5.pdf") f E)) N).
Defined.

(** *** Totality *)


Lemma read_pages_raises (ps : list page) (text : str) :
  In PageRaises ps -> exists e, read_pages ps text = Raise e.
Proof.
  revert text. induction ps as [|p ps IH]; intros text H; [destruct H|].
  destruct p as [[|c t]| |]; simpl.
  - destruct H as [H|H]; [discriminate | apply IH; exact H].
  - destruct H as [H|H]; [discriminate | apply IH; exact H].
  - destruct H as [H|H]; [discriminate | apply IH; exact H].
  - eexists. reflexivity.
Qed.



End ExtractorProofs.

(* ------------------------------------------------------------------ *)
(** ** Stripping and trimming *)
(* ------------------------------------------------------------------ *)
Module TrimFacts.
Import Text.

(** [strip] and [TRIM] are both this, for their own class of characters. *)
Definition trim_by (p : ascii -> bool) (s : str) : str :=
  rev (dropwhile p (rev (dropwhile p s))).

Lemma dropwhile_head (p : ascii -> bool) (s : str) (c : ascii) (t : str) :
  dropwhile p s = c :: t -> p c = false.
Proof.
  induction s as [|x s IH]; simpl; [discriminate|].
  destruct (p x) eqn:E; [exact IH|].
  intro H. injection H as <- _. exact E.
Qed.

Lemma dropwhile_fix (p : ascii -> bool) (s : str) :
  (forall c t, s = c :: t -> p c = false) -> dropwhile p s = s.
Proof.
  destruct s as [|x s]; [reflexivity|].
  intro H. simpl. rewrite (H x s eq_refl). reflexivity.
Qed.

Lemma dropwhile_suffix (p : ascii -> bool) (s : str) :
  exists a, s = a ++ dropwhile p s /\ forallb p a = true.
Proof.
  induction s as [|x s [a [E F]]]; simpl.
  - exists []. split; reflexivity.
  - destruct (p x) eqn:P.
    + exists (x :: a). simpl. rewrite P, F. split; [f_equal; exact E | reflexivity].
    + exists []. split; reflexivity.
Qed.

Lemma trim_by_ends (p : ascii -> bool) (s : str) :
  (forall c t, trim_by p s = c :: t -> p c = false) /\
  (forall c t, rev (trim_by p s) = c :: t -> p c = false).
Proof.
  unfold trim_by. split.
  - intros c t H.
    destruct (dropwhile_suffix p (rev (dropwhile p s))) as [a [E _]].
    apply (f_equal (@rev ascii)) in E.
    rewrite rev_involutive, rev_app_distr, H in E.
    simpl in E. exact (dropwhile_head p s c _ E).
  - intros c t H. rewrite rev_involutive in H.
    exact (dropwhile_head p _ c t H).
Qed.

Lemma trim_by_fix (p : ascii -> bool) (s : str) :
  (forall c t, s = c :: t -> p c = false) ->
  (forall c t, rev s = c :: t -> p c = false) ->
  trim_by p s = s.
Proof.
  intros H1 H2. unfold trim_by.
  rewrite (dropwhile_fix p s H1), (dropwhile_fix p (rev s) H2).
  apply rev_involutive.
Qed.

Lemma trim_by_idem (p : ascii -> bool) (s : str) :
  trim_by p (trim_by p s) = trim_by p s.
Proof.
  destruct (trim_by_ends p s) as [H1 H2].
  apply trim_by_fix; assumption.
Qed.

Lemma strip_trim_by (s : str) : strip s = trim_by isspace s.
Proof. reflexivity. Qed.

Lemma strip_idem (s : str) : strip (strip s) = strip s.
Proof. rewrite !strip_trim_by. apply trim_by_idem. Qed.

End TrimFacts.

(* ------------------------------------------------------------------ *)
(** ** Extractor: further properties *)
(* ------------------------------------------------------------------ *)
Module ExtractorMore.
Import Text Regex Exn ProcessPdfs RegexFacts ExtractorProofs TrimFacts.

(** The extractor reads the filename only through its stripped form: a
    filename and its stripped form give the same result, and the
    filename field of a fragment it returns is stripped already and, fed
    back in, gives that fragment again. *)
Theorem extraction_stable_under_strip
    (pdfplumber_open : list Byte.byte -> pdf) (file_bytes : list Byte.byte)
    (fn : str) :
  extract_course_info_from_bytes pdfplumber_open file_bytes (strip fn)
  = extract_course_info_from_bytes pdfplumber_open file_bytes fn /\
  forall f,
    extract_course_info_from_bytes pdfplumber_open file_bytes fn = Ok f ->
    strip (filename f) = filename f /\
    extract_course_info_from_bytes pdfplumber_open file_bytes (filename f) = Ok f.
Proof.
  assert (E : extract_course_info_from_bytes pdfplumber_open file_bytes (strip fn)
              = extract_course_info_from_bytes pdfplumber_open file_bytes fn).
  { rewrite !extract_cases. unfold fragment_of. rewrite strip_idem. reflexivity. }
  split; [exact E|].
  intros f H. destruct (extract_Ok_inv _ _ _ _ H) as [id [_ F]].
  assert (N : filename f = strip fn) by (rewrite F; reflexivity).
  rewrite N. split; [apply strip_idem|].
  rewrite E. exact H.
Qed.

(** The blank-led filename " SP2025.pdf" comes back as "SP2025.pdf". *)
Lemma extraction_stable_under_strip_witness :
  exists f,
    extract_course_info_from_bytes no_pdf [] (lit " SP2025.pdf") = Ok f /\
    filename f = lit "SP2025.pdf" /\
    extract_course_info_from_bytes no_pdf [] (filename f) = Ok f.
Proof.
  destruct (extract_course_info_from_bytes no_pdf [] (lit " SP2025.pdf"))
    as [f|e] eqn:E; [|vm_compute in E; discriminate E].
  exists f. split; [reflexivity|]. split.
  - vm_compute in E. injection E as <-. reflexivity.
  - exact (proj2 (proj2 (extraction_stable_under_strip no_pdf [] (lit " SP2025.pdf"))
                    f E)).
Defined.

(** The text of the pages that have some, each followed by one blank. *)
Definition pages_text (ps : list page) : str :=
  flat_map (fun p => match p with
                     | PageText (c :: t) => (c :: t) ++ lit " "
                     | _ => []
                     end) ps.

Lemma read_pages_ok (ps : list page) (text : str) :
  ~ In PageRaises ps -> read_pages ps text = Ok (text ++ pages_text ps).
Proof.
  revert text. induction ps as [|p ps IH]; intros text N.
  - simpl. rewrite app_nil_r. reflexivity.
  - assert (N' : ~ In PageRaises ps) by (intro H; apply N; right; exact H).
    destruct p as [[|c t]| |].
    + simpl. apply IH. exact N'.
    + cbn [read_pages pages_text flat_map]. rewrite (IH _ N').
      rewrite <- !app_assoc. reflexivity.
    + simpl. apply IH. exact N'.
    + exfalso. apply N. left. reflexivity.
Qed.

(** The text handed to the two body patterns is all or nothing: when the
    PDF opens and no page raises it is the text of the pages that have
    some, each followed by one blank, in page order; when opening or any
    single page raises it is empty, whatever the other pages held. *)
Theorem pdf_text_all_or_nothing
    (pdfplumber_open : list Byte.byte -> pdf) (file_bytes : list Byte.byte) :
  (forall ps, pdfplumber_open file_bytes = Pages ps -> ~ In PageRaises ps ->
     pdf_text pdfplumber_open file_bytes = pages_text ps) /\
  (forall ps, pdfplumber_open file_bytes = Pages ps -> In PageRaises ps ->
     pdf_text pdfplumber_open file_bytes = []) /\
  (pdfplumber_open file_bytes = OpenRaises ->
     pdf_text pdfplumber_open file_bytes = []).
Proof.
  unfold pdf_text. split; [|split].
  - intros ps E N. rewrite E, (read_pages_ok ps [] N). reflexivity.
  - intros ps E H. rewrite E.
    destruct (read_pages_raises ps [] H) as [e R]. rewrite R. reflexivity.
  - intros E. rewrite E. reflexivity.
Qed.

Definition two_pages (_ : list Byte.byte) : pdf :=
  Pages [PageText (lit "Reports for SP2025 - Intro (L24)"); PageNone;
         PageText (lit "Overall Rating: 4.50")].

(** Two pages of text around a page without any. *)
Lemma pdf_text_all_or_nothing_witness :
  two_pages [] = Pages [PageText (lit "Reports for SP2025 - Intro (L24)"); PageNone;
                        PageText (lit "Overall Rating: 4.50")] /\
  pdf_text two_pages []
  = lit "Reports for SP2025 - Intro (L24) Overall Rating: 4.50 ".
Proof.
  split; [reflexivity|].
  rewrite (proj1 (pdf_text_all_or_nothing two_pages []) _ eq_refl).
  - reflexivity.
  - intros [H|[H|[H|[]]]]; discriminate H.
Defined.

End ExtractorMore.

(* ------------------------------------------------------------------ *)
(** ** The pattern matcher: which match comes first *)
(* ------------------------------------------------------------------ *)
Module RegexPriority.
Import Text Regex RegexFacts.

Lemma flat_map_skip {A B : Type} (f : A -> list B) (l1 l2 : list A) :
  (forall z, In z l1 -> f z = []) -> flat_map f (l1 ++ l2) = flat_map f l2.
Proof.
  induction l1 as [|a l1 IH]; intro H; [reflexivity|].
  simpl. rewrite (H a (or_introl eq_refl)). simpl. apply IH.
  intros z Hz. apply H. right. exact Hz.
Qed.

Lemma flat_map_hd {A B : Type} (f : A -> list B) (l : list A) (y : B) :
  hd_error (flat_map f l) = Some y ->
  exists x, In x l /\ hd_error (f x) = Some y.
Proof.
  induction l as [|a l IH]; simpl; [discriminate|].
  destruct (f a) as [|b bs] eqn:E; simpl.
  - intro H. destruct (IH H) as [x [Hx Hy]]. exists x. split; [right|]; assumption.
  - intro H. exists a. split; [left; reflexivity|]. rewrite E. exact H.
Qed.

Lemma hd_error_map {A B : Type} (f : A -> B) (l : list A) :
  hd_error (map f l) = option_map f (hd_error l).
Proof. destruct l; reflexivity. Qed.

Lemma first_match_hd (r : re) (s : str) (m : match_obj) :
  first_match r s = Some m <->
  exists rest, hd_error (run r s) = Some (whole m, groups m, rest).
Proof.
  unfold first_match. destruct (run r s) as [|[[t g] rest] l]; simpl.
  - split; [discriminate | intros [rest H]; discriminate].
  - split.
    + intro H. injection H as <-. exists rest. reflexivity.
    + intros [rest' H]. injection H as -> -> _. destruct m; reflexivity.
Qed.

(** The head of a concatenation is a partial match of the first part
    followed by the head of the second part after it. *)
Lemma run_cat_hd (a b : re) (s t : str) (g : list str) (rest : str) :
  hd_error (run (Cat a b) s) = Some (t, g, rest) ->
  exists ta ga ra tb gb,
    In (ta, ga, ra) (run a s) /\ hd_error (run b ra) = Some (tb, gb, rest) /\
    t = ta ++ tb /\ g = ga ++ gb.
Proof.
  simpl. intro H. apply flat_map_hd in H. destruct H as [[[ta ga] ra] [Ha H]].
  rewrite hd_error_map in H.
  destruct (hd_error (run b ra)) as [[[tb gb] rb]|] eqn:E; [|discriminate].
  simpl in H. injection H as <- <- <-.
  exists ta, ga, ra, tb, gb. auto.
Qed.

Lemma run_grp_hd (a : re) (s t : str) (g : list str) (rest : str) :
  hd_error (run (Grp a) s) = Some (t, g, rest) ->
  exists g', hd_error (run a s) = Some (t, g', rest) /\ g = t :: g'.
Proof.
  simpl. rewrite hd_error_map.
  destruct (hd_error (run a s)) as [[[t' g'] r']|]; [|discriminate].
  simpl. intro H. injection H as <- <- <-. exists g'. auto.
Qed.

Lemma skipn_span (c : charset) (s : str) (x : ascii) (t : str) :
  skipn (span c s) s = x :: t -> c x = false.
Proof.
  induction s as [|y s IH]; simpl; [discriminate|].
  destruct (c y) eqn:E; simpl; [exact IH|].
  intro H. injection H as <- _. exact E.
Qed.

(** A greedy unbounded repetition first takes the whole run: what is
    left does not start with a character of the class. *)
Lemma run_rep_greedy_hd (c : charset) (lo : nat) (s t : str) (g : list str)
    (rest : str) :
  hd_error (run (Rep c lo None true) s) = Some (t, g, rest) ->
  forall x rest', rest = x :: rest' -> c x = false.
Proof.
  cbn [run]. unfold counts. cbv zeta. rewrite hd_error_map.
  destruct (Nat.le_gt_cases lo (span c s)) as [L|L].
  - replace (S (span c s) - lo) with (S (span c s - lo)) by lia.
    rewrite seq_S, rev_app_distr. cbn [rev app hd_error option_map].
    replace (lo + (span c s - lo)) with (span c s) by lia.
    intro H. injection H as _ _ <-. intros x rest' E.
    exact (skipn_span c s x rest' E).
  - replace (S (span c s) - lo) with 0 by lia. cbn. discriminate.
Qed.

(** [re.search] reports the match of the leftmost position that has one. *)
Lemma re_search_leftmost (r : re) (s : str) (m : match_obj) :
  re_search r s = Some m ->
  exists pre s', s = pre ++ s' /\ first_match r s' = Some m.
Proof.
  induction s as [|x s IH]; simpl.
  - destruct (first_match r []) eqn:E; [|discriminate].
    intro H. injection H as ->. exists [], []. auto.
  - destruct (first_match r (x :: s)) eqn:E.
    + intro H. injection H as ->. exists [], (x :: s). auto.
    + intro H. destruct (IH H) as [pre [s' [-> F]]].
      exists (x :: pre), s'. auto.
Qed.

Lemma re_search_skip (r : re) (pre s : str) :
  (forall p1 p2, pre = p1 ++ p2 -> p2 <> [] -> first_match r (p2 ++ s) = None) ->
  re_search r (pre ++ s) = re_search r s.
Proof.
  induction pre as [|x pre IH]; intro H; [reflexivity|].
  cbn [app re_search].
  assert (E : first_match r ((x :: pre) ++ s) = None)
    by (apply (H [] (x :: pre) eq_refl); discriminate).
  cbn [app] in E. rewrite E.
  apply IH. intros p1 p2 E' N. apply (H (x :: p1) p2); [rewrite E'; reflexivity | exact N].
Qed.

Lemma re_search_here (r : re) (s : str) (m : match_obj) :
  first_match r s = Some m -> re_search r s = Some m.
Proof. destruct s; simpl; intros ->; reflexivity. Qed.

End RegexPriority.

(* ------------------------------------------------------------------ *)
(** ** Extractor: what the greedy and lazy groups capture *)
(* ------------------------------------------------------------------ *)
Module ExtractorGroups.
Import Text Regex Exn ProcessPdfs RegexFacts RegexPriority ExtractorProofs.

(** R, M, P in either case, then at most one dash or underscore. *)
Definition is_rmp_marker (m : str) : Prop :=
  exists r mm p dash,
    m = r :: mm :: p :: dash /\
    either "R" "r" r = true /\ either "M" "m" mm = true /\
    either "P" "p" p = true /\
    forallb isdash dash = true /\ List.length dash <= 1.

(** The string does not go on with a digit. *)
Definition no_digit_next (rest : str) : Prop :=
  forall c rest', rest = c :: rest' -> isdigit c = false.

Ltac head_chain H :=
  repeat match type of H with
  | hd_error (run (Cat _ _) _) = Some _ =>
      let ta := fresh "ta" in let ga := fresh "ga" in let ra := fresh "ra" in
      let tb := fresh "tb" in let gb := fresh "gb" in
      let I := fresh "I" in let E1 := fresh "Et" in let E2 := fresh "Eg" in
      apply run_cat_hd in H;
      destruct H as [ta [ga [ra [tb [gb [I [H [E1 E2]]]]]]]]
  | hd_error (run (Grp _) _) = Some _ =>
      let g' := fresh "g" in let E := fresh "Eg" in
      apply run_grp_hd in H; destruct H as [g' [H E]]
  end.

Lemma hd_error_In {A : Type} (l : list A) (x : A) : hd_error l = Some x -> In x l.
Proof. destruct l; simpl; [discriminate|]. intro H. injection H as ->. left. reflexivity. Qed.

Lemma rmp_re_shape (t : str) (g : list str) :
  derives rmp_re t g ->
  exists marker d,
    t = marker ++ d /\ g = [d] /\ is_rmp_marker marker /\ nonempty_of isdigit d.
Proof.
  unfold rmp_re. intro D. inv_derives.
  match goal with
  | Hd : forallb isdigit ?d = true, Hs : forallb isdash ?dash = true |- _ =>
      eexists (_ :: _ :: _ :: dash), d
  end.
  split; [reflexivity|]. split; [reflexivity|]. split.
  - do 4 eexists. split; [reflexivity|].
    repeat split; try assumption.
    match goal with U : forall h, Some 1 = Some h -> _ |- _ => exact (U 1 eq_refl) end.
  - split; [apply length_pos_nonempty|]; assumption.
Qed.

Lemma rmp_re_first (s : str) (m : match_obj) :
  first_match rmp_re s = Some m ->
  exists marker d rest,
    s = marker ++ d ++ rest /\ groups m = [d] /\
    is_rmp_marker marker /\ nonempty_of isdigit d /\ no_digit_next rest.
Proof.
  intro F. apply first_match_hd in F. destruct F as [rest H].
  pose proof (hd_error_In _ _ H) as I.
  apply run_sound in I. destruct I as [S D].
  assert (G : no_digit_next rest).
  { unfold rmp_re in H. head_chain H.
    intros c rest' E. exact (run_rep_greedy_hd isdigit 1 _ _ _ _ H c rest' E). }
  destruct (rmp_re_shape _ _ D) as [marker [d [W [Gm [M N]]]]].
  exists marker, d, rest. rewrite S, W, <- app_assoc. auto.
Qed.

Lemma digits_value_nonneg (d : str) (n : Z) : digits_value d = Some n -> (0 <= n)%Z.
Proof.
  unfold digits_value. destruct d as [|x d]; [discriminate|].
  destruct (forallb isdigit (x :: d)); [|discriminate].
  intro H. injection H as <-.
  assert (G : forall (l : str) (acc : Z), (0 <= acc)%Z ->
            (0 <= fold_left (fun a c => 10 * a + digit_val c) l acc)%Z).
  { induction l as [|y l IH]; intros acc A; cbn [fold_left]; [exact A|].
    apply IH. unfold digit_val. lia. }
  apply G. unfold digit_val. lia.
Qed.

Lemma rmp_marker_derives (marker d : str) :
  is_rmp_marker marker -> nonempty_of isdigit d ->
  derives rmp_re (marker ++ d) [d].
Proof.
  intros [r [mm [p [dash [-> [Hr [Hm [Hp [Hd Hl]]]]]]]]] [N F].
  unfold rmp_re.
  apply (D_Cat _ _ [r] [] (mm :: p :: dash ++ d) [d]); [constructor; exact Hr|].
  apply (D_Cat _ _ [mm] [] (p :: dash ++ d) [d]); [constructor; exact Hm|].
  apply (D_Cat _ _ [p] [] (dash ++ d) [d]); [constructor; exact Hp|].
  apply (D_Cat _ _ dash [] d [d]).
  - constructor; [exact Hd | lia | intros h E; injection E as <-; exact Hl].
  - constructor. constructor; [exact F | | discriminate].
    destruct d; [contradiction | simpl; lia].
Qed.

(** What the id pattern finds in [s]: a marker directly followed by a
    whole run of digits, which [int] is given; or no marker followed by a
    digit anywhere. *)
Lemma rmp_id_of_cases (s : str) :
  (exists pre marker d rest,
     s = pre ++ marker ++ d ++ rest /\ is_rmp_marker marker /\
     nonempty_of isdigit d /\ no_digit_next rest /\
     rmp_id_of s = match python_int d with
                   | Some n => Ok (Some n)
                   | None => Raise ValueError
                   end) \/
  (rmp_id_of s = Ok None /\
   forall pre marker d rest,
     s = pre ++ marker ++ d ++ rest -> is_rmp_marker marker ->
     ~ nonempty_of isdigit d).
Proof.
  unfold rmp_id_of. destruct (re_search rmp_re s) as [m|] eqn:E.
  - left. destruct (re_search_leftmost _ _ _ E) as [pre [s' [S F]]].
    destruct (rmp_re_first s' m F) as [marker [d [rest [S' [G [M [N R]]]]]]].
    exists pre, marker, d, rest.
    unfold group_or_empty. rewrite G. cbn [Nat.sub nth].
    rewrite S, S'. auto.
  - right. split; [reflexivity|].
    intros pre marker d rest S M N.
    apply (re_search_None _ _ E pre (marker ++ d) [d] rest).
    + rewrite S, <- app_assoc. reflexivity.
    + apply rmp_marker_derives; assumption.
Qed.

(** In a fragment the extractor returns, a non-null rmp_id is the value
    of a whole run of digits: the stripped filename holds an RMP marker
    (any letter case, at most one dash or underscore) directly followed by
    the digits read, at most [max_str_digits] of them, and the character
    after them is not a digit; the id is never negative.  The rmp_id is
    null exactly when no marker is directly followed by a digit. *)
Theorem rmp_id_reads_whole_digit_run
    (pdfplumber_open : list Byte.byte -> pdf) (file_bytes : list Byte.byte)
    (fn : str) (f : CourseFragment) :
  extract_course_info_from_bytes pdfplumber_open file_bytes fn = Ok f ->
  (forall n, rmp_id f = Some n ->
     (0 <= n)%Z /\
     exists pre marker d rest,
       strip fn = pre ++ marker ++ d ++ rest /\ is_rmp_marker marker /\
       nonempty_of isdigit d /\ List.length d <= max_str_digits /\
       digits_value d = Some n /\ no_digit_next rest) /\
  (rmp_id f = None <->
   forall pre marker d rest,
     strip fn = pre ++ marker ++ d ++ rest -> is_rmp_marker marker ->
     ~ nonempty_of isdigit d).
Proof.
  intro H. destruct (extract_Ok_inv _ _ _ _ H) as [id [R ->]].
  cbn [rmp_id fragment_of].
  destruct (rmp_id_of_cases (strip fn))
    as [[pre [marker [d [rest [S [M [N [G C]]]]]]]] | [C A]];
    rewrite C in R.
  - destruct (python_int d) as [n|] eqn:P; [|discriminate R].
    injection R as <-. destruct (python_int_Some d n P) as [V L]. split.
    + intros n' E. injection E as <-. split; [exact (digits_value_nonneg d n V)|].
      exists pre, marker, d, rest. auto 8.
    + split; [discriminate|].
      intro A. exfalso. exact (A pre marker d rest S M N).
  - injection R as <-. split; [discriminate|]. split; [intros _; exact A | reflexivity].
Qed.

Definition no_pdf (_ : list Byte.byte) : pdf := OpenRaises.

(** "x_rmp-0042b.pdf": the id is 42, read from the digits 0042. *)
Lemma rmp_id_reads_whole_digit_run_witness :
  exists f,
    extract_course_info_from_bytes no_pdf [] (lit "x_rmp-0042b.pdf") = Ok f /\
    rmp_id f = Some 42%Z /\ (0 <= 42)%Z.
Proof.
  destruct (extract_course_info_from_bytes no_pdf [] (lit "x_rmp-0042b.pdf"))
    as [f|e] eqn:E; [|vm_compute in E; discriminate E].
  exists f. split; [reflexivity|].
  assert (R : rmp_id f = Some 42%Z).
  { vm_compute in E. injection E as <-. reflexivity. }
  split; [exact R|].
  exact (proj1 (proj1 (rmp_id_reads_whole_digit_run no_pdf [] (lit "x_rmp-0042b.pdf")
                         f E) 42%Z R)).
Defined.

(** *** The professor between the markers *)

(** No character of [s] is [x]. *)
Definition free_of (x : ascii) (s : str) : Prop :=
  forallb (fun c => negb (is_char x c)) s = true.

Lemma free_of_cons (x c : ascii) (s : str) :
  free_of x (c :: s) -> Ascii.eqb x c = false /\ free_of x s.
Proof.
  unfold free_of. cbn [forallb]. intro H. apply andb_true_iff in H.
  destruct H as [Hc H]. apply negb_true_iff in Hc. split; assumption.
Qed.

Lemma marker_needs_dollar (c : ascii) (t : str) :
  Ascii.eqb "$" c = false -> starts_with (lit "$$") (c :: t) = false.
Proof.
  intro H. change (lit "$$") with ["$"%char; "$"%char].
  cbn [starts_with]. rewrite H. reflexivity.
Qed.

Lemma no_marker_inside (x t : str) (n : nat) :
  free_of "$" x -> n < List.length x ->
  starts_with (lit "$$") (skipn n (x ++ t)) = false.
Proof.
  revert n. induction x as [|c x IH]; intros n F L; [simpl in L; lia|].
  apply free_of_cons in F. destruct F as [Fc F].
  destruct n as [|n].
  - cbn [skipn app]. apply marker_needs_dollar. exact Fc.
  - cbn [skipn app]. apply IH; [exact F | simpl in L; lia].
Qed.

Lemma lazy_group_until_marker (x rest : str) :
  free_of "$" x -> forallb isdot x = true ->
  exists tl,
    run (Cat (Grp (Rep isdot 0 None false)) (Lit (lit "$$")))
        (x ++ lit "$$" ++ rest)
    = (x ++ lit "$$", [x], rest) :: tl.
Proof.
  intros F D. set (s2 := x ++ lit "$$" ++ rest).
  cbn [run]. unfold counts. cbv zeta.
  pose proof (span_app isdot x (lit "$$" ++ rest) D) as L. fold s2 in L.
  replace (S (span isdot s2) - 0) with (List.length x + S (span isdot s2 - List.length x))
    by lia.
  rewrite seq_app. cbn [seq Nat.add]. rewrite !map_app.
  rewrite flat_map_skip.
  - assert (E1 : firstn (List.length x) s2 = x) by apply firstn_app_exact.
    assert (E2 : skipn (List.length x) s2 = lit "$$" ++ rest) by apply skipn_app_exact.
    cbn [map flat_map]. rewrite E1, E2.
    cbn [run lit list_ascii_of_string app starts_with]. rewrite !Ascii.eqb_refl.
    cbn [andb map List.length skipn app]. eexists. reflexivity.
  - intros z Hz. apply in_map_iff in Hz. destruct Hz as [y [<- Hy]].
    apply in_map_iff in Hy. destruct Hy as [n [<- Hn]].
    apply in_seq in Hn. cbn [run].
    unfold s2. rewrite (no_marker_inside x _ n F) by lia. reflexivity.
Qed.

Lemma run_lit_cat (l : str) (b : re) (s : str) :
  run (Cat (Lit l) b) (l ++ s)
  = map (fun pb : partial => let '(tb, gb, rb) := pb in (l ++ tb, [] ++ gb, rb))
        (run b s).
Proof.
  cbn [run].
  assert (S : starts_with l (l ++ s) = true)
    by (apply starts_with_app; exists s; reflexivity).
  rewrite S, skipn_app_exact. cbn [flat_map]. apply app_nil_r.
Qed.

Lemma prof_re_first (x rest : str) :
  free_of "$" x -> forallb isdot x = true ->
  first_match prof_re (lit "$$" ++ x ++ lit "$$" ++ rest)
  = Some {| whole := lit "$$" ++ x ++ lit "$$"; groups := [x] |}.
Proof.
  intros F D. unfold first_match, prof_re.
  destruct (lazy_group_until_marker x rest F D) as [tl E].
  rewrite run_lit_cat, E. reflexivity.
Qed.

Lemma no_match_before_marker (p2 s : str) :
  free_of "$" p2 -> p2 <> [] -> first_match prof_re (p2 ++ s) = None.
Proof.
  intros F N. destruct p2 as [|c p2]; [contradiction|].
  apply free_of_cons in F. destruct F as [Fc _].
  unfold first_match, prof_re.
  cbn [run app]. rewrite (marker_needs_dollar c _ Fc). reflexivity.
Qed.

Lemma free_of_app (x : ascii) (a b : str) :
  free_of x (a ++ b) -> free_of x a /\ free_of x b.
Proof.
  unfold free_of. rewrite forallb_app. intro H. apply andb_true_iff in H. exact H.
Qed.

(** In a fragment the extractor returns, the professor is the name
    between the first pair of markers: when the stripped filename reads
    [pre $$ name $$ rest] with no dollar sign in [pre] or in [name] and no
    newline in [name], the professor field is exactly [name]. *)
Theorem professor_between_markers
    (pdfplumber_open : list Byte.byte -> pdf) (file_bytes : list Byte.byte)
    (fn pre name rest : str) (f : CourseFragment) :
  extract_course_info_from_bytes pdfplumber_open file_bytes fn = Ok f ->
  strip fn = pre ++ lit "$$" ++ name ++ lit "$$" ++ rest ->
  free_of "$" pre -> free_of "$" name -> forallb isdot name = true ->
  professor f = name.
Proof.
  intros H S Fp Fn D. destruct (extract_Ok_inv _ _ _ _ H) as [id [_ ->]].
  cbn [professor fragment_of].
  unfold professor_of. rewrite S.
  rewrite re_search_skip.
  - rewrite (re_search_here _ _ _ (prof_re_first name rest Fn D)). reflexivity.
  - intros p1 p2 E N. apply no_match_before_marker; [|exact N].
    rewrite E in Fp. exact (proj2 (free_of_app _ _ _ Fp)).
Qed.

(** "SP2025.$$Jane Doe$$.L24.CS101.5.pdf" gives the professor Jane Doe. *)
Lemma professor_between_markers_witness :
  exists f,
    extract_course_info_from_bytes no_pdf []
      (lit "SP2025.$$Jane Doe$$.L24.CS101.5.pdf") = Ok f /\
    professor f = lit "Jane Doe".
Proof.
  destruct (extract_course_info_from_bytes no_pdf []
              (lit "SP2025.$$Jane Doe$$.L24.CS101.5.pdf"))
    as [f|e] eqn:E; [|vm_compute in E; discriminate E].
  exists f. split; [reflexivity|].
  apply (professor_between_markers no_pdf []
           (lit "SP2025.$$Jane Doe$$.L24.CS101.5.pdf")
           (lit "SP2025.") (lit "Jane Doe") (lit ".L24.CS101.5.pdf") f E);
    reflexivity.
Defined.

End ExtractorGroups.

(* ------------------------------------------------------------------ *)
(** ** Extractor: when it returns and when it raises *)
(* ------------------------------------------------------------------ *)
Module ExtractorTotality.
Import Text Regex Exn ProcessPdfs RegexFacts ExtractorProofs ExtractorGroups.










End ExtractorTotality.

(* ------------------------------------------------------------------ *)
(** ** The batch over the stage *)
(* ------------------------------------------------------------------ *)
Module BatchProofs.
Import Text Exn ProcessPdfs ProcessPdfsBatch ExtractorProofs.

(** The staged file is a PDF by name, its bytes could be read and the
    extractor returned a fragment for them. *)
Definition extracted (pdfplumber_open : list Byte.byte -> pdf)
    (get : str -> download) (file_path : str) : bool :=
  is_pdf (basename file_path) &&
  match get (basename file_path) with
  | Content file_bytes =>
      match extract_course_info_from_bytes pdfplumber_open file_bytes
              (basename file_path) with
      | Ok _ => true
      | Raise _ => false
      end
  | _ => false
  end.

(** The fragment [f] is what the extractor returns for the staged file. *)
Definition fragment_of_file (pdfplumber_open : list Byte.byte -> pdf)
    (get : str -> download) (file_path : str) (f : CourseFragment) : Prop :=
  exists file_bytes,
    get (basename file_path) = Content file_bytes /\
    extract_course_info_from_bytes pdfplumber_open file_bytes (basename file_path)
    = Ok f.

(** [mkdtemp] raises for one of the PDFs of the listing. *)
Definition mkdtemp_fails (get : str -> download) (files : list str) : Prop :=
  exists p, In p files /\ is_pdf (basename p) = true /\
            get (basename p) = MkdtempRaises.

(** Every step around the loop returns. *)
Definition all_calls_return (w : session) (df : list frame_row) : Prop :=
  connect w = true /\ ensure_processed_pdfs_table_exists w = true /\
  store_results_in_snowflake w df = true /\ to_csv w df = true /\
  close w = true.

Section Batch.

Variable pdfplumber_open : list Byte.byte -> pdf.
Variable get : str -> download.

Lemma process_files_acc (files : list str) (results : list CourseFragment) :
  process_files pdfplumber_open get files results
  = match process_files pdfplumber_open get files [] with
    | Ok more => Ok (results ++ more)
    | Raise e => Raise e
    end.
Proof.
  revert results. induction files as [|p files IH]; intro results.
  - simpl. rewrite app_nil_r. reflexivity.
  - cbn [process_files]. cbv zeta.
    destruct (negb (is_pdf (basename p))); [apply IH|].
    destruct (get (basename p)) as [| | | |b]; try apply IH; [reflexivity|].
    destruct (extract_course_info_from_bytes pdfplumber_open b (basename p));
      [|apply IH].
    rewrite (IH (results ++ [a])), (IH ([] ++ [a])).
    destruct (process_files pdfplumber_open get files []); [|reflexivity].
    rewrite <- app_assoc. reflexivity.
Qed.

Lemma process_files_each (files : list str) :
  ~ mkdtemp_fails get files ->
  exists results,
    process_files pdfplumber_open get files [] = Ok results /\
    Forall2 (fragment_of_file pdfplumber_open get)
            (filter (extracted pdfplumber_open get) files) results.
Proof.
  induction files as [|p files IH]; intro N.
  - exists []. split; [reflexivity | constructor].
  - destruct IH as [results [E F]].
    { intros [q [I [P G]]]. apply N. exists q. split; [right; exact I | auto]. }
    cbn [process_files filter]. cbv zeta. unfold extracted at 1.
    destruct (is_pdf (basename p)) eqn:P; cbn [negb andb];
      [|exists results; split; assumption].
    destruct (get (basename p)) as [| | | |b] eqn:G;
      try (exists results; split; assumption).
    + exfalso. apply N. exists p. split; [left; reflexivity | auto].
    + destruct (extract_course_info_from_bytes pdfplumber_open b (basename p))
        as [f|e] eqn:X; [|exists results; split; assumption].
      rewrite process_files_acc, E. exists (f :: results).
      split; [reflexivity|]. constructor; [|exact F].
      exists b. split; [exact G | exact X].
Qed.

Lemma process_files_aborts (files : list str) :
  mkdtemp_fails get files ->
  process_files pdfplumber_open get files [] = Raise OSError.
Proof.
  induction files as [|p files IH]; intros [q [I [P G]]]; [destruct I|].
  assert (T : In q files -> process_files pdfplumber_open get files [] = Raise OSError).
  { intro I'. apply IH. exists q. auto. }
  cbn [process_files]. cbv zeta.
  destruct I as [->|I].
  - rewrite P, G. reflexivity.
  - destruct (negb (is_pdf (basename p))); [exact (T I)|].
    destruct (get (basename p)) as [| | | |b]; try exact (T I); [reflexivity|].
    destruct (extract_course_info_from_bytes pdfplumber_open b (basename p));
      [|exact (T I)].
    rewrite process_files_acc, (T I). reflexivity.
Qed.

Lemma renamed_columns_match_table :
  fix_columns_for_snowflake fragment_columns = APP_PROCESSED_PDFS_columns.
Proof. reflexivity. Qed.

Lemma clean_fixes_fragments (results : list CourseFragment) :
  ProcessPdfsBatch.clean_and_store_data (map frame_row_of results)
  = map frame_row_of results.
Proof.
  unfold ProcessPdfsBatch.clean_and_store_data. rewrite map_map.
  apply map_ext. intro f. reflexivity.
Qed.

Lemma run_returns (w : session) (files : list str) (results : list CourseFragment) :
  LIST w = Some files ->
  process_files pdfplumber_open get files [] = Ok results ->
  all_calls_return w (map frame_row_of results) ->
  process_pdfs_from_snowflake pdfplumber_open get w = Ok (map frame_row_of results).
Proof.
  intros L E [C [T [S [V K]]]].
  unfold process_pdfs_from_snowflake, process_pdfs_try. rewrite C, K, T, L.
  cbn [guard bind or_raise].
  destruct files as [|p files].
  - simpl in E. injection E as <-. reflexivity.
  - rewrite E. cbn [bind]. destruct results as [|r rs]; [reflexivity|].
    rewrite clean_fixes_fragments, S, V. reflexivity.
Qed.

Lemma run_nonempty (w : session) (df : list frame_row) :
  process_pdfs_from_snowflake pdfplumber_open get w = Ok df -> df <> [] ->
  exists files results,
    LIST w = Some files /\
    process_files pdfplumber_open get files [] = Ok results /\
    df = map frame_row_of results /\ all_calls_return w df.
Proof.
  unfold process_pdfs_from_snowflake, process_pdfs_try, all_calls_return.
  destruct (connect w); [|discriminate].
  destruct (close w); [|discriminate].
  intros H N. injection H as H.
  destruct (ensure_processed_pdfs_table_exists w);
    [|exfalso; apply N; rewrite <- H; reflexivity].
  destruct (LIST w) as [files|]; [|exfalso; apply N; rewrite <- H; reflexivity].
  cbn [guard bind or_raise] in H.
  destruct files as [|p files]; [exfalso; apply N; rewrite <- H; reflexivity|].
  destruct (process_files pdfplumber_open get (p :: files) []) as [results|e] eqn:E;
    [|exfalso; apply N; rewrite <- H; reflexivity].
  cbn [bind] in H.
  destruct results as [|r rs]; [exfalso; apply N; rewrite <- H; reflexivity|].
  rewrite clean_fixes_fragments in H.
  destruct (store_results_in_snowflake w (map frame_row_of (r :: rs))) eqn:S;
    [|exfalso; apply N; rewrite <- H; reflexivity].
  destruct (to_csv w (map frame_row_of (r :: rs))) eqn:V;
    [|exfalso; apply N; rewrite <- H; reflexivity].
  cbn [guard bind try_except] in H.
  exists (p :: files), (r :: rs). rewrite <- H. repeat split; auto.
Qed.

End Batch.

(** One bad document never costs the batch another.  Unless creating a
    temporary directory raises, the loop collects, in stage order,
    exactly one fragment per staged file whose base name ends in ".pdf"
    (in any letter case), whose bytes could be downloaded and read and
    for which the extractor returned: files of other names, failed
    downloads and files on which the extractor raises contribute nothing.
    If a temporary directory cannot be made the loop is abandoned.  The
    frame the function returns is non-empty only if every call around the
    loop returned, and then it holds exactly the fragments collected, the
    fillna clean-up changing none; and when every call returns that is
    the frame returned. *)
Theorem batch_keeps_what_extracts
    (pdfplumber_open : list Byte.byte -> pdf) (get : str -> download)
    (files : list str) :
  (~ mkdtemp_fails get files ->
   exists results,
     process_files pdfplumber_open get files [] = Ok results /\
     Forall2 (fragment_of_file pdfplumber_open get)
             (filter (extracted pdfplumber_open get) files) results /\
     List.length results <= List.length files) /\
  (mkdtemp_fails get files ->
   process_files pdfplumber_open get files [] = Raise OSError) /\
  (forall w df,
     LIST w = Some files ->
     process_pdfs_from_snowflake pdfplumber_open get w = Ok df -> df <> [] ->
     exists results,
       process_files pdfplumber_open get files [] = Ok results /\
       df = map frame_row_of results /\ all_calls_return w df) /\
  (forall w results,
     LIST w = Some files ->
     process_files pdfplumber_open get files [] = Ok results ->
     all_calls_return w (map frame_row_of results) ->
     process_pdfs_from_snowflake pdfplumber_open get w
     = Ok (map frame_row_of results)).
Proof.
  split; [|split; [|split]].
  - intro N. destruct (process_files_each pdfplumber_open get files N)
      as [results [E F]].
    exists results. split; [exact E|]. split; [exact F|].
    rewrite <- (Forall2_length F). apply filter_length_le.
  - apply process_files_aborts.
  - intros w df L H N.
    destruct (run_nonempty pdfplumber_open get w df H N)
      as [files' [results [L' [E [D A]]]]].
    rewrite L in L'. injection L' as <-. exists results. auto.
  - intros w results L E A. exact (run_returns pdfplumber_open get w files results L E A).
Qed.

(** Three staged files. *)
Definition sample_stage : list str :=
  [lit "stage/SP2025.L24.CS101.5.pdf"; lit "stage/notes.txt"; lit "stage/lost.PDF"].

Definition sample_get (filename : str) : download :=
  if str_eqb filename (lit "SP2025.L24.CS101.5.pdf") then Content [] else GetRaises.

Definition sample_session : session :=
  {| connect := true;
     ensure_processed_pdfs_table_exists := true;
     LIST := Some sample_stage;
     store_results_in_snowflake := fun _ => true;
     to_csv := fun _ => true;
     close := true |}.

(** A PDF that extracts, a text file and a PDF whose download fails: one
    fragment, and a frame of one row. *)
Lemma batch_keeps_what_extracts_witness :
  ~ mkdtemp_fails sample_get sample_stage /\
  exists results,
    process_files no_pdf sample_get sample_stage [] = Ok results /\
    List.length results = 1 /\
    process_pdfs_from_snowflake no_pdf sample_get sample_session
    = Ok (map frame_row_of results).
Proof.
  assert (N : ~ mkdtemp_fails sample_get sample_stage).
  { intros [p [I [_ G]]].
    destruct I as [<-|[<-|[<-|[]]]]; vm_compute in G; discriminate G. }
  split; [exact N|].
  destruct (batch_keeps_what_extracts no_pdf sample_get sample_stage)
    as [A [_ [_ R]]].
  destruct (A N) as [results [E [F _]]].
  exists results. split; [exact E|]. split.
  - rewrite <- (Forall2_length F). vm_compute. reflexivity.
  - apply (R sample_session results); [reflexivity | exact E |].
    repeat split; reflexivity.
Defined.

End BatchProofs.

(* ------------------------------------------------------------------ *)
(** ** The table of ratings *)
(* ------------------------------------------------------------------ *)
Module TableProofs.
Import Text ProcessPdfs ScrapeProfessorRatings ScrapeTable ProcessPdfsBatch TrimFacts.

(** *** Ids and requests *)

Lemma numeral_inj (z1 z2 : Z) : numeral z1 = numeral z2 -> z1 = z2.
Proof.
  unfold numeral. intro H.
  apply (f_equal string_of_list_ascii) in H.
  rewrite !string_of_list_ascii_of_string in H.
  apply (f_equal NilZero.int_of_string) in H.
  assert (NN : forall z, Z.to_int z <> Decimal.Pos Decimal.Nil /\
                         Z.to_int z <> Decimal.Neg Decimal.Nil).
  { intros [|p|p]; simpl; split; try discriminate;
      intro E; injection E as E; exact (Unsigned.to_uint_nonnil p E). }
  rewrite !NilZero.isi in H by apply NN.
  injection H as H. apply (f_equal Z.of_int) in H.
  rewrite !DecimalZ.of_to in H. exact H.
Qed.

Lemma numeral_nonempty (z : Z) : numeral z <> [].
Proof.
  unfold numeral. intro H.
  apply (f_equal string_of_list_ascii) in H.
  rewrite string_of_list_ascii_of_string in H. simpl in H.
  assert (U : forall d, NilZero.string_of_uint d <> EmptyString).
  { intros [| | | | | | | | | |]; simpl; discriminate. }
  destruct (Z.to_int z) as [d|d]; simpl in H; [exact (U d H) | discriminate].
Qed.

Definition no_space (s : str) : Prop :=
  forallb (fun c => negb (isspace c)) s = true.

Lemma uint_no_space (d : Decimal.uint) :
  no_space (list_ascii_of_string (NilEmpty.string_of_uint d)).
Proof.
  unfold no_space.
  induction d; cbn [NilEmpty.string_of_uint list_ascii_of_string forallb];
    try rewrite IHd; reflexivity.
Qed.

Lemma numeral_no_space (z : Z) : no_space (numeral z).
Proof.
  unfold numeral, NilZero.string_of_int, NilZero.string_of_uint.
  destruct (Z.to_int z) as [d|d].
  - destruct d; try apply uint_no_space. reflexivity.
  - unfold no_space. cbn [list_ascii_of_string forallb].
    apply andb_true_iff. split; [reflexivity|].
    destruct d; try apply uint_no_space. reflexivity.
Qed.

Lemma strip_no_space (s : str) : no_space s -> strip s = s.
Proof.
  unfold no_space. intro F. rewrite strip_trim_by. apply trim_by_fix.
  - intros c t ->. rewrite forallb_forall in F.
    apply negb_true_iff. apply F. left. reflexivity.
  - intros c t E. rewrite forallb_forall in F.
    apply negb_true_iff. apply F. apply in_rev. rewrite E. left. reflexivity.
Qed.

(** Whatever the rounding, the cleaned id is the numeral of some whole
    number. *)
Lemma rmp_id_clean_numeral (z : Z) : exists v, rmp_id_clean z = numeral v.
Proof.
  unfold rmp_id_clean. destruct (float_of_int z) as [v|].
  - exists v. apply strip_no_space, numeral_no_space.
  - exists z. reflexivity.
Qed.

Lemma rmp_id_clean_nonempty (z : Z) : rmp_id_clean z <> [].
Proof.
  destruct (rmp_id_clean_numeral z) as [v ->]. apply numeral_nonempty.
Qed.

(** The id is held exactly by a float. *)
Definition exact_in_float (z : Z) : Prop := (Z.abs z < 2 ^ 53)%Z.

Lemma rmp_id_clean_exact (z : Z) : exact_in_float z -> rmp_id_clean z = numeral z.
Proof.
  unfold exact_in_float, rmp_id_clean, float_of_int. intro H.
  apply Z.ltb_lt in H. cbv zeta. rewrite H.
  apply strip_no_space, numeral_no_space.
Qed.

Lemma url_inj (a b : str) : url a = url b -> a = b.
Proof. unfold url. apply app_inv_head. Qed.

Lemma existsb_Zeqb (x : Z) (l : list Z) : existsb (Z.eqb x) l = true <-> In x l.
Proof.
  rewrite existsb_exists. split.
  - intros [y [H E]]. apply Z.eqb_eq in E. subst. exact H.
  - intro H. exists x. split; [exact H | apply Z.eqb_refl].
Qed.

Lemma unique_from_In (seen l : list Z) (x : Z) :
  In x (unique_from seen l) <-> In x l /\ ~ In x seen.
Proof.
  revert seen. induction l as [|y l IH]; intro seen; simpl.
  - tauto.
  - destruct (existsb (Z.eqb y) seen) eqn:E.
    + apply existsb_Zeqb in E. rewrite IH. split.
      * intros [H N]. auto.
      * intros [[->|H] N]; [contradiction | auto].
    + assert (Ny : ~ In y seen).
      { intro H. apply existsb_Zeqb in H. congruence. }
      simpl. rewrite IH. simpl. split.
      * intros [->|[H N]]; [auto | split; [auto | intro; apply N; auto]].
      * intros [[->|H] N]; [auto|].
        destruct (Z.eq_dec y x) as [->|D]; [auto|].
        right. split; [exact H|]. intros [->|S]; contradiction.
Qed.

Lemma unique_from_NoDup (seen l : list Z) : NoDup (unique_from seen l).
Proof.
  revert seen. induction l as [|y l IH]; intro seen; simpl; [constructor|].
  destruct (existsb (Z.eqb y) seen); [apply IH|].
  constructor; [|apply IH].
  rewrite unique_from_In. intros [_ N]. apply N. left. reflexivity.
Qed.

Lemma dropna_In {A : Type} (l : list (option A)) (x : A) :
  In x (dropna l) <-> In (Some x) l.
Proof.
  induction l as [|[y|] l IH]; simpl.
  - tauto.
  - rewrite IH. split; intros [H|H]; auto; [left; congruence|].
    injection H as ->. auto.
  - rewrite IH. split; [auto | intros [H|H]; [discriminate | exact H]].
Qed.

Section Table.

Variable requests_get : str -> response.

Lemma scrape_all_requested (ids : list Z) (d : list (str * rating_info))
    (requested : list str) :
  snd (scrape_all requests_get ids d requested)
  = requested ++ map (fun z => url (rmp_id_clean z)) ids.
Proof.
  revert d requested. induction ids as [|z ids IH]; intros d requested.
  - simpl. rewrite app_nil_r. reflexivity.
  - cbn [scrape_all map]. cbv zeta.
    assert (R : scrape_requests (rmp_id_clean z) = [url (rmp_id_clean z)]).
    { unfold scrape_requests. pose proof (rmp_id_clean_nonempty z).
      destruct (rmp_id_clean z); [contradiction | reflexivity]. }
    rewrite R.
    destruct (scrape_professor_rating requests_get (rmp_id_clean z));
      rewrite IH, <- app_assoc; reflexivity.
Qed.

(** The dictionary answers, for an id of the loop, with what the page of
    that id yields. *)
Lemma scrape_all_lookup (ids : list Z) (d : list (str * rating_info))
    (requested : list str) (k : str) :
  lookup k (fst (scrape_all requests_get ids d requested))
  = match (if in_dec (list_eq_dec ascii_dec) k (map rmp_id_clean ids)
           then scrape_professor_rating requests_get k else None) with
    | Some info => Some info
    | None => lookup k d
    end.
Proof.
  revert d requested. induction ids as [|z ids IH]; intros d requested.
  - reflexivity.
  - cbn [scrape_all map]. cbv zeta.
    destruct (list_eq_dec ascii_dec (rmp_id_clean z) k) as [K|K].
    + subst k.
      destruct (in_dec (list_eq_dec ascii_dec) (rmp_id_clean z)
                       (rmp_id_clean z :: map rmp_id_clean ids)) as [_|J];
        [|exfalso; apply J; left; reflexivity].
      destruct (scrape_professor_rating requests_get (rmp_id_clean z)) as [info|] eqn:S;
        rewrite IH;
        destruct (in_dec (list_eq_dec ascii_dec) (rmp_id_clean z)
                         (map rmp_id_clean ids)); try reflexivity.
      cbn [lookup]. rewrite (proj2 (ScrapeProofs.str_eqb_eq _ _) eq_refl). reflexivity.
    + assert (L : forall info, lookup k ((rmp_id_clean z, info) :: d) = lookup k d).
      { intro info. cbn [lookup].
        destruct (str_eqb (rmp_id_clean z) k) eqn:E; [|reflexivity].
        apply ScrapeProofs.str_eqb_eq in E. contradiction. }
      destruct (scrape_professor_rating requests_get (rmp_id_clean z)) as [info|];
        rewrite IH, ?L;
        destruct (in_dec (list_eq_dec ascii_dec) k (map rmp_id_clean ids)) as [I|I];
        destruct (in_dec (list_eq_dec ascii_dec) k
                         (rmp_id_clean z :: map rmp_id_clean ids)) as [J|J];
        try reflexivity;
        try (exfalso; apply J; right; exact I);
        destruct J as [J|J]; contradiction.
Qed.

End Table.

(** The scraped columns of a row are those of the page [info], its tags
    joined in some order, or all null when there is none. *)
Definition carries (r : enriched_row) (info : option rating_info) : Prop :=
  match info with
  | Some i =>
      row_scraped_overall_rating r = scraped_overall_rating i /\
      row_would_take_again r = would_take_again i /\
      row_difficulty r = difficulty i /\
      exists order, Permutation order (tags i) /\
                    row_tags r = Some (join_comma order)
  | None =>
      row_scraped_overall_rating r = None /\ row_would_take_again r = None /\
      row_difficulty r = None /\ row_tags r = None
  end.

Definition scraped_columns (r : enriched_row)
    : option str * option str * option str * option str :=
  (row_scraped_overall_rating r, row_would_take_again r, row_difficulty r, row_tags r).

Lemma enrich_columns (set_iter : list str -> list str)
    (d : list (str * rating_info)) (f1 f2 : CourseFragment) :
  ProcessPdfs.rmp_id f1 = ProcessPdfs.rmp_id f2 ->
  scraped_columns (enrich set_iter d f1) = scraped_columns (enrich set_iter d f2).
Proof.
  intro E. unfold enrich. rewrite E.
  destruct (ProcessPdfs.rmp_id f2) as [id|]; [|reflexivity].
  destruct (lookup (rmp_id_clean id) d); reflexivity.
Qed.

Lemma tags_order_perm (set_iter : list str -> list str) (ts : list str) :
  (forall l, Permutation (set_iter l) l) -> Permutation (tags_order set_iter ts) ts.
Proof.
  intro P. destruct ts as [|t ts]; [constructor | apply P].
Qed.

(** When the table is written, its rows are the merged fragments in
    order, and each row carries exactly what the rating page requested
    for its id yields, the page being the one at the numeral
    [str(int(float(id)))], which is the id's own numeral when a float
    holds the id exactly: a row with a null id, or whose page could not
    be fetched or parsed, has the four scraped columns null, and every
    other row has the fields of that page, its tags joined in the order
    the set is walked in.  Rows that share an id share their scraped
    columns. *)
Theorem every_row_carries_the_page_of_its_id
    (requests_get : str -> response) (set_iter : list str -> list str)
    (df : list CourseFragment)
    (csv_df : list csv_row) (rows : list enriched_row) (requested : list str) :
  (forall l, Permutation (set_iter l) l) ->
  scrape_professor_ratings_table requests_get set_iter df csv_df
  = (Some rows, requested) ->
  map fragment rows = merge_input_csv df csv_df /\
  (forall r, In r rows ->
     carries r match ProcessPdfs.rmp_id (fragment r) with
               | Some id => scrape_professor_rating requests_get (rmp_id_clean id)
               | None => None
               end) /\
  (forall r id, In r rows -> ProcessPdfs.rmp_id (fragment r) = Some id ->
     exact_in_float id ->
     carries r (scrape_professor_rating requests_get (numeral id))) /\
  (forall r1 r2, In r1 rows -> In r2 rows ->
     ProcessPdfs.rmp_id (fragment r1) = ProcessPdfs.rmp_id (fragment r2) ->
     row_scraped_overall_rating r1 = row_scraped_overall_rating r2 /\
     row_would_take_again r1 = row_would_take_again r2 /\
     row_difficulty r1 = row_difficulty r2 /\ row_tags r1 = row_tags r2).
Proof.
  intro Perm. unfold scrape_professor_ratings_table.
  destruct df as [|f0 df0]; [discriminate|].
  set (df := merge_input_csv (f0 :: df0) csv_df).
  destruct (dropna (map ProcessPdfs.rmp_id df)) as [|i0 is0] eqn:D; [discriminate|].
  destruct (scrape_all requests_get (unique_ids df) [] []) as [d req] eqn:S.
  intro H. injection H as <- <-.
  assert (F : forall f, fragment (enrich set_iter d f) = f).
  { intro f. unfold enrich.
    destruct (ProcessPdfs.rmp_id f); [|reflexivity].
    destruct (lookup _ d); reflexivity. }
  assert (C : forall r, In r (map (enrich set_iter d) df) ->
            carries r match ProcessPdfs.rmp_id (fragment r) with
                      | Some id => scrape_professor_rating requests_get (rmp_id_clean id)
                      | None => None
                      end).
  { intros r Hr. apply in_map_iff in Hr. destruct Hr as [f [<- Hf]].
    rewrite F. unfold enrich. destruct (ProcessPdfs.rmp_id f) as [id|] eqn:I;
      [|cbn; auto].
    replace d with (fst (scrape_all requests_get (unique_ids df) [] []))
      by (rewrite S; reflexivity).
    rewrite scrape_all_lookup.
    destruct (in_dec (list_eq_dec ascii_dec) (rmp_id_clean id)
                     (map rmp_id_clean (unique_ids df))) as [_|N].
    - destruct (scrape_professor_rating requests_get (rmp_id_clean id)) as [info|] eqn:P;
        cbn; [|auto].
      split; [reflexivity|]. split; [reflexivity|]. split; [reflexivity|].
      eexists. split; [apply (tags_order_perm set_iter _ Perm) | reflexivity].
    - exfalso. apply N. apply in_map. unfold unique_ids.
      apply unique_from_In. split; [|intros []].
      apply dropna_In. rewrite <- I. apply in_map. exact Hf. }
  split; [|split; [|split]].
  - rewrite map_map. transitivity (map (fun x : CourseFragment => x) df);
      [|apply map_id].
    apply map_ext. exact F.
  - exact C.
  - intros r id Hr I X. pose proof (C r Hr) as Cr.
    rewrite I, (rmp_id_clean_exact id X) in Cr. exact Cr.
  - intros r1 r2 H1 H2 E.
    apply in_map_iff in H1. destruct H1 as [f1 [<- _]].
    apply in_map_iff in H2. destruct H2 as [f2 [<- _]].
    rewrite !F in E.
    pose proof (enrich_columns set_iter d f1 f2 E) as Q.
    unfold scraped_columns in Q. injection Q as Q1 Q2 Q3 Q4. auto.
Qed.

Definition sample_rows : list enriched_row :=
  [{| fragment := ScrapeProofs.sample_fragment;
      row_scraped_overall_rating := Some (lit "3.9");
      row_would_take_again := Some (lit "75");
      row_difficulty := Some (lit "2.1");
      row_tags := Some [] |}].

(** A process whose sets are walked in the order of their elements. *)
Definition in_order (l : list str) : list str := l.

Lemma sample_table :
  scrape_professor_ratings_table ScrapeProofs.sample_page in_order
    [ScrapeProofs.sample_fragment] []
  = (Some sample_rows,
     [lit "https://www.ratemyprofessors.com/professor/111"]).
Proof. vm_compute. reflexivity. Qed.

(** One fragment with the id 111, no input.csv: the row carries the page
    requested for 111. *)
Lemma every_row_carries_the_page_of_its_id_witness :
  (forall l, Permutation (in_order l) l) /\
  scrape_professor_ratings_table ScrapeProofs.sample_page in_order
    [ScrapeProofs.sample_fragment] []
  = (Some sample_rows, [lit "https://www.ratemyprofessors.com/professor/111"]) /\
  map fragment sample_rows = merge_input_csv [ScrapeProofs.sample_fragment] [].
Proof.
  assert (P : forall l, Permutation (in_order l) l) by (intro l; apply Permutation_refl).
  split; [exact P|]. split; [exact sample_table|].
  exact (proj1 (every_row_carries_the_page_of_its_id ScrapeProofs.sample_page in_order
                  [ScrapeProofs.sample_fragment] [] sample_rows _ P sample_table)).
Defined.

(** Every distinct non-null id of the merged frame is requested, in
    order of first appearance, at the professor url of the numeral
    [str(int(float(id)))], however many rows share it; and when the
    function returns without writing (an empty frame, or no id at all)
    nothing is requested.  When a float holds every id exactly (ids below
    2^53 in absolute value) that numeral is the id's own, ids that differ
    are requested at urls that differ and no url is requested twice;
    2^53 + 1 is not such an id, it is requested at the url of 2^53. *)
Theorem each_id_requested_once
    (requests_get : str -> response) (set_iter : list str -> list str)
    (df : list CourseFragment) (csv_df : list csv_row) :
  let merged := merge_input_csv df csv_df in
  let out := scrape_professor_ratings_table requests_get set_iter df csv_df in
  (fst out = None -> snd out = []) /\
  (fst out <> None ->
   snd out = map (fun id => url (rmp_id_clean id)) (unique_ids merged) /\
   NoDup (unique_ids merged) /\
   forall id, In id (unique_ids merged)
              <-> In (Some id) (map ProcessPdfs.rmp_id merged)) /\
  ((forall id, In (Some id) (map ProcessPdfs.rmp_id merged) -> exact_in_float id) ->
   NoDup (snd out) /\
   (fst out <> None ->
    snd out = map (fun id => url (numeral id)) (unique_ids merged) /\
    forall id, In (url (numeral id)) (snd out)
               <-> In (Some id) (map ProcessPdfs.rmp_id merged))) /\
  rmp_id_clean (2 ^ 53 + 1) = rmp_id_clean (2 ^ 53).
Proof.
  intros merged out.
  assert (M : forall id, In id (unique_ids merged)
                         <-> In (Some id) (map ProcessPdfs.rmp_id merged)).
  { intro id. unfold unique_ids. rewrite unique_from_In, dropna_In. tauto. }
  assert (U : NoDup (unique_ids merged)) by apply unique_from_NoDup.
  assert (R : fst out <> None ->
              snd out = map (fun id => url (rmp_id_clean id)) (unique_ids merged)).
  { subst out merged. unfold scrape_professor_ratings_table.
    destruct df as [|f0 df0]; [intro H; contradiction|].
    destruct (dropna (map ProcessPdfs.rmp_id (merge_input_csv (f0 :: df0) csv_df)));
      [intro H; contradiction|].
    pose proof (scrape_all_requested requests_get
                  (unique_ids (merge_input_csv (f0 :: df0) csv_df)) [] []) as Q.
    destruct (scrape_all requests_get
                (unique_ids (merge_input_csv (f0 :: df0) csv_df)) [] []) as [d req].
    intros _. exact Q. }
  assert (E : fst out = None -> snd out = []).
  { subst out merged. unfold scrape_professor_ratings_table.
    destruct df as [|f0 df0]; [reflexivity|].
    destruct (dropna (map ProcessPdfs.rmp_id (merge_input_csv (f0 :: df0) csv_df)));
      [reflexivity|].
    destruct (scrape_all requests_get
                (unique_ids (merge_input_csv (f0 :: df0) csv_df)) [] []) as [d req].
    discriminate. }
  split; [exact E|]. split; [auto|]. split; [|vm_compute; reflexivity].
  intro X.
  assert (R' : fst out <> None ->
               snd out = map (fun id => url (numeral id)) (unique_ids merged)).
  { intro H. rewrite (R H). apply map_ext_in. intros id I.
    rewrite rmp_id_clean_exact; [reflexivity|]. apply X, M, I. }
  assert (N : NoDup (map (fun id => url (numeral id)) (unique_ids merged))).
  { clear - U. induction U as [|a l Ha U IH]; [constructor|].
    cbn [map]. constructor; [|exact IH].
    intro H. apply in_map_iff in H. destruct H as [b [E Hb]].
    apply url_inj, numeral_inj in E. subst b. contradiction. }
  split.
  - destruct (fst out) as [rows|] eqn:O.
    + rewrite R' by discriminate. exact N.
    + rewrite (E eq_refl). constructor.
  - intro H. split; [exact (R' H)|].
    intro id. rewrite (R' H), in_map_iff. split.
    + intros [id' [Q I]]. apply url_inj, numeral_inj in Q. subst id'. apply M, I.
    + intro I. exists id. split; [reflexivity | apply M, I].
Qed.

(** The sample table was written, with one request, for an id a float
    holds exactly. *)
Lemma each_id_requested_once_witness :
  fst (scrape_professor_ratings_table ScrapeProofs.sample_page in_order
         [ScrapeProofs.sample_fragment] []) <> None /\
  (forall id, In (Some id) (map ProcessPdfs.rmp_id
                              (merge_input_csv [ScrapeProofs.sample_fragment] [])) ->
              exact_in_float id) /\
  snd (scrape_professor_ratings_table ScrapeProofs.sample_page in_order
         [ScrapeProofs.sample_fragment] [])
  = map (fun id => url (numeral id))
        (unique_ids (merge_input_csv [ScrapeProofs.sample_fragment] [])).
Proof.
  assert (H : fst (scrape_professor_ratings_table ScrapeProofs.sample_page in_order
                     [ScrapeProofs.sample_fragment] []) <> None)
    by (rewrite sample_table; discriminate).
  assert (X : forall id, In (Some id) (map ProcessPdfs.rmp_id
                              (merge_input_csv [ScrapeProofs.sample_fragment] [])) ->
                         exact_in_float id).
  { intros id [I|[]]. vm_compute in I. injection I as <-. reflexivity. }
  split; [exact H|]. split; [exact X|].
  destruct (each_id_requested_once ScrapeProofs.sample_page in_order
              [ScrapeProofs.sample_fragment] []) as [_ [_ [B _]]].
  exact (proj1 (proj2 (B X) H)).
Defined.

(** *** Cells *)

Lemma nan_spellings (t : str) :
  existsb (str_eqb t) [lit "NAN"; lit "nan"; lit "NaN"; []] = true ->
  t = [] \/ lower t = lit "nan".
Proof.
  cbn [existsb]. rewrite !orb_true_iff, !ScrapeProofs.str_eqb_eq.
  intros [->|[->|[->|[->|H]]]]; auto; discriminate.
Qed.

(** The cell clean-up of the scraper normalises a string once and for
    all: a string cell comes out null when, stripped and lower-cased, it
    reads nan, and otherwise as its stripped text, which the clean-up
    then leaves as it is.  Followed by the null replacement of
    clean_and_store_data, a string cell is null exactly when it is empty
    once stripped or reads nan in any letter case, and is its stripped
    text otherwise. *)
Theorem cell_cleaning_normal_form (s : str) :
  (lower (strip s) = lit "nan" -> clean_cell (IsStr s) = None) /\
  (lower (strip s) <> lit "nan" ->
   clean_cell (IsStr s) = Some (strip s) /\
   clean_cell (IsStr (strip s)) = Some (strip s)) /\
  (CleanAndStore.replace_null_like (clean_cell (IsStr s)) = None <->
   strip s = [] \/ lower (strip s) = lit "nan") /\
  (strip s <> [] -> lower (strip s) <> lit "nan" ->
   CleanAndStore.replace_null_like (clean_cell (IsStr s)) = Some (strip s)).
Proof.
  unfold clean_cell. rewrite strip_idem.
  destruct (str_eqb (lower (strip s)) (lit "nan")) eqn:E.
  - apply ScrapeProofs.str_eqb_eq in E.
    split; [reflexivity|]. split; [intro N; contradiction|].
    split; [split; [auto | reflexivity] | intros _ N; contradiction].
  - assert (N : lower (strip s) <> lit "nan").
    { intro H. apply ScrapeProofs.str_eqb_eq in H. congruence. }
    split; [intro H; contradiction|]. split; [auto|].
    unfold CleanAndStore.replace_null_like.
    destruct (existsb (str_eqb (strip s)) [lit "NAN"; lit "nan"; lit "NaN"; []]) eqn:X.
    + destruct (nan_spellings _ X) as [Z|Z]; [|contradiction].
      split; [split; auto | intros NE; contradiction].
    + split; [|reflexivity].
      split; [discriminate|]. intros [Z|Z]; [|contradiction].
      rewrite Z in X. discriminate X.
Qed.

(** " NaN " is null after the clean-up. *)
Lemma cell_cleaning_normal_form_witness :
  lower (strip (lit " NaN ")) = lit "nan" /\ clean_cell (IsStr (lit " NaN ")) = None.
Proof.
  assert (H : lower (strip (lit " NaN ")) = lit "nan") by reflexivity.
  split; [exact H|].
  exact (proj1 (cell_cleaning_normal_form (lit " NaN ")) H).
Defined.

End TableProofs.

(* ------------------------------------------------------------------ *)
(** ** The frame clean-up on a table the scraper wrote *)
(* ------------------------------------------------------------------ *)
Module CleanFrameProofs.
Import Text CleanAndStore ScrapeTable CleanFrame.

(** No blank in the string. *)
Definition blank_free (s : str) : Prop :=
  forallb (fun c => negb (is_char " "%char c)) s = true.

Lemma blanks_to_underscores_blank_free (s : str) :
  blank_free (blanks_to_underscores s).
Proof.
  unfold blank_free, blanks_to_underscores.
  apply forallb_forall. intros x Hx. apply in_map_iff in Hx.
  destruct Hx as [c [<- _]].
  destruct (is_char " "%char c) eqn:E; [reflexivity | rewrite E; reflexivity].
Qed.

Lemma upper_char_blank (c : ascii) :
  is_char " "%char c = false -> is_char " "%char (upper_char c) = false.
Proof.
  destruct c as [[] [] [] [] [] [] [] []]; vm_compute; intros; try discriminate;
    reflexivity.
Qed.

Lemma upper_blank_free (s : str) : blank_free s -> blank_free (upper s).
Proof.
  unfold blank_free, upper. rewrite !forallb_forall.
  intros H x Hx. apply in_map_iff in Hx. destruct Hx as [c [<- Hc]].
  specialize (H c Hc). apply negb_true_iff in H.
  rewrite (upper_char_blank c H). reflexivity.
Qed.

Lemma ddl_column_blank_free (col : str) : blank_free (upper (ddl_column col)).
Proof. apply upper_blank_free, blanks_to_underscores_blank_free. Qed.

Lemma blank_free_not_would_take_again (s : str) :
  blank_free s -> s <> lit "WOULD TAKE AGAIN".
Proof. intros H ->. vm_compute in H. discriminate. Qed.

Lemma str_eqb_false (a b : str) : a <> b -> str_eqb a b = false.
Proof. unfold str_eqb. destruct (list_eq_dec ascii_dec a b); congruence. Qed.

Lemma convert_names (name : str) (f : value -> value) (df : frame) :
  map fst (convert_if_present name f df) = map fst df.
Proof.
  unfold convert_if_present. rewrite map_map. apply map_ext.
  intros [n cs]. cbn [fst snd]. destruct (str_eqb n name); reflexivity.
Qed.

Lemma convert_other (name : str) (f : value -> value) (df : frame)
    (n : str) (cs : list value) :
  n <> name -> In (n, cs) (convert_if_present name f df) -> In (n, cs) df.
Proof.
  unfold convert_if_present. intros N H. apply in_map_iff in H.
  destruct H as [[n0 cs0] [E H]]. cbn [fst snd] in E.
  destruct (str_eqb n0 name) eqn:Q.
  - injection E as <- _. apply ScrapeProofs.str_eqb_eq in Q. contradiction.
  - rewrite <- E. exact H.
Qed.

(** The percent rule of clean_and_store_data is out of reach of a table
    the scraper wrote.  The scraper names its columns by
    [col.strip().upper().replace(' ', '_')], so no column read back is
    named "WOULD TAKE AGAIN", and the clean-up leaves every column other
    than OVERALL_RATING, RMP_RATING and DIFFICULTY with its cells only
    null-replaced: the would_take_again cells stay the strings that were
    scraped, neither parsed nor divided by 100. *)
Theorem percent_rule_skips_scraper_tables
    (to_numeric : cell -> option Q) (cols : list str) (df : frame) :
  Forall is_ascii cols ->
  map fst df = map ddl_column cols ->
  ~ In (lit "WOULD TAKE AGAIN") (map fst (clean_frame to_numeric df)) /\
  map fst (clean_frame to_numeric df) = map upper (map ddl_column cols) /\
  forall name cells,
    In (name, cells) (clean_frame to_numeric df) ->
    name <> lit "OVERALL_RATING" -> name <> lit "RMP_RATING" ->
    name <> lit "DIFFICULTY" ->
    exists name0 cells0,
      In (name0, cells0) df /\ name = upper name0 /\
      cells = map replace_nulls cells0.
Proof.
  intros _ Names.
  assert (N : map fst (clean_frame to_numeric df) = map upper (map ddl_column cols)).
  { rewrite <- Names. unfold clean_frame. cbv zeta.
    rewrite !convert_names, !map_map. reflexivity. }
  assert (G : ~ In (lit "WOULD TAKE AGAIN") (map fst (clean_frame to_numeric df))).
  { rewrite N. intro H. apply in_map_iff in H. destruct H as [c [E H]].
    apply in_map_iff in H. destruct H as [col [<- _]].
    exact (blank_free_not_would_take_again _ (ddl_column_blank_free col) E). }
  split; [exact G|]. split; [exact N|].
  intros name cells H N1 N2 N3.
  assert (N4 : name <> lit "WOULD TAKE AGAIN").
  { intro E. apply G. rewrite <- E. apply (in_map fst) in H. exact H. }
  unfold clean_frame in H. cbv zeta in H.
  apply (convert_other _ _ _ _ _ N4) in H.
  apply (convert_other _ _ _ _ _ N3) in H.
  apply (convert_other _ _ _ _ _ N2) in H.
  apply (convert_other _ _ _ _ _ N1) in H.
  apply in_map_iff in H. destruct H as [[n1 c1] [E H]]. cbn [fst snd] in E.
  apply in_map_iff in H. destruct H as [[n0 c0] [E0 H]]. cbn [fst snd] in E0.
  injection E0 as <- <-. injection E as <- <-.
  exists n0, c0. auto.
Qed.

(** The columns of the frame the scraper holds when it writes its table:
    those of APP_PROCESSED_PDFS lower-cased, and the four it adds. *)
Definition scraper_columns : list str :=
  map (fun c => strip (ScrapeProfessorRatings.lower c))
      ProcessPdfsBatch.APP_PROCESSED_PDFS_columns
  ++ [lit "scraped_overall_rating"; lit "would_take_again"; lit "difficulty";
      lit "tags"].

Definition sample_frame : frame :=
  map (fun c => (ddl_column c,
                 if str_eqb c (lit "would_take_again") then [Str (lit "75")]
                 else [Null]))
      scraper_columns.

(** The pipeline's own columns: WOULD_TAKE_AGAIN keeps the string "75". *)
Lemma percent_rule_skips_scraper_tables_witness :
  Forall is_ascii scraper_columns /\
  map fst sample_frame = map ddl_column scraper_columns /\
  ~ In (lit "WOULD TAKE AGAIN")
       (map fst (clean_frame to_numeric_decimal sample_frame)) /\
  In (lit "WOULD_TAKE_AGAIN", [Str (lit "75")])
     (clean_frame to_numeric_decimal sample_frame).
Proof.
  assert (A : Forall is_ascii scraper_columns)
    by (repeat constructor).
  assert (B : map fst sample_frame = map ddl_column scraper_columns)
    by reflexivity.
  split; [exact A|]. split; [exact B|].
  split.
  - exact (proj1 (percent_rule_skips_scraper_tables to_numeric_decimal
                    scraper_columns sample_frame A B)).
  - vm_compute. do 9 right. left. reflexivity.
Defined.

End CleanFrameProofs.

(* ------------------------------------------------------------------ *)
(** ** Standardization: further properties *)
(* ------------------------------------------------------------------ *)
Module StandardizationMore.
Import Text Standardization ResolverProofs TrimFacts.

(** *** The rank of the survivor *)

(** The record that survives in a group is one whose three ORDER BY
    terms (in-document rating missing, external rating missing, course
    name missing) are lexicographically least in the group.  So a
    survivor lacks the in-document rating only if the whole group does,
    and between records tied on that, lacks the external rating only if
    all of them do. *)
Theorem survivor_has_least_rank (TO_NUMBER : option Q -> option Q)
    (rows : list source_row) (r x : source_row) :
  In r (rank_one_rows TO_NUMBER rows) -> In x rows ->
  partition_key x = partition_key r ->
  order_le (order_key TO_NUMBER r) (order_key TO_NUMBER x) = true /\
  (TO_NUMBER (OVERALL_RATING x) <> None -> TO_NUMBER (OVERALL_RATING r) <> None) /\
  ((TO_NUMBER (OVERALL_RATING x) = None <-> TO_NUMBER (OVERALL_RATING r) = None) ->
   TO_NUMBER (SCRAPED_OVERALL_RATING x) <> None ->
   TO_NUMBER (SCRAPED_OVERALL_RATING r) <> None).
Proof.
  intros Hr Hx K.
  assert (L : order_le (order_key TO_NUMBER r) (order_key TO_NUMBER x) = true).
  { apply (ones_In TO_NUMBER [] rows r) in Hr.
    destruct Hr as [l1 [l2 [E [B A]]]]. cbn [app] in B.
    rewrite E in Hx. apply in_app_or in Hx. destruct Hx as [Hx|[<-|Hx]].
    - specialize (B x Hx K). unfold order_le.
      rewrite (order_lt_asym _ _ B). reflexivity.
    - apply order_le_refl.
    - exact (A x Hx K). }
  split; [exact L|].
  unfold order_key in L.
  destruct (TO_NUMBER (OVERALL_RATING x)) as [a|];
    destruct (TO_NUMBER (OVERALL_RATING r)) as [b|];
    destruct (TO_NUMBER (SCRAPED_OVERALL_RATING x)) as [c|];
    destruct (TO_NUMBER (SCRAPED_OVERALL_RATING r)) as [d|];
    destruct (TRIM (COURSE_NAME x)); destruct (TRIM (COURSE_NAME r));
    cbn in L; try discriminate L;
    (split; [intro; congruence | intros [I1 I2] N; try discriminate;
             try (specialize (I1 eq_refl); discriminate);
             try (specialize (I2 eq_refl); discriminate);
             try congruence]).
Qed.

(** In the sample group the rated row survives and is least. *)
Lemma survivor_has_least_rank_witness :
  In (sample_row "Jane A Doe" (Some 4.5%Q))
     (rank_one_rows TO_NUMBER_38_0
        [sample_row "Doe" None; sample_row "Jane A Doe" (Some 4.5%Q)]) /\
  order_le (order_key TO_NUMBER_38_0 (sample_row "Jane A Doe" (Some 4.5%Q)))
           (order_key TO_NUMBER_38_0 (sample_row "Doe" None)) = true.
Proof.
  assert (H : In (sample_row "Jane A Doe" (Some 4.5%Q))
                (rank_one_rows TO_NUMBER_38_0
                   [sample_row "Doe" None; sample_row "Jane A Doe" (Some 4.5%Q)]))
    by (vm_compute; left; reflexivity).
  split; [exact H|].
  apply (survivor_has_least_rank TO_NUMBER_38_0 _ _ (sample_row "Doe" None) H).
  - left. reflexivity.
  - reflexivity.
Defined.

(** *** How many records come out *)

Lemma nodup_keys_length (l1 l2 : list key) :
  NoDup l1 -> NoDup l2 -> (forall k, In k l1 <-> In k l2) ->
  List.length l1 = List.length l2.
Proof.
  intros N1 N2 H. apply Permutation_length.
  apply NoDup_Permutation; assumption.
Qed.

(** The output table has exactly as many records as the input has
    distinct identity keys: never more than the input, and none only when
    the input is empty. *)
Theorem output_counts_distinct_keys (TO_NUMBER : option Q -> option Q)
    (rows : list source_row) :
  List.length (WASHU_COURSES_STANDARDIZED TO_NUMBER rows)
  = List.length (nodup key_eq_dec (map partition_key rows)) /\
  List.length (WASHU_COURSES_STANDARDIZED TO_NUMBER rows) <= List.length rows /\
  (WASHU_COURSES_STANDARDIZED TO_NUMBER rows = [] <-> rows = []).
Proof.
  rewrite standardized_as_rank_one, length_map.
  assert (E : List.length (rank_one_rows TO_NUMBER rows)
              = List.length (nodup key_eq_dec (map partition_key rows))).
  { rewrite <- (length_map partition_key (rank_one_rows TO_NUMBER rows)).
    apply nodup_keys_length.
    - apply ones_keys_NoDup.
    - apply NoDup_nodup.
    - intro k. rewrite nodup_In, !in_map_iff. split.
      + intros [r [<- Hr]]. exists r. split; [reflexivity|].
        exact (ones_sub TO_NUMBER [] rows r Hr).
      + intros [r [<- Hr]].
        destruct (ones_cover TO_NUMBER rows r Hr) as [r' [Hr' K]].
        exists r'. auto. }
  split; [exact E|]. split.
  - rewrite E.
    rewrite <- (length_map partition_key rows).
    apply NoDup_incl_length; [apply NoDup_nodup|].
    intros k Hk. apply nodup_In in Hk. exact Hk.
  - split.
    + intro H. destruct rows as [|r rows]; [reflexivity|].
      destruct (ones_cover TO_NUMBER (r :: rows) r (or_introl eq_refl)) as [r' [Hr' _]].
      apply map_eq_nil in H. unfold rank_one_rows in H.
      unfold ones in Hr'. rewrite H in Hr'. destruct Hr'.
    + intros ->. reflexivity.
Qed.

(** *** The scale transform on its range *)



(** *** The strings of the output table *)

Lemma TRIM_idem (x : option str) : TRIM (TRIM x) = TRIM x.
Proof.
  destruct x as [s|]; [|reflexivity]. cbn [TRIM option_map]. f_equal.
  exact (trim_by_idem is_blank s).
Qed.

Lemma takewhile_all (q : ascii -> bool) (s : str) :
  forallb q (takewhile q s) = true.
Proof.
  induction s as [|c s IH]; [reflexivity|].
  simpl. destruct (q c) eqn:E; [|reflexivity]. simpl. rewrite E, IH. reflexivity.
Qed.

Lemma takewhile_split (q : ascii -> bool) (s : str) :
  exists rest, s = takewhile q s ++ rest /\
               forall c t, rest = c :: t -> q c = false.
Proof.
  induction s as [|c s [rest [E H]]].
  - exists []. split; [reflexivity | discriminate].
  - simpl. destruct (q c) eqn:Q.
    + exists rest. split; [simpl; f_equal; exact E | exact H].
    + exists (c :: s). split; [reflexivity|].
      intros c' t X. injection X as <- _. exact Q.
Qed.

Lemma takewhile_nonempty (q : ascii -> bool) (c : ascii) (s : str) :
  q c = true -> takewhile q (c :: s) <> [].
Proof. intro H. simpl. rewrite H. discriminate. Qed.

(** What [SPLIT_PART(x, ' ', -1)] returns for a string. *)
Definition last_part (s : str) : str :=
  rev (takewhile (fun c => negb (is_blank c)) (rev s)).

Lemma last_part_spec (s : str) :
  CleanFrameProofs.blank_free (last_part s) /\
  exists pre, s = pre ++ last_part s /\
              forall c t, rev pre = c :: t -> c = " "%char.
Proof.
  unfold last_part. split.
  - unfold CleanFrameProofs.blank_free. apply forallb_forall. intros c Hc.
    apply in_rev in Hc.
    pose proof (takewhile_all (fun c => negb (is_blank c)) (rev s)) as A.
    rewrite forallb_forall in A. exact (A c Hc).
  - destruct (takewhile_split (fun c => negb (is_blank c)) (rev s)) as [rest [E H]].
    exists (rev rest). split.
    + rewrite <- rev_app_distr, <- E, rev_involutive. reflexivity.
    + rewrite rev_involutive. intros c t X. specialize (H c t X).
      apply negb_false_iff in H. unfold is_blank, is_char in H.
      apply Ascii.eqb_eq in H. symmetry. exact H.
Qed.

(** Every string of the output table is trimmed, and the professor's
    short name is the blank-free tail of the full name: the full name is
    some prefix, empty or ending in a blank, followed by the short name,
    which is empty only if the full name is.  The identity key computed
    again from the output columns is the key the record already has, and
    the short name is null exactly when the full name is. *)
Theorem output_strings_are_trimmed (TO_NUMBER : option Q -> option Q)
    (rows : list source_row) (s : standardized_row) :
  In s (WASHU_COURSES_STANDARDIZED TO_NUMBER rows) ->
  (TRIM (s_FULL_PROFESSOR_NAME s) = s_FULL_PROFESSOR_NAME s /\
   TRIM (s_COURSE_CODE s) = s_COURSE_CODE s /\
   TRIM (s_COURSE_NAME s) = s_COURSE_NAME s /\
   TRIM (s_SEMESTER s) = s_SEMESTER s /\
   TRIM (s_SECTION s) = s_SECTION s /\
   TRIM (s_TAGS s) = s_TAGS s) /\
  (SPLIT_PART_last (TRIM (s_FULL_PROFESSOR_NAME s)), TRIM (s_COURSE_CODE s),
   TRIM (s_SEMESTER s), TRIM (s_SECTION s)) = standardized_key s /\
  (s_PROFESSOR_NAME s = None <-> s_FULL_PROFESSOR_NAME s = None) /\
  (forall p, s_PROFESSOR_NAME s = Some p ->
     CleanFrameProofs.blank_free p /\
     exists full pre,
       s_FULL_PROFESSOR_NAME s = Some full /\ full = pre ++ p /\
       (forall c t, rev pre = c :: t -> c = " "%char) /\
       (p = [] -> full = [])).
Proof.
  rewrite standardized_as_rank_one. intro H.
  apply in_map_iff in H. destruct H as [r [<- _]].
  unfold canonical, standardized_key.
  cbn [select normalize s_FULL_PROFESSOR_NAME s_COURSE_CODE s_COURSE_NAME
       s_SEMESTER s_SECTION s_TAGS s_PROFESSOR_NAME n_ORIGINAL_PROFESSOR_NAME
       n_PROFESSOR_NAME n_COURSE_CODE n_COURSE_NAME n_SEMESTER n_SECTION n_TAGS].
  rewrite !TRIM_idem.
  split; [repeat split|]. split; [reflexivity|]. split.
  - destruct (TRIM (PROFESSOR r)); unfold SPLIT_PART_last; cbn [option_map];
      split; intro X; (discriminate X || reflexivity).
  - intros p E.
    destruct (TRIM (PROFESSOR r)) as [full|] eqn:T; [|discriminate].
    cbn [SPLIT_PART_last option_map] in E. injection E as <-.
    fold (last_part full).
    destruct (last_part_spec full) as [B [pre [S L]]].
    split; [exact B|]. exists full, pre.
    split; [reflexivity|]. split; [exact S|]. split; [exact L|].
    intro Z. destruct full as [|c0 full0]; [reflexivity|]. exfalso.
    assert (Tr : trim_by is_blank (c0 :: full0) = c0 :: full0).
    { destruct (PROFESSOR r) as [s0|]; [|discriminate].
      cbn [TRIM option_map] in T. injection T as T.
      change (trim_by is_blank s0 = c0 :: full0) in T.
      rewrite <- T. apply trim_by_idem. }
    destruct (rev (c0 :: full0)) as [|y ys] eqn:R.
    { apply (f_equal (@List.length ascii)) in R. rewrite length_rev in R.
      discriminate R. }
    assert (Y : is_blank y = false).
    { destruct (trim_by_ends is_blank (c0 :: full0)) as [_ E2].
      rewrite Tr in E2. exact (E2 y ys R). }
    unfold last_part in Z. rewrite R in Z.
    apply (f_equal (@rev ascii)) in Z. rewrite rev_involutive in Z.
    apply (takewhile_nonempty (fun c => negb (is_blank c)) y ys); [|exact Z].
    rewrite Y. reflexivity.
Qed.

(** The sample table: the one record's short name is Doe. *)
Lemma output_strings_are_trimmed_witness :
  In (canonical TO_NUMBER_38_0 (sample_row " Jane A Doe " (Some 4.5%Q)))
     (WASHU_COURSES_STANDARDIZED TO_NUMBER_38_0
        [sample_row " Jane A Doe " (Some 4.5%Q)]) /\
  s_PROFESSOR_NAME (canonical TO_NUMBER_38_0 (sample_row " Jane A Doe " (Some 4.5%Q)))
  = Some (lit "Doe") /\
  CleanFrameProofs.blank_free (lit "Doe").
Proof.
  assert (H : In (canonical TO_NUMBER_38_0 (sample_row " Jane A Doe " (Some 4.5%Q)))
                (WASHU_COURSES_STANDARDIZED TO_NUMBER_38_0
                   [sample_row " Jane A Doe " (Some 4.5%Q)]))
    by (vm_compute; left; reflexivity).
  assert (P : s_PROFESSOR_NAME
                (canonical TO_NUMBER_38_0 (sample_row " Jane A Doe " (Some 4.5%Q)))
              = Some (lit "Doe")) by reflexivity.
  split; [exact H|]. split; [exact P|].
  exact (proj1 (proj2 (proj2 (proj2
           (output_strings_are_trimmed TO_NUMBER_38_0 _ _ H))) (lit "Doe") P)).
Defined.

End StandardizationMore.

(* ------------------------------------------------------------------ *)
(** ** Extractor: the section and the course name *)
(* ------------------------------------------------------------------ *)
Module ExtractorTails.
Import Text Regex Exn ProcessPdfs RegexFacts RegexPriority ExtractorProofs
       ExtractorGroups TrimFacts.

Lemma crs_re_first (s : str) (m : match_obj) :
  first_match crs_re s = Some m ->
  exists a sep1 cc sep2 sec rest,
    s = (a ++ sep1 ++ cc ++ sep2 ++ sec) ++ rest /\ groups m = [a; cc; sec] /\
    is_anchor a /\ nonempty_of issep sep1 /\ nonempty_of isword cc /\
    nonempty_of issep sep2 /\ nonempty_of isdigit sec /\ no_digit_next rest.
Proof.
  intro F. apply first_match_hd in F. destruct F as [rest H].
  pose proof (hd_error_In _ _ H) as I.
  apply run_sound in I. destruct I as [S D].
  assert (G : no_digit_next rest).
  { unfold crs_re in H. head_chain H.
    intros c rest' E. exact (run_rep_greedy_hd isdigit 1 _ _ _ _ H c rest' E). }
  destruct (crs_re_groups _ _ D) as [a [s1 [cc [s2 [sec [Gm [W P]]]]]]].
  exists a, s1, cc, s2, sec, rest. rewrite S, W. tauto.
Qed.

(** In a fragment the extractor returns, a section read from the
    filename is never cut short: when the anchor pattern matches, the
    section is a run of digits that ends where the digits end, the
    character after it (if any) not being a digit. *)
Theorem section_is_a_whole_digit_run
    (pdfplumber_open : list Byte.byte -> pdf) (file_bytes : list Byte.byte)
    (fn : str) (f : CourseFragment) :
  extract_course_info_from_bytes pdfplumber_open file_bytes fn = Ok f ->
  section f <> Unknown ->
  exists pre a sep1 sep2 rest,
    strip fn = pre ++ (a ++ sep1 ++ course_code f ++ sep2 ++ section f) ++ rest /\
    is_anchor a /\ nonempty_of issep sep1 /\ nonempty_of issep sep2 /\
    nonempty_of isword (course_code f) /\ nonempty_of isdigit (section f) /\
    no_digit_next rest.
Proof.
  intro H. destruct (extract_Ok_inv _ _ _ _ H) as [id [_ ->]].
  cbn [section course_code fragment_of].
  unfold course_of.
  destruct (re_search crs_re (strip fn)) as [m|] eqn:E;
    [|cbn [fst snd]; intro N; contradiction].
  destruct (re_search_leftmost _ _ _ E) as [pre [s' [S F]]].
  destruct (crs_re_first s' m F) as [a [s1 [cc [s2 [sec [rest [S' [G P]]]]]]]].
  unfold group_or_empty. rewrite G. cbn [Nat.sub nth fst snd]. intros _.
  exists pre, a, s1, s2, rest. rewrite S, S'. tauto.
Qed.

(** "L24.CS101.05x": the section is 05. *)
Lemma section_is_a_whole_digit_run_witness :
  exists f,
    extract_course_info_from_bytes no_pdf [] (lit "L24.CS101.05x") = Ok f /\
    section f <> Unknown /\ nonempty_of isdigit (section f).
Proof.
  destruct (extract_course_info_from_bytes no_pdf [] (lit "L24.CS101.05x"))
    as [f|e] eqn:E; [|vm_compute in E; discriminate E].
  exists f. split; [reflexivity|].
  assert (N : section f <> Unknown).
  { vm_compute in E. injection E as <-. discriminate. }
  split; [exact N|].
  destruct (section_is_a_whole_digit_run no_pdf [] (lit "L24.CS101.05x") f E N)
    as [pre [a [s1 [s2 [rest [_ [_ [_ [_ [_ [D _]]]]]]]]]]].
  exact D.
Defined.

End ExtractorTails.

(* ------------------------------------------------------------------ *)
(** ** The merge: how many records *)
(* ------------------------------------------------------------------ *)
Module MergeMore.
Import Text ProcessPdfs ScrapeProfessorRatings.

(** The rows of input.csv that match a fragment's stripped course code. *)
Definition matches_of (csv_df : list csv_row) (f : CourseFragment) : list csv_row :=
  csv_matches csv_df (strip (course_code f)).

Lemma merge_row_length (csv_df : list csv_row) (row : CourseFragment) :
  List.length (merge_row csv_df row)
  = Nat.max 1 (List.length (csv_matches csv_df (course_code row))).
Proof.
  unfold merge_row. destruct (csv_matches csv_df (course_code row)) as [|c ms];
    [reflexivity|].
  rewrite length_map. simpl. reflexivity.
Qed.

Lemma list_sum_cons (a : nat) (l : list nat) : list_sum (a :: l) = a + list_sum l.
Proof. reflexivity. Qed.

Lemma merge_length (df : list CourseFragment) (csv_df : list csv_row) :
  csv_df <> [] ->
  List.length (merge_input_csv df csv_df)
  = list_sum (map (fun f => Nat.max 1 (List.length (matches_of csv_df f))) df).
Proof.
  intro NE. unfold merge_input_csv. destruct csv_df as [|c0 cs]; [contradiction|].
  set (csv := c0 :: cs). rewrite length_map.
  induction df as [|f df IH]; [reflexivity|].
  cbn [map flat_map list_sum]. rewrite length_app, IH, merge_row_length.
  reflexivity.
Qed.

Lemma unique_key_matches (csv_df : list csv_row) (cc : str) :
  NoDup (map (fun c => strip (csv_course_code c)) csv_df) ->
  List.length (csv_matches csv_df cc) <= 1.
Proof.
  unfold csv_matches. induction csv_df as [|c l IH]; intro N; [simpl; lia|].
  cbn [map] in N. inversion N as [|k ks Hk N' E]. subst.
  cbn [filter]. destruct (str_eqb (strip (csv_course_code c)) cc) eqn:Q.
  - apply ScrapeProofs.str_eqb_eq in Q.
    assert (Z : filter (fun c => str_eqb (strip (csv_course_code c)) cc) l = []).
    { destruct (filter (fun c => str_eqb (strip (csv_course_code c)) cc) l)
        as [|x xs] eqn:F; [reflexivity|].
      exfalso. apply Hk.
      assert (I : In x (filter (fun c => str_eqb (strip (csv_course_code c)) cc) l))
        by (rewrite F; left; reflexivity).
      apply filter_In in I. destruct I as [I Qx].
      apply ScrapeProofs.str_eqb_eq in Qx.
      apply in_map_iff. exists x. split; [congruence | exact I]. }
    rewrite Z. simpl. lia.
  - apply IH. exact N'.
Qed.

(** The merge is a left join: every fragment is kept, and a fragment
    whose stripped course code matches several rows of input.csv comes
    out once per matching row, so the merged frame has, for each
    fragment, as many records as it has matches (one if it has none).
    When the stripped course codes of input.csv are pairwise distinct the
    merged frame has exactly one record per fragment. *)
Theorem merge_fans_out_per_match (df : list CourseFragment) (csv_df : list csv_row) :
  csv_df <> [] ->
  List.length (merge_input_csv df csv_df)
  = list_sum (map (fun f => Nat.max 1 (List.length (matches_of csv_df f))) df) /\
  List.length df <= List.length (merge_input_csv df csv_df) /\
  (NoDup (map (fun c => strip (csv_course_code c)) csv_df) ->
   List.length (merge_input_csv df csv_df) = List.length df).
Proof.
  intro NE. rewrite (merge_length df csv_df NE).
  split; [reflexivity|]. split.
  - induction df as [|f df IH]; [simpl; lia|].
    cbn [map List.length]. rewrite list_sum_cons. lia.
  - intro N. induction df as [|f df IH]; [reflexivity|].
    cbn [map List.length]. rewrite list_sum_cons, IH.
    pose proof (unique_key_matches csv_df (strip (course_code f)) N) as U.
    unfold matches_of. lia.
Qed.

Definition two_ids : list csv_row :=
  [{| csv_course_code := lit "CS101"; csv_rmp_id := Some 222%Z |};
   {| csv_course_code := lit "CS101 "; csv_rmp_id := Some 333%Z |}].

(** Two rows of input.csv for CS101: the fragment comes out twice. *)
Lemma merge_fans_out_per_match_witness :
  two_ids <> [] /\
  List.length (merge_input_csv [ScrapeProofs.sample_fragment] two_ids) = 2.
Proof.
  assert (NE : two_ids <> []) by discriminate.
  split; [exact NE|].
  rewrite (proj1 (merge_fans_out_per_match [ScrapeProofs.sample_fragment] two_ids NE)).
  reflexivity.
Defined.

End MergeMore.

(* ------------------------------------------------------------------ *)
(** ** Extractor: the course name *)
(* ------------------------------------------------------------------ *)
Module ExtractorName.
Import Text Regex Exn ProcessPdfs RegexFacts RegexPriority ExtractorProofs
       ExtractorGroups TrimFacts.

Lemma flat_map_map {A B C : Type} (g : A -> B) (f : B -> list C) (l : list A) :
  flat_map f (map g l) = flat_map (fun x => f (g x)) l.
Proof.
  induction l as [|a l IH]; [reflexivity|]. simpl. rewrite IH. reflexivity.
Qed.

(** The head of a flat_map over a range comes from the first index that
    yields anything. *)
Lemma seq_first {B : Type} (f : nat -> list B) (a k : nat) (y : B) :
  hd_error (flat_map f (seq a k)) = Some y ->
  exists n, a <= n < a + k /\ (forall m, a <= m < n -> f m = []) /\
            hd_error (f n) = Some y.
Proof.
  revert a. induction k as [|k IH]; intro a; [discriminate|].
  cbn [seq flat_map]. destruct (f a) as [|b bs] eqn:E.
  - cbn [app]. intro H. destruct (IH (S a) H) as [n [R [Z Hn]]].
    exists n. split; [lia|]. split; [|exact Hn].
    intros m Hm. destruct (Nat.eq_dec m a) as [->|D]; [exact E|].
    apply Z. lia.
  - cbn [app hd_error]. intro H. exists a. split; [lia|]. split.
    + intros m Hm. lia.
    + rewrite E. exact H.
Qed.

Lemma run_lit_nil (l s : str) : run (Lit l) s = [] <-> starts_with l s = false.
Proof.
  cbn [run]. destruct (starts_with l s); split; intro H; try discriminate; reflexivity.
Qed.

(** A lazy group before a literal takes the shortest text after which
    the literal stands. *)
Lemma lazy_then_lit_hd (c : charset) (l s t : str) (g : list str) (rest : str) :
  hd_error (run (Cat (Grp (Rep c 0 None false)) (Lit l)) s) = Some (t, g, rest) ->
  exists n,
    g = [firstn n s] /\ n <= span c s /\
    forall m, m < n -> starts_with l (skipn m s) = false.
Proof.
  cbn [run]. unfold counts. cbv zeta. rewrite !flat_map_map.
  intro H. apply seq_first in H. destruct H as [n [R [Z Hn]]].
  exists n. split; [|split].
  - destruct (starts_with l (skipn n s)); cbn in Hn; [|discriminate].
    injection Hn as _ <- _. reflexivity.
  - lia.
  - intros m Hm. specialize (Z m (conj (Nat.le_0_l m) Hm)).
    destruct (starts_with l (skipn m s)); [discriminate Z | reflexivity].
Qed.

Lemma free_before_first (ch : ascii) (s : str) (n : nat) :
  (forall m, m < n -> starts_with [ch] (skipn m s) = false) ->
  free_of ch (firstn n s).
Proof.
  revert n. induction s as [|c0 s IH]; intros n H.
  - rewrite firstn_nil. reflexivity.
  - destruct n as [|n]; [reflexivity|].
    unfold free_of. cbn [firstn forallb]. apply andb_true_iff. split.
    + specialize (H 0 (Nat.lt_0_succ n)). cbn [skipn starts_with] in H.
      rewrite andb_true_r in H. unfold is_char. rewrite H. reflexivity.
    + apply IH. intros m Hm. exact (H (S m) (proj1 (Nat.succ_lt_mono m n) Hm)).
Qed.

Lemma lit_groups (l s t : str) (g : list str) (rest : str) :
  In (t, g, rest) (run (Lit l) s) -> g = [].
Proof. intro H. apply run_sound in H. destruct H as [_ D]. inversion D. reflexivity. Qed.

Lemma rep_groups (c : charset) (lo : nat) (hi : option nat) (gr : bool)
    (s t : str) (g : list str) (rest : str) :
  In (t, g, rest) (run (Rep c lo hi gr) s) -> g = [].
Proof. intro H. apply run_sound in H. destruct H as [_ D]. inversion D. reflexivity. Qed.

Lemma name_re_first (s : str) (m : match_obj) :
  first_match name_re s = Some m ->
  exists x, groups m = [x] /\ free_of "(" x /\ forallb isdot x = true.
Proof.
  intro F. apply first_match_hd in F. destruct F as [rest H].
  unfold name_re in H.
  apply run_cat_hd in H. destruct H as [t1 [g1 [r1 [tb1 [gb1 [I1 [H [_ E1]]]]]]]].
  apply run_cat_hd in H. destruct H as [t2 [g2 [r2 [tb2 [gb2 [I2 [H [_ E2]]]]]]]].
  apply run_cat_hd in H. destruct H as [t3 [g3 [r3 [tb3 [gb3 [I3 [H [_ E3]]]]]]]].
  apply lit_groups in I1. apply rep_groups in I2. apply lit_groups in I3.
  apply lazy_then_lit_hd in H. destruct H as [n [G [L Z]]].
  subst. cbn [app] in E1. exists (firstn n r3).
  split; [exact E1|]. split.
  - apply free_before_first. exact Z.
  - exact (proj1 (span_firstn isdot r3 n L)).
Qed.

Lemma dropwhile_In (p : ascii -> bool) (s : str) (c : ascii) :
  In c (dropwhile p s) -> In c s.
Proof.
  induction s as [|x s IH]; simpl; [auto|].
  destruct (p x); [intro H; right; exact (IH H) | auto].
Qed.

Lemma strip_In (s : str) (c : ascii) : In c (strip s) -> In c s.
Proof.
  unfold strip, rstrip, lstrip. intro H.
  apply in_rev in H. apply dropwhile_In in H. apply in_rev in H.
  exact (dropwhile_In _ _ _ H).
Qed.

(** The course name of a fragment the extractor returns never holds an
    opening parenthesis or a newline and never begins or ends with
    whitespace: it is "Unknown", or the stripped text of a capture that
    stops at the first opening parenthesis after the label. *)
Theorem course_name_is_clean
    (pdfplumber_open : list Byte.byte -> pdf) (file_bytes : list Byte.byte)
    (fn : str) (f : CourseFragment) :
  extract_course_info_from_bytes pdfplumber_open file_bytes fn = Ok f ->
  free_of "(" (course_name f) /\
  forallb isdot (course_name f) = true /\
  strip (course_name f) = course_name f.
Proof.
  intro H. destruct (extract_Ok_inv _ _ _ _ H) as [id [_ ->]].
  cbn [course_name fragment_of].
  unfold course_name_of.
  destruct (re_search name_re (pdf_text pdfplumber_open file_bytes)) as [m|] eqn:E;
    [|repeat split; reflexivity].
  destruct (re_search_leftmost _ _ _ E) as [pre [s' [_ F]]].
  destruct (name_re_first s' m F) as [x [G [P D]]].
  unfold group_or_empty. rewrite G. cbn [Nat.sub nth].
  split; [|split; [|apply strip_idem]].
  - unfold free_of in *. rewrite forallb_forall in *.
    intros c Hc. apply P. exact (strip_In x c Hc).
  - rewrite forallb_forall in *. intros c Hc. apply D. exact (strip_In x c Hc).
Qed.

(** A report whose first page reads "Reports for SP2025 - Intro (L24)":
    the course name is Intro. *)
Lemma course_name_is_clean_witness :
  exists f,
    extract_course_info_from_bytes ExtractorMore.two_pages []
      (lit "SP2025.L24.CS101.5.pdf") = Ok f /\
    course_name f = lit "Intro" /\ strip (course_name f) = course_name f.
Proof.
  destruct (extract_course_info_from_bytes ExtractorMore.two_pages []
              (lit "SP2025.L24.CS101.5.pdf"))
    as [f|e] eqn:E; [|vm_compute in E; discriminate E].
  exists f. split; [reflexivity|]. split.
  - vm_compute in E. injection E as <-. reflexivity.
  - exact (proj2 (proj2 (course_name_is_clean ExtractorMore.two_pages []
                           (lit "SP2025.L24.CS101.5.pdf") f E))).
Defined.

End ExtractorName.

(* ------------------------------------------------------------------ *)
(** ** Rating page extractor: further properties *)
(* ------------------------------------------------------------------ *)
Module ScrapeMore.
Import Text Regex ScrapeProfessorRatings ScrapeProofs.

Definition tag_elements (soup : list element) : list element :=
  find_all soup "span" (class_re "Tag-").

Definition rating_element (soup : list element) : option element :=
  find soup "div" (class_re "RatingValue__Numerator-").

Lemma scrape_cases (requests_get : str -> response) (id : str) :
  match scrape_professor_rating requests_get id with
  | None =>
      id = [] \/ requests_get (url id) = RequestRaises \/
      (exists status body, requests_get (url id) = Response status body /\
                           (status <> 200 \/ body = None))
  | Some info =>
      id <> [] /\
      exists soup,
        requests_get (url id) = Response 200 (Some soup) /\
        rmp_id info = id /\
        scraped_overall_rating info
          = option_map (fun e => strip (text e)) (rating_element soup) /\
        tags info = to_set (map (fun e => strip (lower (text e))) (tag_elements soup))
  end.
Proof.
  unfold scrape_professor_rating. destruct id as [|c id]; [left; reflexivity|].
  destruct (requests_get (url (c :: id))) as [|status body]; [right; left; reflexivity|].
  destruct (Nat.eqb_spec status 200) as [->|NE]; cbn [negb].
  - destruct body as [soup|].
    + fold (rating_element soup). fold (tag_elements soup).
      destruct (if 2 <=? List.length (find_all soup "div"
                         (class_re "FeedbackItem__FeedbackNumber-"))
                then _ else _) as [wta diff].
      split; [discriminate|]. exists soup. split; [reflexivity|].
      cbn [rmp_id scraped_overall_rating tags].
      split; [reflexivity|]. split.
      * destruct (rating_element soup); reflexivity.
      * destruct (tag_elements soup); reflexivity.
    + right. right. exists 200, None. auto.
  - right. right. exists status, body. auto.
Qed.

Lemma contains_char_false (ch : ascii) (s : str) :
  contains [ch] s = false ->
  forallb (fun c => negb (is_char ch c)) s = true.
Proof.
  induction s as [|c s IH]; [reflexivity|].
  intro H. cbn [contains] in H. apply orb_false_iff in H. destruct H as [E H].
  cbn [starts_with] in E. rewrite andb_true_r in E.
  cbn [forallb]. rewrite (IH H). unfold is_char. rewrite E. reflexivity.
Qed.

Lemma remove_percent_free (s : str) :
  forallb (fun c => negb (is_char "%"%char c)) (remove_percent s) = true.
Proof.
  unfold remove_percent. apply forallb_forall. intros c Hc.
  apply filter_In in Hc. tauto.
Qed.

(** A page that cannot be had gives no fragment and nothing else goes
    wrong: the result is null exactly when the id is empty, the request
    raises, the status is not 200 or the body does not parse.  Otherwise
    the fragment is keyed by the id asked for, its overall rating is the
    stripped text of the first rating node (null without one), its tags
    are the stripped lower-cased texts of the tag nodes, each once, and
    its would-take-again never carries a percent sign. *)
Theorem rating_fragment_shape (requests_get : str -> response) (id : str) :
  (scrape_professor_rating requests_get id = None <->
   id = [] \/ requests_get (url id) = RequestRaises \/
   exists status body, requests_get (url id) = Response status body /\
                       (status <> 200 \/ body = None)) /\
  (forall info, scrape_professor_rating requests_get id = Some info ->
     rmp_id info = id /\
     NoDup (tags info) /\
     (exists soup,
        requests_get (url id) = Response 200 (Some soup) /\
        scraped_overall_rating info
          = option_map (fun e => strip (text e)) (rating_element soup) /\
        forall t, In t (tags info) <->
                  exists e, In e (tag_elements soup) /\ t = strip (lower (text e))) /\
     (forall w, would_take_again info = Some w ->
        forallb (fun c => negb (is_char "%"%char c)) w = true)).
Proof.
  pose proof (scrape_cases requests_get id) as C.
  split.
  - destruct (scrape_professor_rating requests_get id) as [info|].
    + split; [discriminate|]. destruct C as [N [soup [R _]]].
      intros [E|[E|[status [body [E [S|S]]]]]];
        [contradiction | congruence | |];
        rewrite R in E; injection E as <- <-; [contradiction | discriminate].
    + split; [intros _; exact C | reflexivity].
  - intros info H. pose proof (scrape_inv requests_get id info H) as I.
    rewrite H in C. destruct C as [_ [soup [R [K [S T]]]]].
    split; [exact K|]. split; [rewrite T; apply NoDup_nodup|]. split.
    + exists soup. split; [exact R|]. split; [exact S|].
      intro t. rewrite T. unfold to_set. rewrite nodup_In, in_map_iff.
      split; intros [e [A B]]; exists e; auto.
    + intros w W. destruct I as [soup' [_ E]].
      destruct (feedback_numbers soup') as [|f0 [|f1 rest]];
        injection E as E1 E2; try congruence.
      rewrite W in E1. injection E1 as ->. unfold wt_again_text.
      destruct (contains (lit "%") (strip (text f0))) eqn:P.
      * apply remove_percent_free.
      * apply contains_char_false. exact P.
Qed.

(** The sample page: one fragment, would-take-again 75 without the sign. *)
Lemma rating_fragment_shape_witness :
  scrape_professor_rating sample_page (lit "7777") = Some sample_info /\
  rmp_id sample_info = lit "7777" /\ NoDup (tags sample_info).
Proof.
  assert (H : scrape_professor_rating sample_page (lit "7777") = Some sample_info)
    by (vm_compute; reflexivity).
  split; [exact H|].
  destruct (proj2 (rating_fragment_shape sample_page (lit "7777")) sample_info H)
    as [A [B _]].
  split; [exact A | exact B].
Defined.

End ScrapeMore.
